(** * qarray: ground-state solver of a quantum-dot array

    A shallow embedding of the Python sources of the solver core
    (the charge-configuration generators, the integer correctors of
    [core_python.py], the brute-force kernel of
    [jax_brute_force_core/closed.py] and the two dispatching entry points
    of [classes/_helper_functions.py]) together with the properties the
    specification states about them.

    Numbers.  A finite floating-point number is represented by the exact
    rational it denotes ([Q]); [inf] and [nan] are explicit constructors
    of [npfloat] where the source produces them.  Rounding error is not
    modelled there.  Where a statement depends on rounding, the open-mode
    corrector is embedded a second time over the binary64 numbers of
    IEEE 754, rounding to nearest, ties to even ([Float64],
    [PyCoreFloat64]).  The [int] of numpy is the signed 64-bit integer;
    its sums wrap around ([wrap64]).

    Arrays.  A one-dimensional array is a list, a two-dimensional array a
    list of rows.  The operands of [@], [-] and [einsum] are taken to have
    conforming shapes (numpy raises otherwise); the statements about the
    correctors say so with [square_of], those about the batch solver with
    [conforming].

    Effects.  Exceptions are the [Raise] case of [result].  The entry
    points log what they print and which solver they enter ([Run]); the
    Python batch solver runs over a store of objects passed by reference
    ([Py]), in which an assignment [a[i, j] = v] writes the array [a] in
    place.

    Part I holds the definitions, Part II the lemmas and theorems. *)

From Stdlib Require Import ZArith QArith Qround Qabs List String Ascii Lia Bool.
From Stdlib Require Import DecimalString FinFun Lqa Qminmax SpecFloat.
From stdpp Require Import gmap.
Import ListNotations.

(* ===================================================================== *)
(** * Part I: definitions                                                 *)
(* ===================================================================== *)

(** ** Python exceptions and the error monad *)

Inductive exn : Type :=
| ValueError (msg : string)
| AssertionError (msg : string)
| IndexError (msg : string)
| TypeError (msg : string).

Inductive result (A : Type) : Type :=
| Ok (a : A)
| Raise (e : exn).
Arguments Ok {A} a.
Arguments Raise {A} e.

Definition rbind {A B} (r : result A) (k : A -> result B) : result B :=
  match r with
  | Ok a => k a
  | Raise e => Raise e
  end.

Declare Scope result_scope.
Delimit Scope result_scope with result.
Notation "'do' x <- r ; k" := (rbind r (fun x => k))
  (at level 10, x name, r at level 100, k at level 200) : result_scope.

(** ** numpy scalars and vectors *)

Module Np.

Local Open Scope Q_scope.

(** A float64 value: a finite number, an infinity or not-a-number. *)
Inductive npfloat : Type :=
| Fin (q : Q)
| PInf
| NInf
| NaN.

Definition of_int (z : Z) : npfloat := Fin (inject_Z z).

Definition isnan (x : npfloat) : bool :=
  match x with NaN => true | _ => false end.

(** IEEE addition, exact on finite operands. *)
Definition fadd (x y : npfloat) : npfloat :=
  match x, y with
  | NaN, _ | _, NaN => NaN
  | PInf, NInf | NInf, PInf => NaN
  | PInf, _ | _, PInf => PInf
  | NInf, _ | _, NInf => NInf
  | Fin a, Fin b => Fin (a + b)
  end.

Definition fneg (x : npfloat) : npfloat :=
  match x with
  | Fin a => Fin (- a)
  | PInf => NInf
  | NInf => PInf
  | NaN => NaN
  end.

Definition fsub (x y : npfloat) : npfloat := fadd x (fneg y).

(** IEEE multiplication: [0 * inf] is [nan]. *)
Definition fmul (x y : npfloat) : npfloat :=
  match x, y with
  | NaN, _ | _, NaN => NaN
  | Fin a, Fin b => Fin (a * b)
  | Fin a, PInf | PInf, Fin a =>
      match a ?= 0 with Eq => NaN | Gt => PInf | Lt => NInf end
  | Fin a, NInf | NInf, Fin a =>
      match a ?= 0 with Eq => NaN | Gt => NInf | Lt => PInf end
  | PInf, PInf | NInf, NInf => PInf
  | PInf, NInf | NInf, PInf => NInf
  end.

(** [x < y] on floats; every comparison with [nan] is false. *)
Definition flt (x y : npfloat) : bool :=
  match x, y with
  | NaN, _ | _, NaN => false
  | Fin a, Fin b => match a ?= b with Lt => true | _ => false end
  | NInf, NInf => false
  | NInf, _ => true
  | _, NInf => false
  | PInf, _ => false
  | Fin _, PInf => true
  end.

Definition np_floor (x : Q) : Z := Qfloor x.
Definition np_ceil (x : Q) : Z := Qceiling x.

(** [np.rint]: round to the nearest integer, halves to the even one. *)
Definition np_rint (x : Q) : Z :=
  let f := Qfloor x in
  match ((x - inject_Z f) ?= (1 # 2))%Q with
  | Lt => f
  | Gt => (f + 1)%Z
  | Eq => if Z.even f then f else (f + 1)%Z
  end.

(** [np.sum] of an integer vector. *)
Definition zsum (v : list Z) : Z := fold_right Z.add 0%Z v.

(** Signed 64-bit integers, the [int] of numpy: an integer of the range
    below; arithmetic wraps around. *)
Definition int64_min : Z := (- 2 ^ 63)%Z.
Definition int64_max : Z := (2 ^ 63 - 1)%Z.

Definition wrap64 (z : Z) : Z := ((z + 2 ^ 63) mod 2 ^ 64 - 2 ^ 63)%Z.

(** [x.astype(int)] on a float that holds the integer [z]: outside the
    range the conversion gives the least integer. *)
Definition to_int64 (z : Z) : Z :=
  if ((int64_min <=? z) && (z <=? int64_max))%Z then z else int64_min.

(** [np.sum] of a vector of 64-bit integers. *)
Definition sum64 (v : list Z) : Z := wrap64 (zsum v).

(** [np.sum] of a vector of finite floats. *)
Definition qsum (v : list Q) : Q := fold_right Qplus 0 v.

(** [np.sum] of a float vector. *)
Definition fsum (v : list npfloat) : npfloat := fold_right fadd (Fin 0) v.

(** [itertools.product(choices, repeat=n)]: tuples in lexicographic
    order, the last position varying fastest. *)
Fixpoint product {A : Type} (choices : list A) (repeat : nat) : list (list A) :=
  match repeat with
  | O => [[]]
  | S k => flat_map (fun x => map (cons x) (product choices k)) choices
  end.

(** [np.stack(rows, axis=0)]: numpy refuses an empty list of arrays. *)
Definition np_stack {A : Type} (rows : list (list A)) : result (list (list A)) :=
  match rows with
  | [] => Raise (ValueError "need at least one array to stack")
  | _ => Ok rows
  end.

(** Element-wise sum of two integer vectors of the same length. *)
Fixpoint zadd_vec (u v : list Z) : list Z :=
  match u, v with
  | a :: u', b :: v' => (a + b)%Z :: zadd_vec u' v'
  | _, _ => []
  end.

(** [np.argmin]: the index of the first [nan] when there is one,
    otherwise the first index of the least element; an empty array is
    an error. *)
Fixpoint argmin_from (best : npfloat) (ibest i : nat) (l : list npfloat) : nat :=
  match l with
  | [] => ibest
  | x :: l' =>
      if isnan best then ibest
      else if isnan x || flt x best then argmin_from x i (S i) l'
      else argmin_from best ibest (S i) l'
  end.

Definition np_argmin (l : list npfloat) : result nat :=
  match l with
  | [] => Raise (ValueError "attempt to get argmin of an empty sequence")
  | x :: l' => Ok (argmin_from x 0%nat 1%nat l')
  end.


Definition Qltb (a b : Q) : bool :=
  match a ?= b with Lt => true | _ => false end.

(** A two-dimensional array of finite floats, one list per row. *)
Definition matrix : Type := list (list Q).

(** Element-wise difference of two float vectors of the same length. *)
Fixpoint vsub (u v : list npfloat) : list npfloat :=
  match u, v with
  | a :: u', b :: v' => fsub a b :: vsub u' v'
  | _, _ => []
  end.

(** One output entry of [np.einsum('...i, ij, ...j', d, m, d)]: the sum
    over [i] and [j] of [d_i * m_ij * d_j]. *)
Fixpoint einsum_row (di : npfloat) (row : list Q) (d : list npfloat) : list npfloat :=
  match row, d with
  | mij :: row', dj :: d' => fmul (fmul di (Fin mij)) dj :: einsum_row di row' d'
  | _, _ => []
  end.

Fixpoint einsum_rows (d_outer : list npfloat) (m : matrix) (d : list npfloat)
  : list npfloat :=
  match d_outer, m with
  | di :: d_outer', row :: m' =>
      fsum (einsum_row di row d) :: einsum_rows d_outer' m' d
  | _, _ => []
  end.

Definition quad_form (m : matrix) (d : list npfloat) : npfloat :=
  fsum (einsum_rows d m d).

(** [np.argwhere(mask)] on a one-dimensional mask: the indices of the
    true entries, ascending. *)
Definition argwhere (mask : list bool) : list nat :=
  List.filter (fun i => nth i mask false) (seq 0 (length mask)).

(** [np.isin(a, test)] for one element. *)
Definition isin (a : nat) (test : list nat) : bool :=
  existsb (Nat.eqb a) test.

(** [np.sort] of a vector of finite floats (ascending). *)
Fixpoint sort_insert (x : Q) (l : list Q) : list Q :=
  match l with
  | [] => [x]
  | y :: l' => if Qle_bool x y then x :: l else y :: sort_insert x l'
  end.

Definition np_sort (v : list Q) : list Q := fold_right sort_insert [] v.

(** [np.argsort]: the indices that sort the vector.  numpy does not fix
    the order of equal keys; here they keep their relative order.  The
    corrector binds the result to a name it overwrites before use. *)
Fixpoint argsort_insert (kx : Q * nat) (l : list (Q * nat)) : list (Q * nat) :=
  match l with
  | [] => [kx]
  | ky :: l' =>
      if Qle_bool (fst kx) (fst ky) then kx :: l else ky :: argsort_insert kx l'
  end.

Definition np_argsort (v : list Q) : list nat :=
  map snd (fold_right argsort_insert [] (combine v (seq 0 (length v)))).

(** [np.searchsorted(a, v, side='right')] on an ascending array: the
    number of leading entries that are [<= v]. *)
Fixpoint searchsorted_right (a : list Q) (v : Q) : nat :=
  match a with
  | [] => O
  | x :: a' => if Qle_bool x v then S (searchsorted_right a' v) else O
  end.

(** Finite linear algebra: [a @ b], [-a], [np.eye], [np.clip]. *)
Definition qdot (u v : list Q) : Q :=
  qsum (map (fun ab => fst ab * snd ab) (combine u v)).

Definition ncols (m : matrix) : nat := length (hd [] m).

Definition column (j : nat) (m : matrix) : list Q := map (fun row => nth j row 0) m.

Definition matmul (a b : matrix) : matrix :=
  map (fun row => map (fun j => qdot row (column j b)) (seq 0 (ncols b))) a.

Definition matvec (a : matrix) (v : list Q) : list Q :=
  map (fun row => qdot row v) a.

Definition mneg (a : matrix) : matrix := map (map Qopp) a.

Definition eye (dim : nat) : matrix :=
  map (fun i => map (fun j => if Nat.eqb i j then 1 else 0) (seq 0 dim)) (seq 0 dim).

(** [np.clip(x, lo, hi)] with an optional upper bound. *)
Definition np_clip (x : list Q) (lo : Q) (hi : option Q) : list Q :=
  map (fun a => let a := Qmax a lo in
                match hi with Some h => Qmin a h | None => a end) x.

(** [a[i]] on a list of rows. *)
Definition getitem {A : Type} (a : list A) (i : nat) : result A :=
  match nth_error a i with
  | Some x => Ok x
  | None => Raise (IndexError "index out of bounds")
  end.

End Np.

(** ** The closed-array configuration generator
    ([charge_configuration_generators/closed_dot_configurations.py]) *)

Module ClosedGen.
Import Np.
Local Open Scope Z_scope.
Local Open Scope result_scope.

(** [sum_eq(array, sum)], with the keyword argument of
    [partial(sum_eq, sum=...)] first. *)
Definition sum_eq (sum : Z) (array : list Z) : bool := sum64 array =? sum.

(** [np.empty((0, n_dot))] is the array without rows.  [floor_values] is
    an array of 64-bit integers: its sums, [floor_values + 1], the
    difference [n_charge - floor_values.sum()] and the rows
    [combination + floor_values] wrap around. *)
Definition closed_charge_configurations (n_continous : list Q) (n_charge : Z)
  : result (list (list Z)) :=
  let floor_values := map (fun x => to_int64 (np_floor x)) n_continous in
  if sum64 floor_values >? n_charge then Ok []
  else if sum64 (map (fun f => wrap64 (f + 1)) floor_values) <? n_charge then Ok []
  else
    let p := product [0; 1] (length floor_values) in
    let f := sum_eq (wrap64 (n_charge - sum64 floor_values)) in
    let combinations := List.filter f p in
    do stacked <- np_stack combinations;
    Ok (map (fun row => map wrap64 (zadd_vec row floor_values)) stacked).

End ClosedGen.


(** ** The integer correctors and the Python batch solver
    ([core_python/core_python.py]) *)

Module PyCore.
Import Np.
Local Open Scope Q_scope.
Local Open Scope result_scope.

(** The two loops that fill row [i] of [n_list]:
    [for j, operation in zip(floor_ceil_args, ops): n_list[i, j] = operation(n_continuous[j])]
    and [for j in round_args: n_list[i, j] = np.rint(n_continuous[j])].
    Every index comes from [np.arange(n_continuous.size)], so the bounds
    check of the assignment never fails. *)
Definition fill_row (n_continuous : list Q) (floor_ceil_args round_args : list nat)
  (ops : list (Q -> Z)) (row : list npfloat) : list npfloat :=
  let row :=
    fold_left (fun (r : list npfloat) (jo : nat * (Q -> Z)) =>
                 <[fst jo := of_int (snd jo (nth (fst jo) n_continuous 0))]> r)
              (combine floor_ceil_args ops) row in
  fold_left (fun (r : list npfloat) (j : nat) =>
               <[j := of_int (np_rint (nth j n_continuous 0))]> r)
            round_args row.

(** [n_list]: one row per tuple of [product([np.floor, np.ceil], ...)],
    each starting as a row of [nan]. *)
Definition build_n_list (n_continuous : list Q) (floor_ceil_args round_args : list nat)
  : list (list npfloat) :=
  map (fun ops => fill_row n_continuous floor_ceil_args round_args ops
                    (repeat NaN (length n_continuous)))
      (product [np_floor; np_ceil] (length floor_ceil_args)).

(** [np.einsum('...i, ij, ...j', n_list - n_continuous, cdd_inv, n_list - n_continuous)] *)
Definition free_energies (n_list : list (list npfloat)) (n_continuous : list Q)
  (cdd_inv : matrix) : list npfloat :=
  map (fun n => quad_form cdd_inv (vsub n (map Fin n_continuous))) n_list.

Definition remainders (n_continuous : list Q) : list Q :=
  map (fun x => x - inject_Z (np_floor x)) n_continuous.

(** The branched dots of [compute_argmin_open]. *)
Definition open_floor_ceil_args (n_continuous : list Q) (threshold : Q) : list nat :=
  argwhere (map (fun r => Qltb (Qabs (r - (1 # 2))) (threshold / 2))
                (remainders n_continuous)).

Definition round_args_of (n_continuous : list Q) (floor_ceil_args : list nat) : list nat :=
  let args := seq 0 (length n_continuous) in
  List.filter (fun a => negb (isin a floor_ceil_args)) args.

Definition open_n_list (n_continuous : list Q) (threshold : Q) : list (list npfloat) :=
  let floor_ceil_args := open_floor_ceil_args n_continuous threshold in
  let round_args := round_args_of n_continuous floor_ceil_args in
  build_n_list n_continuous floor_ceil_args round_args.

Definition compute_argmin_open (n_continuous : list Q) (threshold : Q) (cdd_inv : matrix)
  : result (list npfloat) :=
  let n_list := open_n_list n_continuous threshold in
  let F := free_energies n_list n_continuous cdd_inv in
  do i <- np_argmin F;
  getitem n_list i.

(** The branched dots of [compute_argmin_closed] when [n_charge] is
    [None].  The result of [np.argsort] is bound to [args] and then
    replaced by [np.arange] before it is used. *)
Definition closed_threshold_index (n_continuous : list Q) (threshold : Q)
  (cdd_inv : matrix) : nat :=
  let delta := map (fun r => Qabs (r - (1 # 2))) (remainders n_continuous) in
  let sorted_delta := np_sort delta in
  let threshold_index := searchsorted_right sorted_delta (threshold / 2) in
  Nat.max threshold_index (Nat.min (length cdd_inv) 3).

Definition closed_floor_ceil_args (n_continuous : list Q) (threshold : Q)
  (cdd_inv : matrix) : list nat :=
  let delta := map (fun r => Qabs (r - (1 # 2))) (remainders n_continuous) in
  let args := np_argsort delta in
  let threshold_index := closed_threshold_index n_continuous threshold cdd_inv in
  let args := seq 0 (length n_continuous) in
  List.filter (fun a => a <? threshold_index)%nat args.

Definition closed_n_list (n_continuous : list Q) (threshold : Q) (cdd_inv : matrix)
  : list (list npfloat) :=
  let floor_ceil_args := closed_floor_ceil_args n_continuous threshold cdd_inv in
  let round_args := round_args_of n_continuous floor_ceil_args in
  build_n_list n_continuous floor_ceil_args round_args.

Section ClosedCorrector.

(** [compute_charge_configuration_brute_force(n_charge, n_dot, lower_limits)]
    is defined in the module [charge_configuration_combinatations]; the
    corrector is parametrised by it. *)
Variable compute_charge_configuration_brute_force :
  Z -> nat -> list Z -> list (list Z).

Definition compute_argmin_closed (n_continuous : list Q) (threshold : Q)
  (cdd_inv : matrix) (n_charge : option Z) : result (list npfloat) :=
  let n_list :=
    match n_charge with
    | None => closed_n_list n_continuous threshold cdd_inv
    | Some n_charge =>
        let lower_limits := map np_floor n_continuous in
        let upper_limits := map np_ceil n_continuous in
        map (map of_int)
            (compute_charge_configuration_brute_force
               n_charge (length cdd_inv) lower_limits)
    end in
  let F := free_energies n_list n_continuous cdd_inv in
  do i <- np_argmin F;
  getitem n_list i.

End ClosedCorrector.

(** *** The batch solver over a store of Python objects

    The capacitance matrices, the voltage batch and the OSQP problem are
    objects that the functions receive by reference.  The store maps a
    location to the object it holds; a function that returns a new array
    allocates it. *)

Definition loc : Type := nat.

(** The data of an [osqp.OSQP] problem after [setup]. *)
Record osqp_problem : Type := {
  osqp_P : matrix;
  osqp_q : list Q;
  osqp_A : matrix;
  osqp_l : list Q;
  osqp_u : list Q
}.

Inductive pyobj : Type :=
| ObjArray (a : matrix)
| ObjFloatArray (a : list (list npfloat))
| ObjOSQP (prob : osqp_problem).

Definition Py (A : Type) : Type := gmap loc pyobj -> result A * gmap loc pyobj.

Definition py_ret {A : Type} (a : A) : Py A := fun h => (Ok a, h).

Definition py_raise {A : Type} (e : exn) : Py A := fun h => (Raise e, h).

Definition py_bind {A B : Type} (m : Py A) (k : A -> Py B) : Py B :=
  fun h => match m h with
           | (Ok a, h') => k a h'
           | (Raise e, h') => (Raise e, h')
           end.

Declare Scope py_scope.
Delimit Scope py_scope with py.
Notation "'run' x <- m ; k" := (py_bind m (fun x => k))
  (at level 10, x name, m at level 100, k at level 200) : py_scope.

Definition py_lift {A : Type} (r : result A) : Py A := fun h => (r, h).

(** A new object is placed at a location the store does not use. *)
Definition py_alloc (o : pyobj) : Py loc :=
  fun h => let l := fresh (dom h) in (Ok l, <[l := o]> h).

Definition load_array (l : loc) : Py matrix :=
  fun h => match h !! l with
           | Some (ObjArray a) => (Ok a, h)
           | _ => (Raise (TypeError "not an array"), h)
           end.

Definition load_problem (l : loc) : Py osqp_problem :=
  fun h => match h !! l with
           | Some (ObjOSQP p) => (Ok p, h)
           | _ => (Raise (TypeError "not an OSQP problem"), h)
           end.

(** [prob.update(q=...)] overwrites the linear term of the problem. *)
Definition osqp_update (prob : loc) (q : list Q) : Py unit :=
  fun h => match h !! prob with
           | Some (ObjOSQP p) =>
               (Ok tt, <[prob := ObjOSQP {| osqp_P := osqp_P p; osqp_q := q;
                                            osqp_A := osqp_A p; osqp_l := osqp_l p;
                                            osqp_u := osqp_u p |}]> h)
           | _ => (Raise (TypeError "not an OSQP problem"), h)
           end.

(** An array read as an array of floats. *)
Definition load_float_array (l : loc) : Py (list (list npfloat)) :=
  fun h => match h !! l with
           | Some (ObjFloatArray a) => (Ok a, h)
           | Some (ObjArray a) => (Ok (map (map Fin) a), h)
           | _ => (Raise (TypeError "not an array"), h)
           end.

(** [a[i, j] = v]: the array at [l] is written in place, whichever array
    it is; an index out of bounds is an error. *)
Definition py_setitem (l : loc) (i j : nat) (v : npfloat) : Py unit :=
  fun h =>
    match load_float_array l h with
    | (Ok a, _) =>
        match a !! i with
        | Some row =>
            if (j <? length row)%nat
            then (Ok tt, <[l := ObjFloatArray (<[i := <[j := v]> row]> a)]> h)
            else (Raise (IndexError "index out of bounds"), h)
        | None => (Raise (IndexError "index out of bounds"), h)
        end
    | (Raise e, _) => (Raise e, h)
    end.

(** [for x in xs: body]. *)
Fixpoint py_for {A : Type} (xs : list A) (body : A -> Py unit) : Py unit :=
  match xs with
  | [] => py_ret tt
  | x :: xs' => py_bind (body x) (fun _ => py_for xs' body)
  end.

(** [compute_argmin_open] on the store: [cdd_inv] is received by
    reference, [n_list] is a new array of [nan] that the two loops fill in
    place, row after row. *)
Definition compute_argmin_open_in_place (n_continuous : list Q) (threshold : Q)
  (cdd_inv : loc) : Py (list npfloat) :=
  let floor_ceil_args := open_floor_ceil_args n_continuous threshold in
  let round_args := round_args_of n_continuous floor_ceil_args in
  py_bind
    (py_alloc (ObjFloatArray (repeat (repeat NaN (length n_continuous))
                                     (2 ^ length floor_ceil_args))))
    (fun n_list =>
       let floor_ceil_list := product [np_floor; np_ceil] (length floor_ceil_args) in
       py_bind
         (py_for (combine (seq 0 (length floor_ceil_list)) floor_ceil_list)
            (fun i_ops =>
               py_bind
                 (py_for (combine floor_ceil_args (snd i_ops))
                    (fun j_op =>
                       py_setitem n_list (fst i_ops) (fst j_op)
                         (of_int (snd j_op (nth (fst j_op) n_continuous 0)))))
                 (fun _ =>
                    py_for round_args
                      (fun j =>
                         py_setitem n_list (fst i_ops) j
                           (of_int (np_rint (nth j n_continuous 0)))))))
         (fun _ =>
            py_bind (load_float_array n_list)
              (fun n_list_a =>
                 py_bind (load_array cdd_inv)
                   (fun cdd_inv_a =>
                      let F := free_energies n_list_a n_continuous cdd_inv_a in
                      py_bind (py_lift (np_argmin F))
                        (fun i => py_lift (getitem n_list_a i)))))).

(** [map(f, rows)] followed by [list(...)]: the calls run in order and
    the first exception ends the iteration. *)
Fixpoint py_map {A B : Type} (f : A -> Py B) (rows : list A) : Py (list B) :=
  match rows with
  | [] => py_ret []
  | v :: rows' =>
      (run n <- f v;
       run ns <- py_map f rows';
       py_ret (n :: ns))%py
  end.

Section BatchSolver.

Local Open Scope py_scope.

(** [prob.solve().x]: the answer of the external QP solver, a function
    of the problem data. *)
Variable osqp_solve : osqp_problem -> list Q.

Variable compute_charge_configuration_brute_force :
  Z -> nat -> list Z -> list (list Z).

Definition init_osqp_problem (cdd_inv cgd : loc) (n_charge : option Z) : Py loc :=
  run cdd_inv_a <- load_array cdd_inv;
  run cgd_a <- load_array cgd;
  let dim := length cdd_inv_a in
  let P := cdd_inv_a in
  let q := matvec (matmul (mneg cdd_inv_a) cgd_a) (repeat 0 (ncols cgd_a)) in
  let prob :=
    match n_charge with
    | Some n_charge =>
        {| osqp_P := P; osqp_q := q;
           osqp_A := repeat 1 dim :: eye dim;
           osqp_l := inject_Z n_charge :: repeat 0 dim;
           osqp_u := repeat (inject_Z n_charge) (dim + 1) |}
    | None =>
        {| osqp_P := P; osqp_q := q;
           osqp_A := eye dim;
           osqp_l := repeat 0 dim;
           osqp_u := repeat 100 dim |}
    end in
  py_alloc (ObjOSQP prob).

Definition _ground_state_open_0d (vg : list Q) (cgd cdd_inv : loc) (threshold : Q)
  (prob : loc) : Py (list npfloat) :=
  run cdd_inv_a <- load_array cdd_inv;
  run cgd_a <- load_array cgd;
  run _ <- osqp_update prob (matvec (matmul (mneg cdd_inv_a) cgd_a) vg);
  run p <- load_problem prob;
  let res_x := osqp_solve p in
  let n_continuous := np_clip res_x 0 None in
  compute_argmin_open_in_place n_continuous threshold cdd_inv.

Definition _ground_state_closed_0d (vg : list Q) (n_charge : Z) (cgd cdd_inv : loc)
  (threshold : Q) (prob : loc) : Py (list npfloat) :=
  run cdd_inv_a <- load_array cdd_inv;
  run cgd_a <- load_array cgd;
  run _ <- osqp_update prob (matvec (matmul (mneg cdd_inv_a) cgd_a) vg);
  run p <- load_problem prob;
  let res_x := osqp_solve p in
  let n_continuous := np_clip res_x 0 (Some (inject_Z n_charge)) in
  run cdd_inv_a <- load_array cdd_inv;
  py_lift (compute_argmin_closed compute_charge_configuration_brute_force
             n_continuous threshold cdd_inv_a (Some n_charge)).

Definition ground_state_open_python (vg cgd cdd_inv : loc) (threshold : Q) : Py loc :=
  run prob <- init_osqp_problem cdd_inv cgd None;
  run vg_a <- load_array vg;
  run N <- py_map (fun v => _ground_state_open_0d v cgd cdd_inv threshold prob) vg_a;
  py_alloc (ObjFloatArray N).

Definition ground_state_closed_python (vg : loc) (n_charge : Z) (cgd cdd cdd_inv : loc)
  (threshold : Q) : Py loc :=
  run prob <- init_osqp_problem cdd_inv cgd (Some n_charge);
  run vg_a <- load_array vg;
  run N <- py_map (fun v => _ground_state_closed_0d v n_charge cgd cdd_inv threshold prob)
                  vg_a;
  py_alloc (ObjFloatArray N).

End BatchSolver.

End PyCore.


(** ** The brute-force kernel of a closed array
    ([jax_brute_force_core/closed.py]) *)

Module JaxBruteForce.
Import Np.
Local Open Scope Q_scope.
Local Open Scope result_scope.

(** The product of a boolean array with [jnp.inf] inside the compiled
    kernel ([jax.jit]): a selection, [inf] where the boolean is [True]
    and [0] where it is [False]. *)
Definition bool_times_inf (b : bool) : npfloat := if b then PInf else Fin 0.

Fixpoint vadd (u v : list npfloat) : list npfloat :=
  match u, v with
  | a :: u', b :: v' => fadd a b :: vadd u' v'
  | _, _ => []
  end.

(** [(n_list * weights[:, None]).sum(axis=0)] *)
Definition weighted_sum (n_list : list (list Z)) (weights : list npfloat) (n_dot : nat)
  : list npfloat :=
  fold_right vadd (repeat (Fin 0) n_dot)
    (map (fun nw => map (fun x => fmul (of_int x) (snd nw)) (fst nw))
         (combine n_list weights)).

Section Kernel.

(** [jax.nn.softmax(x, axis=0)], a library function. *)
Variable softmax : list npfloat -> list npfloat.

(** [mask = (jnp.sum(n_list, axis=-1) != n_charge) * jnp.inf]: [inf] for a
    configuration with the wrong total, [0] for an admissible one. *)
Definition mask_of (n_charge : Z) (n_list : list (list Z)) : list npfloat :=
  map (fun n => bool_times_inf (negb (zsum n =? n_charge)%Z)) n_list.

(** The two local functions of the kernel, as functions of the masked
    scores [F]. *)
Definition softargmin (n_list : list (list Z)) (T : Q) (F : list npfloat)
  : list npfloat :=
  let weights := softmax (map (fun f => fmul (fneg f) (Fin (/ T))) F) in
  weighted_sum n_list weights (length (hd [] n_list)).

Definition hardargmin (n_list : list (list Z)) (F : list npfloat)
  : result (list npfloat) :=
  do i <- np_argmin F;
  do n <- getitem n_list i;
  Ok (map of_int n).

(** [jnp.argmin] is rendered by [np_argmin]. *)
Definition _ground_state_closed_0d (vg : list Q) (cgd cdd_inv : matrix) (n_charge : Z)
  (n_list : list (list Z)) (T : Q) : result (list npfloat) :=
  let mask := mask_of n_charge n_list in
  let v_dash := matvec cgd vg in
  let F := map (fun n => quad_form cdd_inv (vsub (map of_int n) (map Fin v_dash)))
               n_list in
  let F := vadd F mask in
  if Qltb 0 T then Ok (softargmin n_list T F) else hardargmin n_list F.

End Kernel.

End JaxBruteForce.

(** ** The dispatching entry points ([classes/_helper_functions.py]) *)

Module Helper.
Import Np.
Local Open Scope string_scope.
Local Open Scope result_scope.

(** An n-dimensional array of finite floats: its shape and its entries
    in row-major order. *)
Record ndarray : Type := { shape : list nat; data : list Q }.

Definition size_of (shape : list nat) : nat := fold_right Nat.mul 1%nat shape.

(** A [VectorList]: a two-dimensional array, one list per row. *)
Definition VectorList : Type := list (list Q).

Record Model : Type := {
  n_gate : nat;
  n_dot : nat;
  core : string;
  cgd : matrix;
  cdd : matrix;
  cdd_inv : matrix;
  threshold : Q;
  polish : bool;
  T : Q;
  max_charge_carriers : option nat
}.

(** The solver implementations the module imports from the core
    packages ([rust_core], [jax_core], [brute_force], [python_core]); the
    entry points are parametrised by them. *)
Record Backends : Type := {
  ground_state_open_rust :
    VectorList -> matrix -> matrix -> Q -> bool -> Q -> result VectorList;
  ground_state_open_jax :
    VectorList -> matrix -> matrix -> Q -> result VectorList;
  ground_state_open_brute_force :
    VectorList -> matrix -> matrix -> nat -> Q -> result VectorList;
  ground_state_open_python :
    VectorList -> matrix -> matrix -> Q -> bool -> result VectorList;
  ground_state_closed_rust :
    VectorList -> Z -> matrix -> matrix -> matrix -> Q -> bool -> Q -> result VectorList;
  ground_state_closed_jax :
    VectorList -> Z -> matrix -> matrix -> matrix -> Q -> result VectorList;
  ground_state_closed_brute_force :
    VectorList -> Z -> matrix -> matrix -> matrix -> Q -> result VectorList;
  ground_state_closed_python :
    VectorList -> Z -> matrix -> matrix -> matrix -> Q -> bool -> result VectorList
}.

Inductive core_kind : Type := Rust | Jax | BruteForce | Python.

(** What a call lets the outside observe: the text it prints and the
    solver it hands the batch to. *)
Inductive event : Type :=
| Print (msg : string)
| Solve (k : core_kind).

Definition Run (A : Type) : Type := (list event * result A)%type.

Definition run_ret {A : Type} (a : A) : Run A := ([], Ok a).

Definition run_bind {A B : Type} (m : Run A) (k : A -> Run B) : Run B :=
  match m with
  | (log, Ok a) => let (log', r) := k a in ((log ++ log')%list, r)
  | (log, Raise e) => (log, Raise e)
  end.

Declare Scope run_scope.
Delimit Scope run_scope with run.
Notation "'let*' x := m 'in' k" := (run_bind m (fun x => k))
  (at level 10, x name, m at level 100, k at level 200) : run_scope.

Definition run_lift {A : Type} (r : result A) : Run A := ([], r).

Definition emit (e : event) : Run unit := ([e], Ok tt).

(** [print(msg)] under the guard [if cond:]. *)
Definition print_when (cond : bool) (msg : string) : Run unit :=
  if cond then emit (Print msg) else run_ret tt.

(** The solver is entered and its outcome is the outcome of the call. *)
Definition solve_with {A : Type} (k : core_kind) (r : result A) : Run A :=
  ([Solve k], r).

(** [str(n)] for a non-negative integer. *)
Definition str_of_nat (n : nat) : string := NilZero.string_of_uint (Nat.to_uint n).

Definition _validate_vg (vg : ndarray) (n_gate : nat) : result unit :=
  match last (shape vg) with
  | None => Raise (IndexError "tuple index out of range")
  | Some d =>
      if negb (d =? n_gate)%nat then
        Raise (ValueError
                 ("The shape of vg is in correct it should be of shape (..., n_gate) = (...,"
                    ++ str_of_nat n_gate ++ ")"))
      else Ok tt
  end.

(** Consecutive rows of [width] entries. *)
Fixpoint rows_of (count width : nat) (d : list Q) : list (list Q) :=
  match count with
  | O => []
  | S count' => firstn width d :: rows_of count' width (skipn width d)
  end.

(** [vg.reshape(-1, n_gate)]: numpy cannot infer the free dimension when
    the given one is zero or does not divide the size. *)
Definition reshape_rows (vg : ndarray) (n_gate : nat) : result VectorList :=
  let size := length (data vg) in
  if (n_gate =? 0)%nat || negb (size mod n_gate =? 0)%nat then
    Raise (ValueError "cannot reshape array into shape (-1, n_gate)")
  else Ok (rows_of (size / n_gate) n_gate (data vg)).

(** [result.reshape(nd_shape)] *)
Definition reshape_result (a : VectorList) (nd_shape : list nat) : result ndarray :=
  let flat := concat a in
  if (length flat =? size_of nd_shape)%nat then
    Ok {| shape := nd_shape; data := flat |}
  else Raise (ValueError "cannot reshape array into shape nd_shape").

(** [x.astype(int)]: truncation toward zero to a 64-bit integer; outside
    the range of these the conversion gives the least one. *)
Definition astype_int (x : Q) : Z := to_int64 (Z.quot (Qnum x) (Z.pos (Qden x))).

(** [np.isclose(a, b)] with the default [rtol=1e-05] and [atol=1e-08]. *)
Definition rtol : Q := 1 # 100000.
Definition atol : Q := 1 # 100000000.

Definition isclose (a b : Q) : bool :=
  Qle_bool (Qabs (a - b)) (atol + rtol * Qabs b).

Definition py_assert (cond : bool) (msg : string) : result unit :=
  if cond then Ok tt else Raise (AssertionError msg).

Definition jax_warning : string :=
  "Warning: JAX core does not support threshold < 1.0, using threshold of 1.0".

Definition incorrect_core (core : string) : exn :=
  ValueError ("Incorrect core " ++ core ++ ", it must be either rust, jax or python").

Definition case_of (core : string) (patterns : list string) : bool :=
  existsb (String.eqb core) patterns.

Section EntryPoints.

Variable B : Backends.

Local Open Scope run_scope.

(** The [match model.core:] statement of [_ground_state_open].  The
    conversion [VectorList(vg)] before it only changes the Python type of
    the batch. *)
Definition dispatch_open (model : Model) (vg : VectorList) : Run VectorList :=
  if case_of (core model) ["rust"; "Rust"; "RUST"; "r"] then
    solve_with Rust
      (ground_state_open_rust B vg (cgd model) (cdd_inv model) (threshold model)
         (polish model) (T model))
  else if case_of (core model) ["jax"; "Jax"; "JAX"; "j"] then
    let* _ := print_when (Qltb (threshold model) 1) jax_warning in
    solve_with Jax
      (ground_state_open_jax B vg (cgd model) (cdd_inv model) (T model))
  else if case_of (core model)
            ["brute_force"; "jax_brute_force"; "Jax_brute_force"; "JAX_BRUTE_FORCE"; "b"]
  then
    match max_charge_carriers model with
    | None =>
        run_lift (Raise (ValueError
          ("The max_charge_carriers must be specified for the jax_brute_force core use:"
             ++ String (ascii_of_nat 10) "model.max_charge_carriers = #")))
    | Some max_number_of_charge_carriers =>
        let* _ := print_when (Qltb (threshold model) 1) jax_warning in
        solve_with BruteForce
          (ground_state_open_brute_force B vg (cgd model) (cdd_inv model)
             max_number_of_charge_carriers (T model))
    end
  else if case_of (core model) ["python"; "Python"; "PYTHON"; "p"] then
    solve_with Python
      (ground_state_open_python B vg (cgd model) (cdd_inv model) (threshold model)
         (polish model))
  else run_lift (Raise (incorrect_core (core model))).

Definition _ground_state_open (model : Model) (vg : ndarray) : Run ndarray :=
  let* _ := run_lift (_validate_vg vg (n_gate model)) in
  let vg_shape := shape vg in
  let nd_shape := (removelast vg_shape ++ [n_dot model])%list in
  let* vg := run_lift (reshape_rows vg (n_gate model)) in
  let* result := dispatch_open model vg in
  let* _ := run_lift (py_assert
                        (forallb (fun x => (0 <=? astype_int x)%Z) (concat result))
                        "The number of charges is negative something went wrong") in
  run_lift (reshape_result result nd_shape).

(** The [match model.core:] statement of [_ground_state_closed]. *)
Definition dispatch_closed (model : Model) (vg : VectorList) (n_charge : Z)
  : Run VectorList :=
  if case_of (core model) ["rust"; "Rust"; "RUST"; "r"] then
    solve_with Rust
      (ground_state_closed_rust B vg n_charge (cgd model) (cdd model) (cdd_inv model)
         (threshold model) (polish model) (T model))
  else if case_of (core model) ["jax"; "Jax"; "JAX"; "j"] then
    let* _ := print_when (Qltb (threshold model) 1)
                "Warning: JAX core does not support threshold < 1.0, using of 1.0" in
    solve_with Jax
      (ground_state_closed_jax B vg n_charge (cgd model) (cdd model) (cdd_inv model)
         (T model))
  else if case_of (core model)
            ["brute_force"; "jax_brute_force"; "Jax_brute_force"; "JAX_BRUTE_FORCE"; "b"]
  then
    let* _ := print_when (Qltb (threshold model) 1) jax_warning in
    solve_with BruteForce
      (ground_state_closed_brute_force B vg n_charge (cgd model) (cdd model)
         (cdd_inv model) (T model))
  else if case_of (core model) ["python"; "Python"; "PYTHON"; "p"] then
    solve_with Python
      (ground_state_closed_python B vg n_charge (cgd model) (cdd model) (cdd_inv model)
         (threshold model) (polish model))
  else run_lift (Raise (incorrect_core (core model))).

Definition _ground_state_closed (model : Model) (vg : ndarray) (n_charge : Z)
  : Run ndarray :=
  let* _ := run_lift (_validate_vg vg (n_gate model)) in
  let vg_shape := shape vg in
  let nd_shape := (removelast vg_shape ++ [n_dot model])%list in
  let* vg := run_lift (reshape_rows vg (n_gate model)) in
  let* result := dispatch_closed model vg n_charge in
  let* _ := run_lift (py_assert
                        (forallb (fun row => isclose (qsum row) (inject_Z n_charge)) result)
                        "The number of charges is not correct something went wrong") in
  run_lift (reshape_result result nd_shape).

End EntryPoints.

End Helper.

(** ** Vocabulary of the statements about the correctors *)

Module CorrectorSpec.
Import Np.
Local Open Scope Q_scope.

Definition remainder (x : Q) : Q := x - inject_Z (np_floor x).

(** A dot branches when its remainder is closer to one half than
    [threshold / 2]. *)
Definition branches (threshold x : Q) : Prop :=
  Qabs (remainder x - (1 # 2)) < threshold / 2.

Definition branchesb (threshold x : Q) : bool :=
  Qltb (Qabs (remainder x - (1 # 2))) (threshold / 2).

(** An integer vector in which every branched dot holds the floor or the
    ceiling of its continuous occupation and every other dot the nearest
    integer. *)
Definition open_candidate (n : list Q) (threshold : Q) (c : list Z) : Prop :=
  Forall2 (fun x ci =>
             (branches threshold x -> ci = np_floor x \/ ci = np_ceil x) /\
             (~ branches threshold x -> ci = np_rint x)) n c.

(** The row that the tuple [ops] selects: the branched dots (those with a
    true mask entry) consume the operations in order, the other dots are
    rounded. *)
Fixpoint spec_row (n : list Q) (mask : list bool) (ops : list (Q -> Z)) : list Z :=
  match n, mask with
  | x :: n', true :: mask' =>
      match ops with
      | op :: ops' => op x :: spec_row n' mask' ops'
      | [] => []
      end
  | x :: n', false :: mask' => np_rint x :: spec_row n' mask' ops
  | _, _ => []
  end.

(** The quadratic form [(c - n)^T cdd_inv (c - n)] over the rationals. *)
Fixpoint qeinsum_row (di : Q) (row : list Q) (d : list Q) : list Q :=
  match row, d with
  | mij :: row', dj :: d' => di * mij * dj :: qeinsum_row di row' d'
  | _, _ => []
  end.

Fixpoint qeinsum_rows (d_outer : list Q) (m : matrix) (d : list Q) : list Q :=
  match d_outer, m with
  | di :: d_outer', row :: m' => qsum (qeinsum_row di row d) :: qeinsum_rows d_outer' m' d
  | _, _ => []
  end.

Fixpoint qdiff (c : list Z) (n : list Q) : list Q :=
  match c, n with
  | ci :: c', x :: n' => (inject_Z ci + - x) :: qdiff c' n'
  | _, _ => []
  end.

Definition energy (cdd_inv : matrix) (n : list Q) (c : list Z) : Q :=
  let d := qdiff c n in qsum (qeinsum_rows d cdd_inv d).

(** [cdd_inv] is an [n] by [n] array. *)
Definition square_of (n : nat) (m : matrix) : Prop :=
  length m = n /\ Forall (fun row => length row = n) m.

Definition open_mask (n : list Q) (threshold : Q) : list bool :=
  map (branchesb threshold) n.

(** The number of branched dots. *)
Definition branch_count (n : list Q) (threshold : Q) : nat :=
  length (List.filter (branchesb threshold) n).

(** The integer rows behind [open_n_list], in generation order. *)
Definition open_rows (n : list Q) (threshold : Q) : list (list Z) :=
  map (spec_row n (open_mask n threshold))
      (product [np_floor; np_ceil] (branch_count n threshold)).

(** [m] at index [i] is a least entry of [qs] and the first such. *)
Definition first_min_at (qs : list Q) (i : nat) (m : Q) : Prop :=
  nth_error qs i = Some m /\
  (forall j q, nth_error qs j = Some q -> m <= q) /\
  (forall j q, (j < i)%nat -> nth_error qs j = Some q -> m < q).


Definition is_finite (x : npfloat) : Prop := exists q : Q, x = Fin q.

End CorrectorSpec.

(** ** Vocabulary of the statements about the entry points *)

Module HelperSpec.
Import Np Helper.
Local Open Scope string_scope.

(** [needle in hay] *)
Fixpoint contains (needle hay : string) : bool :=
  String.prefix needle hay ||
  match hay with
  | EmptyString => false
  | String _ hay' => contains needle hay'
  end.

(** [c.lower()] on an ASCII character. *)
Definition lower_ascii (c : ascii) : ascii :=
  let n := nat_of_ascii c in
  if ((65 <=? n) && (n <=? 90))%nat then ascii_of_nat (n + 32) else c.

(** [s.lower()] *)
Fixpoint lower (s : string) : string :=
  match s with
  | EmptyString => EmptyString
  | String c s' => String (lower_ascii c) (lower s')
  end.

(** The synonym groups of the specification, in lower case. *)
Definition synonyms (k : core_kind) : list string :=
  match k with
  | Rust => ["rust"; "r"]
  | Jax => ["jax"; "j"]
  | BruteForce => ["brute_force"; "jax_brute_force"; "b"]
  | Python => ["python"; "p"]
  end.

(** The spellings the [match] statements list for each solver. *)
Definition core_names (k : core_kind) : list string :=
  match k with
  | Rust => ["rust"; "Rust"; "RUST"; "r"]
  | Jax => ["jax"; "Jax"; "JAX"; "j"]
  | BruteForce =>
      ["brute_force"; "jax_brute_force"; "Jax_brute_force"; "JAX_BRUTE_FORCE"; "b"]
  | Python => ["python"; "Python"; "PYTHON"; "p"]
  end.

(** The text of the shape error for a given gate count. *)
Definition shape_error (n_gate : nat) : exn :=
  ValueError ("The shape of vg is in correct it should be of shape (..., n_gate) = (...,"
                ++ str_of_nat n_gate ++ ")").



(** The output shape of an entry point for a batch of shape [vg_shape]. *)
Definition nd_shape_of (vg_shape : list nat) (n_dot : nat) : list nat :=
  (removelast vg_shape ++ [n_dot])%list.

(** What follows the [match] statement in each entry point. *)
Definition finish_open (model : Model) (vg : ndarray) (r : VectorList) : result ndarray :=
  rbind (py_assert (forallb (fun x => (0 <=? astype_int x)%Z) (concat r))
           "The number of charges is negative something went wrong")
        (fun _ => reshape_result r (nd_shape_of (shape vg) (n_dot model))).

Definition finish_closed (model : Model) (vg : ndarray) (n_charge : Z) (r : VectorList)
  : result ndarray :=
  rbind (py_assert (forallb (fun row => isclose (qsum row) (inject_Z n_charge)) r)
           "The number of charges is not correct something went wrong")
        (fun _ => reshape_result r (nd_shape_of (shape vg) (n_dot model))).

(** The solvers a log mentions. *)
Definition solvers_of (log : list event) : list core_kind :=
  flat_map (fun e => match e with Solve k => [k] | Print _ => [] end) log.

End HelperSpec.

(** ** Vocabulary of the statements about the generator *)

Module GeneratorSpec.
Import Np.
Local Open Scope Z_scope.

(** The vectors the generator is meant to enumerate: component [i] is
    [floor (n_i)] or [floor (n_i) + 1]. *)
Definition floor_or_next (n : list Q) (v : list Z) : Prop :=
  Forall2 (fun vi ni => vi = np_floor ni \/ vi = np_floor ni + 1) v n.

Definition is_bit (b : Z) : Prop := In b [0; 1].

(** An integer of the 64-bit range. *)
Definition in_int64 (z : Z) : Prop := int64_min <= z <= int64_max.

(** Nothing overflows in the generator at [n]: the floors, the floors
    plus one, their sums and the number of dots are 64-bit integers. *)
Definition no_overflow (n : list Q) : Prop :=
  Forall (fun x => in_int64 (np_floor x) /\ in_int64 (np_floor x + 1)) n /\
  in_int64 (zsum (map np_floor n)) /\
  in_int64 (zsum (map (fun x => np_floor x + 1) n)) /\
  in_int64 (Z.of_nat (length n)).

(** [sum_eq] and the generator in unbounded integer arithmetic. *)
Definition sum_is (sum : Z) (array : list Z) : bool := zsum array =? sum.

Definition unbounded_configurations (n : list Q) (n_charge : Z)
  : result (list (list Z)) :=
  let floor_values := map np_floor n in
  if zsum floor_values >? n_charge then Ok []
  else if zsum (map (fun f => f + 1) floor_values) <? n_charge then Ok []
  else
    let combinations :=
      List.filter (sum_is (n_charge - zsum floor_values))
                  (product [0; 1] (length floor_values)) in
    rbind (np_stack combinations)
          (fun stacked => Ok (map (fun row => zadd_vec row floor_values) stacked)).

(** A tuple of bits with a prescribed number of ones. *)
Definition ones_then_zeros (d k : nat) : list Z :=
  repeat 1 d ++ repeat 0 (k - d).

End GeneratorSpec.

(** ** Vocabulary of the statements about the store *)

Module StoreSpec.
Import Np PyCore.

(** Every object of [h0] is still in [h], unchanged. *)
Definition frame (h0 h : gmap loc pyobj) : Prop :=
  forall l o, h0 !! l = Some o -> h !! l = Some o.

(** A computation that keeps the objects of [h0] and whose value, when
    it returns one, satisfies [post]. *)
Definition keeps {A : Type} (h0 : gmap loc pyobj) (m : Py A) (post : A -> Prop) : Prop :=
  forall h, frame h0 h ->
    frame h0 (snd (m h)) /\ (forall a, fst (m h) = Ok a -> post a).

Definition empty_argmin : exn :=
  ValueError "attempt to get argmin of an empty sequence".

(** The problem that [init_osqp_problem] sets up for a closed array, with
    linear term [q]. *)
Definition closed_problem (cdd_inv_a : matrix) (n_charge : Z) (q : list Q)
  : osqp_problem :=
  let dim := length cdd_inv_a in
  {| osqp_P := cdd_inv_a; osqp_q := q;
     osqp_A := repeat 1%Q dim :: eye dim;
     osqp_l := inject_Z n_charge :: repeat 0%Q dim;
     osqp_u := repeat (inject_Z n_charge) (dim + 1) |}.

(** The clipped answer of the QP solver for one voltage vector. *)
Definition relaxed_closed (osqp_solve : osqp_problem -> list Q)
  (cdd_inv_a cgd_a : matrix) (n_charge : Z) (v : list Q) : list Q :=
  np_clip (osqp_solve (closed_problem cdd_inv_a n_charge
                         (matvec (matmul (mneg cdd_inv_a) cgd_a) v)))
          0%Q (Some (inject_Z n_charge)).

(** The corrector applied to the relaxed solution of one voltage
    vector. *)
Definition closed_point (osqp_solve : osqp_problem -> list Q)
  (compute_charge_configuration_brute_force : Z -> nat -> list Z -> list (list Z))
  (cdd_inv_a cgd_a : matrix) (n_charge : Z) (threshold : Q) (v : list Q)
  : result (list npfloat) :=
  compute_argmin_closed compute_charge_configuration_brute_force
    (relaxed_closed osqp_solve cdd_inv_a cgd_a n_charge v) threshold cdd_inv_a
    (Some n_charge).

(** [map] in the error monad. *)
Fixpoint result_map {A C : Type} (f : A -> result C) (rows : list A) : result (list C) :=
  match rows with
  | [] => Ok []
  | v :: rows' =>
      rbind (f v) (fun n => rbind (result_map f rows') (fun ns => Ok (n :: ns)))
  end.

(** The store while the batch is solved: the two matrices are in place
    and [prob] is the closed problem with some linear term. *)
Definition solving (cgd cdd_inv prob : loc) (cgd_a cdd_inv_a : matrix) (n_charge : Z)
  (h : gmap loc pyobj) : Prop :=
  h !! cgd = Some (ObjArray cgd_a) /\
  h !! cdd_inv = Some (ObjArray cdd_inv_a) /\
  exists q, h !! prob = Some (ObjOSQP (closed_problem cdd_inv_a n_charge q)).

End StoreSpec.

(** ** Sample data for the examples *)

Module Samples.
Import Np Helper.
Local Open Scope string_scope.
Local Open Scope Q_scope.

(** A solver that puts one charge on the first of two dots. *)
Definition one_zero (vg : VectorList) : result VectorList :=
  Ok (map (fun _ => [1; 0]) vg).

Definition sample_backends : Backends := {|
  ground_state_open_rust := fun vg _ _ _ _ _ => one_zero vg;
  ground_state_open_jax := fun vg _ _ _ => one_zero vg;
  ground_state_open_brute_force := fun vg _ _ _ _ => one_zero vg;
  ground_state_open_python := fun vg _ _ _ _ => one_zero vg;
  ground_state_closed_rust := fun vg _ _ _ _ _ _ _ => one_zero vg;
  ground_state_closed_jax := fun vg _ _ _ _ _ => one_zero vg;
  ground_state_closed_brute_force := fun vg _ _ _ _ _ => one_zero vg;
  ground_state_closed_python := fun vg _ _ _ _ _ _ => one_zero vg
|}.



(** Two dots and three gates, as in the latching example. *)
Definition sample_model (core : string) : Model := {|
  n_gate := 3;
  n_dot := 2;
  core := core;
  cgd := [[1; 1 # 5; 1 # 20]; [1 # 5; 1; 1 # 20]];
  cdd := [[1; 0]; [0; 1]];
  cdd_inv := [[1; 0]; [0; 1]];
  threshold := 1;
  polish := true;
  T := 0;
  max_charge_carriers := Some 2%nat
|}.

(** A two-by-two sweep of three gate voltages. *)
Definition sample_vg : ndarray :=
  {| shape := [2; 2; 3]%nat; data := repeat 0 12 |}.

(** Batches whose trailing axis has two and four entries. *)
Definition short_vg : ndarray := {| shape := [5; 2]%nat; data := repeat 0 10 |}.
Definition long_vg : ndarray := {| shape := [5; 4]%nat; data := repeat 0 20 |}.

Definition identity2 : matrix := [[1; 0]; [0; 1]].

(** Five dots, the last two coupled. *)
Definition coupled5 : matrix :=
  [[1; 0; 0; 0; 0]; [0; 1; 0; 0; 0]; [0; 0; 1; 0; 0];
   [0; 0; 0; 1; 3 # 4]; [0; 0; 0; 3 # 4; 1]].

(** A generator that lists the floor-or-next vectors above the lower
    limits. *)
Definition sample_generator (n_charge : Z) (n_dot : nat) (lower_limits : list Z)
  : list (list Z) :=
  match ClosedGen.closed_charge_configurations (map inject_Z lower_limits) n_charge with
  | Ok confs => confs
  | Raise _ => []
  end.

(** A QP solver that gives up at the origin. *)
Definition sample_solver (p : PyCore.osqp_problem) : list Q :=
  repeat 0 (length (PyCore.osqp_P p)).

(** A store with a batch of two voltage vectors at location 0, [cgd] at
    1, [cdd] at 2 and [cdd_inv] at 3. *)
Definition sample_store : gmap PyCore.loc PyCore.pyobj :=
  <[0%nat := PyCore.ObjArray [[0; 0; 0]; [1; 0; 0]]]>
    (<[1%nat := PyCore.ObjArray [[1; 1 # 5; 1 # 20]; [1 # 5; 1; 1 # 20]]]>
       (<[2%nat := PyCore.ObjArray identity2]>
          (<[3%nat := PyCore.ObjArray identity2]> ∅))).


(** Five dots: three empty ones and two at five eighths. *)
Definition five_dots : list Q := [0; 0; 0; 5 # 8; 5 # 8].

End Samples.


(** ** Further vocabulary: the correctors on whole vectors *)

Module VectorSpec.
Import Np.
Local Open Scope Q_scope.

(** Every component of [c] is the floor or the ceiling of the matching
    component of [n]. *)
Definition floor_or_ceil (n : list Q) (c : list Z) : Prop :=
  Forall2 (fun x ci => ci = np_floor x \/ ci = np_ceil x) n c.

(** The rows of [closed_n_list] for a branch count [k]: the first [k]
    dots take the floor or the ceiling, the others are rounded. *)
Fixpoint prefix_candidate (k : nat) (n : list Q) (c : list Z) : Prop :=
  match n, c with
  | [], [] => True
  | x :: n', ci :: c' =>
      match k with
      | O => ci = np_rint x
      | S _ => ci = np_floor x \/ ci = np_ceil x
      end /\ prefix_candidate (Nat.pred k) n' c'
  | _, _ => False
  end.

(** The mask of the first [k] positions of a vector of length [len]. *)
Definition prefix_mask (k len : nat) : list bool :=
  map (fun a => a <? k)%nat (seq 0 len).

End VectorSpec.


(** ** Further vocabulary: the open batch solve and the QP constraints *)

Module BatchSpec.
Import Np PyCore StoreSpec.

(** The problem that [init_osqp_problem] sets up for an open array, with
    linear term [q]. *)
Definition open_problem (cdd_inv_a : matrix) (q : list Q) : osqp_problem :=
  let dim := length cdd_inv_a in
  {| osqp_P := cdd_inv_a; osqp_q := q;
     osqp_A := eye dim;
     osqp_l := repeat 0%Q dim;
     osqp_u := repeat 100%Q dim |}.

(** The clipped answer of the QP solver for one voltage vector of an
    open array. *)
Definition relaxed_open (osqp_solve : osqp_problem -> list Q)
  (cdd_inv_a cgd_a : matrix) (v : list Q) : list Q :=
  np_clip (osqp_solve (open_problem cdd_inv_a
                         (matvec (matmul (mneg cdd_inv_a) cgd_a) v)))
          0%Q None.

Definition open_point (osqp_solve : osqp_problem -> list Q)
  (cdd_inv_a cgd_a : matrix) (threshold : Q) (v : list Q) : result (list npfloat) :=
  compute_argmin_open (relaxed_open osqp_solve cdd_inv_a cgd_a v) threshold cdd_inv_a.

(** The store while an open batch is solved. *)
Definition solving_open (cgd cdd_inv prob : loc) (cgd_a cdd_inv_a : matrix)
  (h : gmap loc pyobj) : Prop :=
  h !! cgd = Some (ObjArray cgd_a) /\
  h !! cdd_inv = Some (ObjArray cdd_inv_a) /\
  exists q, h !! prob = Some (ObjOSQP (open_problem cdd_inv_a q)).

(** The rows the generator offers at the relaxed solution of [v]. *)
Definition offered (osqp_solve : osqp_problem -> list Q)
  (compute_charge_configuration_brute_force : Z -> nat -> list Z -> list (list Z))
  (cdd_inv_a cgd_a : matrix) (n_charge : Z) (v : list Q) : list (list Z) :=
  compute_charge_configuration_brute_force n_charge (length cdd_inv_a)
    (map np_floor (relaxed_closed osqp_solve cdd_inv_a cgd_a n_charge v)).

(** The shapes conform: there is a dot and a gate, [cdd_inv] is square,
    [cgd] has one row per dot, and the batch is not empty and its voltage
    vectors have one entry per column of [cgd]. *)
Definition conforming (vg_a cgd_a cdd_inv_a : matrix) : Prop :=
  (0 < length cdd_inv_a)%nat /\
  CorrectorSpec.square_of (length cdd_inv_a) cdd_inv_a /\
  length cgd_a = length cdd_inv_a /\
  (0 < ncols cgd_a)%nat /\
  Forall (fun row => length row = ncols cgd_a) cgd_a /\
  vg_a <> [] /\
  Forall (fun v => length v = ncols cgd_a) vg_a.

(** The answer of the QP solver has one entry per variable. *)
Definition answers_fit (osqp_solve : osqp_problem -> list Q) : Prop :=
  forall p, length (osqp_solve p) = length (osqp_P p).



End BatchSpec.


(** ** Further vocabulary: counting configurations *)

Module CountSpec.

(** The number of ways to pick [k] of [n] dots (Pascal's rule). *)
Fixpoint choose (n k : nat) : nat :=
  match n, k with
  | _, O => 1
  | O, S _ => 0
  | S n', S k' => choose n' k' + choose n' (S k')
  end.

End CountSpec.


(** ** The brute-force configuration generator of an open array
    ([brute_force_python/charge_configuration_generators/open_dot_configurations.py]) *)

Module OpenGen.
Import Np.
Local Open Scope result_scope.

(** All ways to pick one entry from each array, the first array's index
    varying slowest. *)
Fixpoint cartesian {A : Type} (xs : list (list A)) : list (list A) :=
  match xs with
  | [] => [[]]
  | x :: xs' => flat_map (fun a => map (cons a) (cartesian xs')) x
  end.

Definition swap_first_two {A : Type} (r : list A) : list A :=
  match r with
  | a :: b :: r' => b :: a :: r'
  | _ => r
  end.

(** [np.stack(np.meshgrid(...), axis=-1).reshape(count, len(args))], the
    grid taken over the arrays [args].
    With the default indexing ['xy'] the grid of the first array varies
    along axis 1 and the grid of the second along axis 0; the others vary
    along their own axis.  Row [(j0, j1, j2, ...)] of the reshaped stack is
    [(args[0][j1], args[1][j0], args[2][j2], ...)].  [np.stack] refuses the
    empty list that [np.meshgrid()] returns. *)
Definition meshgrid_rows {A : Type} (args : list (list A)) : result (list (list A)) :=
  match args with
  | [] => Raise (ValueError "need at least one array to stack")
  | _ => Ok (map swap_first_two (cartesian (swap_first_two args)))
  end.

(** [np.arange(0, stop)] *)
Definition arange (stop : nat) : list Z := map Z.of_nat (seq 0 stop).

(** The configurations hold integers (stored as floats in the source). *)
Definition open_change_configurations_brute_force_python (n_dot n_max : nat)
  : result (list (list Z)) :=
  let args := repeat (arange (n_max + 1)) n_dot in
  let number_of_configurations := ((n_max + 1) ^ n_dot)%nat in
  meshgrid_rows args.

End OpenGen.


(** ** The brute-force batch solve of a closed array
    ([jax_brute_force_core/closed.py]) *)

Module JaxBatch.
Import Np StoreSpec.

Section Batch.

Variable softmax : list npfloat -> list npfloat.

(** [open_change_configurations_brute_force_jax(n_dot, n_max)] is defined
    in the package [charge_configuration_generators] of the JAX core; the
    batch solve is parametrised by it, and by the answer of
    [jax.local_device_count()]. *)
Variable open_change_configurations_brute_force_jax : nat -> Z -> list (list Z).
Variable local_device_count : nat.


End Batch.

End JaxBatch.

(** ** Capacitance helpers: [functions.py] *)

Module Functions.
Import Np.
Local Open Scope string_scope.
Local Open Scope Q_scope.
Local Open Scope result_scope.

(** IEEE division of two finite floats under numpy's default error
    state: [0 / 0] is [nan] and any other division by zero an infinity. *)
Definition fdiv (a b : Q) : npfloat :=
  if Qeq_bool b 0 then
    match a ?= 0 with Eq => NaN | Gt => PInf | Lt => NInf end
  else Fin (a / b).

Definition np_abs (x : npfloat) : npfloat :=
  match x with
  | Fin a => Fin (Qabs a)
  | PInf | NInf => PInf
  | NaN => NaN
  end.

(** [np.maximum]: a [nan] operand wins. *)
Definition fmax (x y : npfloat) : npfloat :=
  if isnan x then x else if isnan y then y else if flt x y then y else x.

(** [a.max()] over all entries. *)
Definition np_max (l : list npfloat) : result npfloat :=
  match l with
  | [] => Raise (ValueError
                   "zero-size array to reduction operation maximum which has no identity")
  | x :: rest => Ok (fold_left fmax rest x)
  end.

(** [np.diag] of a square array, and of a vector. *)
Definition np_diag (m : matrix) : list Q :=
  map (fun i => nth i (nth i m []) 0) (seq 0 (length m)).

Definition np_diag_of (v : list Q) : matrix :=
  map (fun i => map (fun j => if Nat.eqb i j then nth i v 0 else 0) (seq 0 (length v)))
      (seq 0 (length v)).


Definition vqsub (u v : list Q) : list Q :=
  map (fun ab => fst ab - snd ab) (combine u v).

(** [a - b] on arrays of one shape. *)
Definition msub (a b : matrix) : matrix :=
  map (fun rows => vqsub (fst rows) (snd rows)) (combine a b).

(** [compute_threshold] on a square array [cdd]. *)
Definition compute_threshold (cdd : matrix) : result npfloat :=
  let cdd_diag := np_diag cdd in
  let c := map (fun row_d => map (fun a => fdiv a (snd row_d)) (fst row_d))
               (combine (msub cdd (np_diag_of cdd_diag)) cdd_diag) in
  do m <- np_max (map np_abs (concat c));
  Ok (fmul (Fin 2) m).

Section Maxwell.

(** [np.linalg.inv] and the array classes [Cdd], [CddInv] and [Cgd]. *)
Variable np_linalg_inv : matrix -> result matrix.
Variables Cdd CddInv Cgd : matrix -> result matrix.


End Maxwell.

End Functions.

(** Vocabulary for the capacitance helpers. *)
Module FunctionsSpec.
Import Np.
Local Open Scope Q_scope.

(** The entry in row [i] and column [j]. *)
Definition entry (m : matrix) (i j : nat) : Q := nth j (nth i m []) 0.

(** The array with [rows] rows and [cols] columns whose entries are given
    by [F]. *)
Definition tabulate {A : Type} (rows cols : nat) (F : nat -> nat -> A) : list (list A) :=
  map (fun i => map (fun j => F i j) (seq 0 cols)) (seq 0 rows).



End FunctionsSpec.

(** ** Changes of the dot occupation: [functions.py] *)

Module Changes.
Import Np.
Local Open Scope Q_scope.
Local Open Scope result_scope.

(** An array of occupation vectors over a two-dimensional sweep. *)
Definition array3 : Type := list (list (list Q)).

(** The argument is a [Tetrad] already, or a plain array. *)
Inductive occupation : Type :=
| TetradOf (a : array3)
| Plain (a : array3).

(** [np.isclose(a, b, atol=atol)] with the default [rtol=1e-05]. *)
Definition isclose_atol (atol a b : Q) : bool :=
  Qle_bool (Qabs (a - b)) (atol + (1 # 100000) * Qabs b).

Definition zip_with {A B C : Type} (f : A -> B -> C) (u : list A) (v : list B) : list C :=
  map (fun ab => f (fst ab) (snd ab)) (combine u v).

(** [np.logical_not(np.isclose(a, b, atol=1e-3)).any(axis=-1)] on one
    pair of occupation vectors. *)
Definition any_change (a b : list Q) : bool :=
  existsb (fun c => c) (zip_with (fun x y => negb (isclose_atol (1 # 1000) x y)) a b).

Section WithTetrad.

(** The array class [Tetrad]. *)
Variable Tetrad : array3 -> result array3.

Definition as_tetrad (n : occupation) : result array3 :=
  match n with
  | TetradOf a => Ok a
  | Plain a => Tetrad a
  end.

(** [n[1:, :-1]] is [map removelast (tl n)], [n[:-1, :-1]] is
    [map removelast (removelast n)] and [n[:-1, 1:]] is
    [map tl (removelast n)]. *)
Definition dot_occupation_changes (n : occupation) : result (list (list bool)) :=
  do n <- as_tetrad n;
  let change_in_x :=
    zip_with (zip_with any_change)
      (map (@removelast (list Q)) (tl n))
      (map (@removelast (list Q)) (removelast n)) in
  let change_in_y :=
    zip_with (zip_with any_change)
      (map (@tl (list Q)) (removelast n))
      (map (@removelast (list Q)) (removelast n)) in
  Ok (zip_with (zip_with orb) change_in_x change_in_y).

End WithTetrad.

End Changes.

(** Vocabulary for the changes of the dot occupation. *)
Module ChangesSpec.
Import Np Changes.
Local Open Scope Q_scope.

(** The occupation of dot [d] at the point [(i, j)] of the sweep. *)
Definition cell (n : array3) (i j d : nat) : Q :=
  nth d (nth j (nth i n []) []) 0.

(** [a] is further from [b] than the tolerance of the comparison. *)
Definition far (a b : Q) : Prop :=
  (1 # 1000) + (1 # 100000) * Qabs b < Qabs (a - b).

(** An array of shape [(nx, ny, nd)]. *)
Definition shaped (nx ny nd : nat) (n : array3) : Prop :=
  length n = nx /\
  Forall (fun row => length row = ny /\ Forall (fun v => length v = nd) row) n.

(** Every occupation is an integer of size at most [99899]. *)
Definition small_integers (n : array3) : Prop :=
  Forall (Forall (Forall (fun x => exists z : Z,
                            x = inject_Z z /\ (Z.abs z <= 99899)%Z))) n.

End ChangesSpec.

(** ** Further samples *)

Module MoreSamples.
Import Np Helper.
Local Open Scope string_scope.
Local Open Scope Q_scope.

(** A brute-force model without a bound on the charge carriers. *)
Definition unbounded_model : Model := {|
  n_gate := 3;
  n_dot := 2;
  core := "brute_force";
  cgd := [[1; 1 # 5; 1 # 20]; [1 # 5; 1; 1 # 20]];
  cdd := [[1; 0]; [0; 1]];
  cdd_inv := [[1; 0]; [0; 1]];
  threshold := 1;
  polish := true;
  T := 0;
  max_charge_carriers := None
|}.

Definition zero_diagonal2 : matrix := [[0; 1]; [1; 1]].



(** A two-by-two sweep over two dots: the occupation changes between the
    first and the second row. *)
Definition sample_sweep : Changes.array3 :=
  [[[0; 0]; [0; 0]]; [[1; 0]; [1; 0]]].

Definition accept_tetrad (n : Changes.array3) : result Changes.array3 := Ok n.


End MoreSamples.

(** ** The open-mode corrector in binary64 arithmetic

    The correctors above compute with exact rationals.  The modules below
    render the float operations of [compute_argmin_open] bit for bit:
    numbers are the binary64 numbers of IEEE 754 and every operation
    rounds to nearest, ties to even. *)

Module Float64.

Definition prec : Z := 53.
Definition emax : Z := 1024.

(** A binary64 number: a signed zero, an infinity, [nan], or
    [(-1)^s * m * 2^e]. *)
Definition float64 : Type := spec_float.


Definition is_finite (x : float64) : bool :=
  match x with
  | S754_zero _ | S754_finite _ _ _ => true
  | _ => false
  end.

Definition fsub (x y : float64) : float64 := SFsub prec emax x y.
Definition fdiv (x y : float64) : float64 := SFdiv prec emax x y.
Definition fadd (x y : float64) : float64 := SFadd prec emax x y.
Definition fmul (x y : float64) : float64 := SFmul prec emax x y.
Definition np_abs (x : float64) : float64 := SFabs x.
Definition fltb (x y : float64) : bool := SFltb x y.

(** The literals [0.5], [2.] and [1.]. *)
Definition half : float64 := S754_finite false 4503599627370496 (-53).
Definition two : float64 := S754_finite false 4503599627370496 (-51).

(** The rational a finite number denotes. *)
Definition exact (x : float64) : Q :=
  match x with
  | S754_finite s m (Zneg k) => cond_Zopp s (Zpos m) # (2 ^ k)
  | S754_finite s m e => inject_Z (cond_Zopp s (Zpos m) * 2 ^ e)
  | _ => 0%Q
  end.

(** The integer [z] as a binary64 number; a zero takes the sign [s]. *)
Definition of_integer (s : bool) (z : Z) : float64 := binary_normalize prec emax z 0 s.

(** [np.floor], [np.ceil] and [np.rint] on one number: a number without
    fractional bits, an infinity or [nan] is returned as it is; otherwise
    the integer is taken of the exact value, and a zero result keeps the
    sign of the argument. *)
Definition integer_part (f : Q -> Z) (x : float64) : float64 :=
  match x with
  | S754_finite s m (Zneg k) => of_integer s (f (exact x))
  | _ => x
  end.

Definition np_floor : float64 -> float64 := integer_part Np.np_floor.
Definition np_ceil : float64 -> float64 := integer_part Np.np_ceil.
Definition np_rint : float64 -> float64 := integer_part Np.np_rint.

(** The number as a value that [np.argmin] compares. *)
Definition to_npfloat (x : float64) : Np.npfloat :=
  match x with
  | S754_nan => Np.NaN
  | S754_infinity s => if s then Np.NInf else Np.PInf
  | _ => Np.Fin (exact x)
  end.

(** [a - b] on two vectors of one length. *)
Definition vsub (u v : list float64) : list float64 :=
  map (fun ab => fsub (fst ab) (snd ab)) (combine u v).

End Float64.

Module PyCoreFloat64.
Import Np Float64.
Local Open Scope result_scope.

(** The two loops that fill row [i] of [n_list]. *)
Definition fill_row (n_continuous : list float64) (floor_ceil_args round_args : list nat)
  (ops : list (float64 -> float64)) (row : list float64) : list float64 :=
  let row :=
    fold_left (fun (r : list float64) (jo : nat * (float64 -> float64)) =>
                 <[fst jo := snd jo (nth (fst jo) n_continuous S754_nan)]> r)
              (combine floor_ceil_args ops) row in
  fold_left (fun (r : list float64) (j : nat) =>
               <[j := Float64.np_rint (nth j n_continuous S754_nan)]> r)
            round_args row.

(** [n_list]: one row per tuple of [product([np.floor, np.ceil], ...)],
    each starting as a row of [nan]. *)
Definition build_n_list (n_continuous : list float64) (floor_ceil_args round_args : list nat)
  : list (list float64) :=
  map (fun ops => fill_row n_continuous floor_ceil_args round_args ops
                    (repeat S754_nan (length n_continuous)))
      (product [Float64.np_floor; Float64.np_ceil] (length floor_ceil_args)).

(** [n_remainder = n_continuous - np.floor(n_continuous)] *)
Definition remainders (n_continuous : list float64) : list float64 :=
  map (fun x => Float64.fsub x (Float64.np_floor x)) n_continuous.

(** [np.argwhere(np.abs(n_remainder - 0.5) < threshold / 2.)] *)
Definition open_floor_ceil_args (n_continuous : list float64) (threshold : float64)
  : list nat :=
  argwhere (map (fun r => fltb (Float64.np_abs (Float64.fsub r half))
                               (Float64.fdiv threshold two))
                (remainders n_continuous)).

Definition round_args_of (n_continuous : list float64) (floor_ceil_args : list nat)
  : list nat :=
  let args := seq 0 (length n_continuous) in
  List.filter (fun a => negb (isin a floor_ceil_args)) args.

Definition open_n_list (n_continuous : list float64) (threshold : float64)
  : list (list float64) :=
  let floor_ceil_args := open_floor_ceil_args n_continuous threshold in
  let round_args := round_args_of n_continuous floor_ceil_args in
  build_n_list n_continuous floor_ceil_args round_args.

(** [n_list - n_continuous]: the vector is subtracted from every row. *)
Definition differences (n_list : list (list float64)) (n_continuous : list float64)
  : list (list float64) :=
  map (fun row => Float64.vsub row n_continuous) n_list.

Section Einsum.

(** [np.einsum('...i, ij, ...j', a, m, b)], a library function: numpy
    does not fix the order in which it adds the products, so the rounding
    of a score is left to it.  It raises when the shapes do not fit. *)
Variable np_einsum :
  list (list float64) -> list (list float64) -> list (list float64) -> result (list float64).

Definition compute_argmin_open (n_continuous : list float64) (threshold : float64)
  (cdd_inv : list (list float64)) : result (list float64) :=
  let n_list := open_n_list n_continuous threshold in
  do F <- np_einsum (differences n_list n_continuous) cdd_inv
                    (differences n_list n_continuous);
  do i <- np_argmin (map to_npfloat F);
  getitem n_list i.

End Einsum.

End PyCoreFloat64.

(** Vocabulary for the corrector in binary64 arithmetic. *)
Module CorrectorSpecFloat64.
Import Np Float64.

(** The test of [compute_argmin_open] on one dot, as the float
    operations evaluate it. *)
Definition branches_computed (threshold x : float64) : bool :=
  fltb (Float64.np_abs (Float64.fsub (Float64.fsub x (Float64.np_floor x)) half))
       (Float64.fdiv threshold two).

(** A row in which every dot that passes the computed test holds the
    floor or the ceiling of its occupation and every other dot the
    rounded occupation. *)
Definition open_candidate (n : list float64) (threshold : float64) (c : list float64)
  : Prop :=
  Forall2 (fun x ci =>
             (branches_computed threshold x = true ->
              ci = Float64.np_floor x \/ ci = Float64.np_ceil x) /\
             (branches_computed threshold x = false -> ci = Float64.np_rint x)) n c.

Fixpoint spec_row (n : list float64) (mask : list bool) (ops : list (float64 -> float64))
  : list float64 :=
  match n, mask with
  | x :: n', true :: mask' =>
      match ops with
      | op :: ops' => op x :: spec_row n' mask' ops'
      | [] => []
      end
  | x :: n', false :: mask' => Float64.np_rint x :: spec_row n' mask' ops
  | _, _ => []
  end.

Definition open_mask (n : list float64) (threshold : float64) : list bool :=
  map (branches_computed threshold) n.

(** The number of dots that pass the computed test. *)
Definition branch_count (n : list float64) (threshold : float64) : nat :=
  length (List.filter (branches_computed threshold) n).

(** The candidate rows in generation order. *)
Definition open_rows (n : list float64) (threshold : float64) : list (list float64) :=
  map (spec_row n (open_mask n threshold))
      (product [Float64.np_floor; Float64.np_ceil] (branch_count n threshold)).





End CorrectorSpecFloat64.

(* ===================================================================== *)
(** * Part II: properties                                                 *)
(* ===================================================================== *)

(** ** Facts on [itertools.product] and integer sums *)

Section ProductFacts.
Import Np.
Context {A : Type}.

Lemma flat_map_length_const {B : Type} (f : A -> list B) (l : list A) (m : nat) :
  (forall x, In x l -> length (f x) = m) ->
  length (flat_map f l) = (length l * m)%nat.
Proof.
  induction l as [|a l IH]; intros Hf; [reflexivity|].
  cbn [flat_map length]. rewrite length_app, IH, (Hf a).
  - reflexivity.
  - now left.
  - intros x Hx. apply Hf. now right.
Qed.

Lemma product_length (choices : list A) (k : nat) :
  length (product choices k) = (length choices ^ k)%nat.
Proof.
  induction k as [|k IH]; [reflexivity|].
  cbn [product Nat.pow].
  apply flat_map_length_const. intros x _. now rewrite length_map.
Qed.

Lemma in_product (choices : list A) (k : nat) (t : list A) :
  In t (product choices k) <-> length t = k /\ Forall (fun x => In x choices) t.
Proof.
  revert t. induction k as [|k IH]; intros t; cbn [product].
  - split.
    + intros [<-|[]]. split; [reflexivity|constructor].
    + intros [Hl _]. destruct t; [now left|discriminate].
  - rewrite in_flat_map. split.
    + intros (x & Hx & Ht). apply in_map_iff in Ht as (t' & <- & Ht').
      apply IH in Ht' as [Hl Hall]. split; [cbn; now rewrite Hl|].
      now constructor.
    + intros [Hl Hall]. destruct t as [|x t']; [discriminate|].
      inversion Hall as [|? ? Hx Hall']; subst.
      exists x. split; [assumption|]. apply in_map. apply IH.
      split; [now inversion Hl|assumption].
Qed.

Lemma cons_all_NoDup (heads : list A) (tails : list (list A)) :
  List.NoDup heads -> List.NoDup tails ->
  List.NoDup (flat_map (fun x => map (cons x) tails) heads).
Proof.
  intros Hh Ht. induction Hh as [|c cs Hc Hcs IHcs]; cbn [flat_map]; [constructor|].
  apply List.NoDup_app.
  - apply Finite.Injective_map_NoDup; [|assumption].
    intros u v Huv. now inversion Huv.
  - exact IHcs.
  - intros t Hin Hin'. apply in_map_iff in Hin as (t1 & <- & _).
    apply in_flat_map in Hin' as (c' & Hc' & Hin').
    apply in_map_iff in Hin' as (t2 & Heq & _).
    inversion Heq; subst. contradiction.
Qed.

Lemma product_NoDup (choices : list A) (k : nat) :
  List.NoDup choices -> List.NoDup (product choices k).
Proof.
  intros Hnd. induction k as [|k IH]; cbn [product].
  - constructor; [intros []|constructor].
  - now apply cons_all_NoDup.
Qed.

End ProductFacts.

(** ** The closed-array configuration generator *)

Section ClosedGenFacts.
Import Np ClosedGen GeneratorSpec.
Local Open Scope Z_scope.

Lemma zsum_app (u v : list Z) : zsum (u ++ v) = zsum u + zsum v.
Proof. unfold zsum. induction u as [|a u IH]; cbn [fold_right app] in *; lia. Qed.

Lemma zsum_succ (fl : list Z) :
  zsum (map (fun f => f + 1) fl) = zsum fl + Z.of_nat (length fl).
Proof.
  induction fl as [|a fl IH]; [reflexivity|].
  unfold zsum in *. cbn [map fold_right length] in *. lia.
Qed.

Lemma zsum_zadd_vec (row fl : list Z) :
  length row = length fl -> zsum (zadd_vec row fl) = zsum row + zsum fl.
Proof.
  revert fl. induction row as [|a row IH]; intros [|b fl] Hl; try discriminate.
  - reflexivity.
  - injection Hl as Hl. specialize (IH fl Hl).
    unfold zsum in *. cbn [zadd_vec fold_right] in *. lia.
Qed.

Lemma zadd_vec_inj (r1 r2 fl : list Z) :
  length r1 = length fl -> length r2 = length fl ->
  zadd_vec r1 fl = zadd_vec r2 fl -> r1 = r2.
Proof.
  revert r1 r2. induction fl as [|b fl IH]; intros [|a1 r1] [|a2 r2] H1 H2 He;
    try discriminate; [reflexivity|].
  cbn [zadd_vec] in He. injection He as Ha Hr.
  injection H1 as H1. injection H2 as H2.
  f_equal; [lia|now apply IH].
Qed.

Lemma bits_sum_bounds (row : list Z) :
  Forall is_bit row -> 0 <= zsum row <= Z.of_nat (length row).
Proof.
  unfold zsum. induction 1 as [|b row Hb _ IH]; cbn [fold_right length] in *; [lia|].
  destruct Hb as [<-|[<-|[]]]; lia.
Qed.

Lemma ones_then_zeros_spec (d k : nat) :
  (d <= k)%nat ->
  length (ones_then_zeros d k) = k /\
  Forall is_bit (ones_then_zeros d k) /\
  zsum (ones_then_zeros d k) = Z.of_nat d.
Proof.
  intros Hd. unfold ones_then_zeros. repeat split.
  - rewrite length_app, !repeat_length. lia.
  - apply List.Forall_app. split; apply List.Forall_forall; intros x Hx;
      apply repeat_spec in Hx; subst; unfold is_bit; cbn; auto.
  - rewrite zsum_app.
    assert (H1 : forall m, zsum (repeat 1 m) = Z.of_nat m).
    { unfold zsum. induction m as [|m IH]; [reflexivity|].
      cbn [repeat fold_right] in *. lia. }
    assert (H0 : forall m, zsum (repeat 0 m) = 0).
    { unfold zsum. induction m as [|m IH]; [reflexivity|].
      cbn [repeat fold_right] in *. lia. }
    rewrite H1, H0. lia.
Qed.

(** Adding the floors to a tuple of bits gives a floor-or-next vector,
    and every such vector arises this way. *)
Lemma floor_or_next_zadd (n : list Q) (row : list Z) :
  length row = length n -> Forall is_bit row ->
  floor_or_next n (zadd_vec row (map np_floor n)).
Proof.
  revert row. induction n as [|x n IH]; intros [|b row] Hl Hb; try discriminate.
  - constructor.
  - cbn [map zadd_vec]. inversion Hb as [|? ? Hb1 Hb2]; subst.
    constructor; [|apply IH; [now injection Hl|assumption]].
    destruct Hb1 as [<-|[<-|[]]]; [left|right]; lia.
Qed.

Lemma floor_or_next_bits (n : list Q) (v : list Z) :
  floor_or_next n v ->
  exists row, length row = length n /\ Forall is_bit row /\
              v = zadd_vec row (map np_floor n).
Proof.
  induction 1 as [|vi ni v n Hi _ (row & Hl & Hb & ->)].
  - exists []. repeat split. constructor.
  - exists ((vi - np_floor ni) :: row). cbn [length map zadd_vec].
    repeat split.
    + now rewrite Hl.
    + constructor; [|assumption]. unfold is_bit.
      destruct Hi as [->| ->]; cbn; [left|right; left]; lia.
    + f_equal. lia.
Qed.

(** In unbounded arithmetic the generator returns, without repetition,
    exactly the vectors of floors and floors plus one whose sum is
    [n_charge]. *)
Lemma unbounded_configurations_exact (n : list Q) (n_charge : Z) :
  exists confs : list (list Z),
    unbounded_configurations n n_charge = Ok confs /\
    List.NoDup confs /\
    (forall v, In v confs <-> floor_or_next n v /\ zsum v = n_charge) /\
    (~ (zsum (map np_floor n) <= n_charge
        <= zsum (map (fun x => np_floor x + 1) n)) -> confs = []).
Proof.
  unfold unbounded_configurations.
  set (fl := map np_floor n).
  assert (Hfl : length fl = length n) by apply length_map.
  assert (Hsucc : zsum (map (fun x => np_floor x + 1) n)
                  = zsum fl + Z.of_nat (length n)).
  { unfold fl. rewrite <- (length_map np_floor n), <- zsum_succ, map_map. reflexivity. }
  assert (Hsucc' : zsum (map (fun f => f + 1) fl) = zsum fl + Z.of_nat (length n)).
  { rewrite zsum_succ, Hfl. reflexivity. }
  assert (Hout : forall v, floor_or_next n v -> zsum v = n_charge ->
                           zsum fl <= n_charge <= zsum fl + Z.of_nat (length n)).
  { intros v Hv Hs. apply floor_or_next_bits in Hv as (row & Hl & Hb & ->).
    rewrite zsum_zadd_vec in Hs by (fold fl; lia).
    pose proof (bits_sum_bounds row Hb) as Hbd. fold fl in Hs. lia. }
  destruct (zsum fl >? n_charge) eqn:Hgt.
  { exists []. apply Z.gtb_lt in Hgt.
    split; [reflexivity|]. split; [constructor|]. split; [|reflexivity].
    intros v. split; [intros []|].
    intros [Hv Hs]. specialize (Hout v Hv Hs). lia. }
  rewrite Hsucc'.
  destruct (zsum fl + Z.of_nat (length n) <? n_charge) eqn:Hlt.
  { exists []. apply Z.ltb_lt in Hlt.
    split; [reflexivity|]. split; [constructor|]. split; [|reflexivity].
    intros v. split; [intros []|].
    intros [Hv Hs]. specialize (Hout v Hv Hs). lia. }
  assert (Hge : zsum fl <= n_charge).
  { destruct (Z.gtb_spec (zsum fl) n_charge); [discriminate|lia]. }
  apply Z.ltb_ge in Hlt.
  set (combos := List.filter (sum_is (n_charge - zsum fl)) (product [0; 1] (length fl))).
  assert (Hcombo : forall row, In row combos <->
            length row = length n /\ Forall is_bit row /\
            zsum row = n_charge - zsum fl).
  { intros row. unfold combos. rewrite filter_In, in_product, Hfl.
    unfold sum_is. rewrite Z.eqb_eq. unfold is_bit. tauto. }
  assert (Hnd : List.NoDup combos).
  { apply List.NoDup_filter, product_NoDup.
    constructor; [cbn; intros [H|[]]; discriminate|].
    constructor; [intros []|constructor]. }
  assert (Hne : combos <> []).
  { set (d := Z.to_nat (n_charge - zsum fl)).
    destruct (ones_then_zeros_spec d (length n)) as (H1 & H2 & H3); [unfold d; lia|].
    intros Hnil.
    assert (Hin : In (ones_then_zeros d (length n)) combos).
    { apply Hcombo. repeat split; try assumption. rewrite H3. unfold d. lia. }
    rewrite Hnil in Hin. destruct Hin. }
  clearbody combos.
  exists (map (fun row => zadd_vec row fl) combos).
  split; [destruct combos; [contradiction|reflexivity]|].
  split; [|split].
  - apply Finite.Injective_map_NoDup_in; [|assumption].
    intros r1 r2 H1 H2 Heq.
    apply (zadd_vec_inj r1 r2 fl); [| |assumption];
      rewrite Hfl; now apply Hcombo.
  - intros v. rewrite in_map_iff. split.
    + intros (row & <- & Hrow). apply Hcombo in Hrow as (Hl & Hb & Hs).
      split; [now apply floor_or_next_zadd|].
      rewrite zsum_zadd_vec by lia. lia.
    + intros [Hv Hs]. apply floor_or_next_bits in Hv as (row & Hl & Hb & ->).
      exists row. split; [reflexivity|]. apply Hcombo.
      rewrite zsum_zadd_vec in Hs by (fold fl; lia). fold fl in Hs.
      repeat split; [assumption|assumption|lia].
  - intros Hnot. exfalso. apply Hnot. fold fl. rewrite Hsucc. lia.
Qed.

Lemma wrap64_in_range (z : Z) : in_int64 z -> wrap64 z = z.
Proof.
  unfold in_int64, int64_min, int64_max, wrap64. intros H.
  rewrite Z.mod_small by lia. lia.
Qed.

Lemma to_int64_in_range (z : Z) : in_int64 z -> to_int64 z = z.
Proof.
  unfold in_int64, to_int64. intros [H1 H2].
  apply Z.leb_le in H1, H2. now rewrite H1, H2.
Qed.

Lemma bits_in_range (fl row : list Z) :
  Forall (fun f => in_int64 f /\ in_int64 (f + 1)) fl ->
  length row = length fl -> Forall is_bit row ->
  map wrap64 (zadd_vec row fl) = zadd_vec row fl.
Proof.
  intros Hfl. revert row. induction Hfl as [|f fl [Hf Hf1] _ IH]; intros [|b row] Hl Hb;
    try discriminate; [reflexivity|].
  inversion Hb as [|? ? Hb0 Hb']; subst. injection Hl as Hl.
  cbn [zadd_vec map]. rewrite (IH row Hl Hb'). f_equal.
  apply wrap64_in_range.
  destruct Hb0 as [<-|[<-|[]]]; [now rewrite Z.add_0_l|now rewrite Z.add_comm].
Qed.

(** Without overflow the generator computes what it computes in
    unbounded arithmetic. *)
Lemma closed_charge_configurations_in_range (n : list Q) (n_charge : Z) :
  no_overflow n ->
  closed_charge_configurations n n_charge = unbounded_configurations n n_charge.
Proof.
  intros (Hall & Hs & Hs1 & Hlen).
  unfold closed_charge_configurations, unbounded_configurations.
  assert (Hfl : map (fun x => to_int64 (np_floor x)) n = map np_floor n).
  { apply map_ext_in. intros x Hx. apply to_int64_in_range.
    rewrite List.Forall_forall in Hall. now apply Hall. }
  rewrite Hfl. set (fl := map np_floor n) in *.
  assert (Hlfl : length fl = length n) by apply length_map.
  assert (Hfl1 : map (fun f => wrap64 (f + 1)) fl = map (fun f => f + 1) fl).
  { unfold fl. rewrite !map_map. apply map_ext_in. intros x Hx.
    apply wrap64_in_range. rewrite List.Forall_forall in Hall. now apply Hall. }
  assert (Hsucc : zsum (map (fun f => f + 1) fl)
                  = zsum (map (fun x => np_floor x + 1) n)).
  { unfold fl. now rewrite map_map. }
  rewrite Hfl1. unfold sum64. rewrite (wrap64_in_range _ Hs).
  rewrite Hsucc, (wrap64_in_range _ Hs1), <- Hsucc.
  destruct (zsum fl >? n_charge) eqn:Hgt; [reflexivity|].
  destruct (zsum (map (fun f => f + 1) fl) <? n_charge) eqn:Hlt; [reflexivity|].
  assert (Hge : zsum fl <= n_charge).
  { destruct (Z.gtb_spec (zsum fl) n_charge); [discriminate|lia]. }
  apply Z.ltb_ge in Hlt. rewrite zsum_succ, Hlfl in Hlt.
  assert (Hd : wrap64 (n_charge - zsum fl) = n_charge - zsum fl).
  { apply wrap64_in_range. unfold in_int64, int64_min, int64_max in *. lia. }
  rewrite Hd.
  assert (Hfilter : List.filter (sum_eq (n_charge - zsum fl)) (product [0; 1] (length fl))
                    = List.filter (sum_is (n_charge - zsum fl))
                                  (product [0; 1] (length fl))).
  { apply List.filter_ext_in. intros row Hrow. unfold sum_eq, sum_is, sum64.
    f_equal. apply wrap64_in_range.
    apply in_product in Hrow as [Hl Hb].
    pose proof (bits_sum_bounds row Hb) as Hbd.
    unfold in_int64, int64_min, int64_max in *. lia. }
  rewrite Hfilter.
  destruct (np_stack _) as [stacked|e] eqn:Hstack; [|reflexivity].
  cbn [rbind]. f_equal. apply map_ext_in. intros row Hrow.
  assert (Hin : In row (List.filter (sum_is (n_charge - zsum fl))
                                    (product [0; 1] (length fl)))).
  { assert (E : stacked = List.filter (sum_is (n_charge - zsum fl))
                                      (product [0; 1] (length fl))).
    { revert Hstack. generalize (List.filter (sum_is (n_charge - zsum fl))
                                             (product [0; 1] (length fl))).
      intros [|c cs] H; [discriminate H|]. now injection H. }
    now rewrite <- E. }
  apply filter_In in Hin as [Hin _]. apply in_product in Hin as [Hl Hb].
  apply bits_in_range; [|exact Hl|exact Hb].
  unfold fl. apply Forall_map. exact Hall.
Qed.

(** C4 (amended): for every continuous vector [n] without overflow in
    64-bit integers and every 64-bit integer [n_charge] the generator
    returns normally; the rows it returns are pairwise distinct and are
    exactly the integer vectors whose [i]-th component is [floor (n_i)]
    or [floor (n_i) + 1] and whose sum is [n_charge]; when [n_charge] is
    outside [[sum (floor n), sum (floor n + 1)]] the returned sequence is
    empty. *)
Theorem closed_charge_configurations_exact (n : list Q) (n_charge : Z) :
  no_overflow n -> in_int64 n_charge ->
  exists confs : list (list Z),
    closed_charge_configurations n n_charge = Ok confs /\
    List.NoDup confs /\
    (forall v, In v confs <-> floor_or_next n v /\ zsum v = n_charge) /\
    (~ (zsum (map np_floor n) <= n_charge
        <= zsum (map (fun x => np_floor x + 1) n)) -> confs = []).
Proof.
  intros Hno _. rewrite (closed_charge_configurations_in_range n n_charge Hno).
  apply unbounded_configurations_exact.
Qed.

End ClosedGenFacts.

(** ** The row-filling loops of the correctors *)

Section FillRow.
Import Np PyCore CorrectorSpec.

Lemma filter_map_comm {A B : Type} (f : B -> bool) (g : A -> B) (l : list A) :
  List.filter f (map g l) = map g (List.filter (fun a => f (g a)) l).
Proof.
  induction l as [|a l IH]; [reflexivity|].
  cbn [map List.filter]. destruct (f (g a)); cbn [map]; now rewrite IH.
Qed.

Lemma argwhere_cons (b : bool) (mask : list bool) :
  argwhere (b :: mask) = (if b then [O] else []) ++ map S (argwhere mask).
Proof.
  unfold argwhere. cbn [length seq List.filter]. rewrite <- seq_shift.
  rewrite filter_map_comm. cbn [nth].
  now destruct b.
Qed.

Lemma isin_S_map (a : nat) (l : list nat) : isin (S a) (map S l) = isin a l.
Proof.
  unfold isin. induction l as [|b l IH]; [reflexivity|].
  cbn [map existsb]. now rewrite IH.
Qed.

Lemma isin_0_map (l : list nat) : isin 0 (map S l) = false.
Proof. unfold isin. induction l as [|b l IH]; [reflexivity|]. cbn. exact IH. Qed.

Lemma isin_S_shift (a : nat) (b : bool) (fca : list nat) :
  isin (S a) ((if b then [O] else []) ++ map S fca) = isin a fca.
Proof.
  destruct b; cbn [app]; [|apply isin_S_map].
  unfold isin. cbn [existsb Nat.eqb orb]. apply isin_S_map.
Qed.

Lemma round_args_of_cons (x : Q) (n : list Q) (b : bool) (fca : list nat) :
  round_args_of (x :: n) ((if b then [O] else []) ++ map S fca)
  = (if b then [] else [O]) ++ map S (round_args_of n fca).
Proof.
  unfold round_args_of. cbn [length seq List.filter]. rewrite <- seq_shift.
  rewrite filter_map_comm.
  rewrite (List.filter_ext _ (fun a => negb (isin a fca)))
    by (intros a; now rewrite isin_S_shift).
  destruct b; cbn [app]; [reflexivity|].
  now rewrite isin_0_map.
Qed.

Lemma floor_ceil_loop_shift (js : list nat) (ops : list (Q -> Z)) (x : Q) (n : list Q)
  (a : npfloat) (r : list npfloat) :
  fold_left (fun (r : list npfloat) (jo : nat * (Q -> Z)) =>
               <[fst jo := of_int (snd jo (nth (fst jo) (x :: n) 0%Q))]> r)
            (combine (map S js) ops) (a :: r)
  = a :: fold_left (fun (r : list npfloat) (jo : nat * (Q -> Z)) =>
                      <[fst jo := of_int (snd jo (nth (fst jo) n 0%Q))]> r)
                   (combine js ops) r.
Proof.
  revert ops r. induction js as [|j js IH]; intros ops r; [reflexivity|].
  destruct ops as [|op ops]; [reflexivity|].
  cbn [map combine fold_left fst snd nth]. apply IH.
Qed.

Lemma round_loop_shift (js : list nat) (x : Q) (n : list Q)
  (a : npfloat) (r : list npfloat) :
  fold_left (fun (r : list npfloat) (j : nat) =>
               <[j := of_int (np_rint (nth j (x :: n) 0%Q))]> r)
            (map S js) (a :: r)
  = a :: fold_left (fun (r : list npfloat) (j : nat) =>
                      <[j := of_int (np_rint (nth j n 0%Q))]> r) js r.
Proof.
  revert r. induction js as [|j js IH]; intros r; [reflexivity|].
  cbn [map fold_left nth]. apply IH.
Qed.

Lemma fill_row_branched (x : Q) (n : list Q) (fca ra : list nat)
  (op : Q -> Z) (ops : list (Q -> Z)) (a : npfloat) (r : list npfloat) :
  fill_row (x :: n) (O :: map S fca) (map S ra) (op :: ops) (a :: r)
  = of_int (op x) :: fill_row n fca ra ops r.
Proof.
  unfold fill_row. cbn [combine fold_left].
  match goal with
  | |- context [fold_left ?f (combine (map S fca) ops) ?acc] =>
      change acc with (of_int (op x) :: r)
  end.
  rewrite floor_ceil_loop_shift. apply round_loop_shift.
Qed.

Lemma fill_row_rounded (x : Q) (n : list Q) (fca ra : list nat)
  (ops : list (Q -> Z)) (a : npfloat) (r : list npfloat) :
  fill_row (x :: n) (map S fca) (O :: map S ra) ops (a :: r)
  = of_int (np_rint x) :: fill_row n fca ra ops r.
Proof.
  unfold fill_row. rewrite floor_ceil_loop_shift.
  cbn [fold_left].
  match goal with
  | |- context [fold_left ?f (map S ra) ?acc] =>
      match acc with
      | context [x :: n] =>
          change acc with
            (of_int (np_rint x)
               :: fold_left (fun (r : list npfloat) (jo : nat * (Q -> Z)) =>
                               <[fst jo := of_int (snd jo (nth (fst jo) n 0%Q))]> r)
                            (combine fca ops) r)
      end
  end.
  apply round_loop_shift.
Qed.

(** After the two loops no [nan] placeholder is left: the row is the one
    [spec_row] describes. *)
Lemma fill_row_spec (n : list Q) (mask : list bool) (ops : list (Q -> Z)) :
  length mask = length n -> length ops = length (argwhere mask) ->
  fill_row n (argwhere mask) (round_args_of n (argwhere mask)) ops
    (repeat NaN (length n))
  = map of_int (spec_row n mask ops).
Proof.
  revert mask ops. induction n as [|x n IH]; intros mask ops Hm Ho.
  - destruct mask; [|discriminate]. destruct ops; [reflexivity|discriminate].
  - destruct mask as [|b mask]; [discriminate|]. injection Hm as Hm.
    rewrite argwhere_cons in *. rewrite round_args_of_cons.
    cbn [length repeat]. destruct b; cbn [app] in *.
    + destruct ops as [|op ops]; [discriminate|].
      cbn [length] in Ho. rewrite length_map in Ho. injection Ho as Ho.
      rewrite fill_row_branched, IH by assumption. reflexivity.
    + rewrite length_map in Ho.
      rewrite fill_row_rounded, IH by assumption. reflexivity.
Qed.

End FillRow.

(** ** The candidate list of the open-mode corrector *)

Section OpenCandidates.
Import Np PyCore CorrectorSpec.

Lemma Qltb_lt (a b : Q) : Qltb a b = true <-> (a < b)%Q.
Proof.
  unfold Qltb. rewrite Qlt_alt. destruct (a ?= b)%Q; split; congruence.
Qed.

Lemma branchesb_spec (threshold x : Q) :
  branchesb threshold x = true <-> branches threshold x.
Proof. apply Qltb_lt. Qed.

Lemma branchesb_false (threshold x : Q) :
  branchesb threshold x = false <-> ~ branches threshold x.
Proof.
  rewrite <- branchesb_spec. destruct (branchesb threshold x); split; congruence.
Qed.

Lemma open_floor_ceil_args_mask (n : list Q) (threshold : Q) :
  open_floor_ceil_args n threshold = argwhere (open_mask n threshold).
Proof.
  unfold open_floor_ceil_args, remainders, open_mask. now rewrite map_map.
Qed.

Lemma argwhere_length (mask : list bool) :
  length (argwhere mask) = length (List.filter (fun b : bool => b) mask).
Proof.
  induction mask as [|b mask IH]; [reflexivity|].
  rewrite argwhere_cons, length_app, length_map, IH.
  now destruct b.
Qed.

Lemma filter_map_length {A : Type} (f : A -> bool) (l : list A) :
  length (List.filter (fun b : bool => b) (map f l)) = length (List.filter f l).
Proof.
  induction l as [|a l IH]; [reflexivity|].
  cbn [map List.filter]. destruct (f a); cbn [length]; now rewrite IH.
Qed.

Lemma open_floor_ceil_args_length (n : list Q) (threshold : Q) :
  length (open_floor_ceil_args n threshold) = branch_count n threshold.
Proof.
  rewrite open_floor_ceil_args_mask, argwhere_length.
  apply filter_map_length.
Qed.

Lemma open_n_list_rows (n : list Q) (threshold : Q) :
  open_n_list n threshold = map (map of_int) (open_rows n threshold).
Proof.
  unfold open_n_list, build_n_list, open_rows.
  rewrite open_floor_ceil_args_length, map_map.
  apply map_ext_in. intros ops Hops. apply in_product in Hops as [Hl _].
  rewrite open_floor_ceil_args_mask. apply fill_row_spec.
  - apply length_map.
  - rewrite <- open_floor_ceil_args_mask, open_floor_ceil_args_length. exact Hl.
Qed.

Lemma open_rows_length (n : list Q) (threshold : Q) :
  length (open_rows n threshold) = (2 ^ branch_count n threshold)%nat.
Proof. unfold open_rows. now rewrite length_map, product_length. Qed.

Lemma spec_row_candidate (n : list Q) (threshold : Q) (ops : list (Q -> Z)) :
  length ops = branch_count n threshold ->
  Forall (fun op => In op [np_floor; np_ceil]) ops ->
  open_candidate n threshold (spec_row n (open_mask n threshold) ops).
Proof.
  revert ops. induction n as [|x n IH]; intros ops Hl Hops; [constructor|].
  unfold branch_count in *. cbn [open_mask map List.filter spec_row] in *.
  destruct (branchesb threshold x) eqn:Hb.
  - destruct ops as [|op ops]; [discriminate|]. injection Hl as Hl.
    inversion Hops as [|? ? Hop Hops']; subst.
    constructor; [|now apply IH]. split.
    + intros _. destruct Hop as [<-|[<-|[]]]; auto.
    + intros Hn. apply branchesb_spec in Hb. contradiction.
  - constructor; [|now apply IH]. split; [|reflexivity].
    intros Hy. apply branchesb_false in Hb. contradiction.
Qed.

Lemma candidate_spec_row (n : list Q) (threshold : Q) (c : list Z) :
  open_candidate n threshold c ->
  exists ops, length ops = branch_count n threshold /\
              Forall (fun op => In op [np_floor; np_ceil]) ops /\
              c = spec_row n (open_mask n threshold) ops.
Proof.
  induction 1 as [|x ci n c [Hbr Hrd] _ (ops & Hl & Hops & ->)].
  - exists []. repeat split. constructor.
  - unfold branch_count in *. cbn [open_mask map List.filter spec_row].
    destruct (branchesb threshold x) eqn:Hb.
    + apply branchesb_spec in Hb. destruct (Hbr Hb) as [-> | ->].
      * exists (np_floor :: ops). cbn [length]. rewrite Hl.
        repeat split. constructor; [now left|assumption].
      * exists (np_ceil :: ops). cbn [length]. rewrite Hl.
        repeat split. constructor; [right; now left|assumption].
    + apply branchesb_false in Hb. rewrite (Hrd Hb).
      exists ops. repeat split; assumption.
Qed.

Lemma in_open_rows (n : list Q) (threshold : Q) (c : list Z) :
  In c (open_rows n threshold) <-> open_candidate n threshold c.
Proof.
  unfold open_rows. rewrite in_map_iff. split.
  - intros (ops & <- & Hops). apply in_product in Hops as [Hl Hall].
    now apply spec_row_candidate.
  - intros Hc. apply candidate_spec_row in Hc as (ops & Hl & Hops & ->).
    exists ops. split; [reflexivity|]. apply in_product. now split.
Qed.

End OpenCandidates.

(** ** Free energies of integer rows and [np.argmin] on finite scores *)

Section FiniteScores.
Import Np PyCore CorrectorSpec.
Local Open Scope Q_scope.

Lemma fsum_fin (l : list Q) : fsum (map Fin l) = Fin (qsum l).
Proof.
  unfold fsum, qsum. induction l as [|a l IH]; [reflexivity|].
  cbn [map fold_right]. now rewrite IH.
Qed.

Lemma einsum_row_fin (di : Q) (row d : list Q) :
  einsum_row (Fin di) row (map Fin d) = map Fin (qeinsum_row di row d).
Proof.
  revert d. induction row as [|mij row IH]; intros [|dj d]; try reflexivity.
  cbn [map einsum_row qeinsum_row fmul]. now rewrite IH.
Qed.

Lemma einsum_rows_fin (d_outer : list Q) (m : matrix) (d : list Q) :
  einsum_rows (map Fin d_outer) m (map Fin d)
  = map Fin (qeinsum_rows d_outer m d).
Proof.
  revert m. induction d_outer as [|di d_outer IH]; intros [|row m]; try reflexivity.
  cbn [map einsum_rows qeinsum_rows].
  now rewrite einsum_row_fin, fsum_fin, IH.
Qed.

Lemma vsub_fin (c : list Z) (n : list Q) :
  vsub (map of_int c) (map Fin n) = map Fin (qdiff c n).
Proof.
  revert n. induction c as [|ci c IH]; intros [|x n]; try reflexivity.
  cbn [map vsub qdiff]. now rewrite IH.
Qed.

Lemma free_energies_rows (rows : list (list Z)) (n : list Q) (cdd_inv : matrix) :
  free_energies (map (map of_int) rows) n cdd_inv
  = map Fin (map (energy cdd_inv n) rows).
Proof.
  unfold free_energies, energy, quad_form. rewrite !map_map.
  apply map_ext. intros c.
  now rewrite vsub_fin, einsum_rows_fin, fsum_fin.
Qed.

Lemma flt_fin (a b : Q) : flt (Fin a) (Fin b) = true <-> a < b.
Proof. apply Qltb_lt. Qed.

Lemma argmin_from_fin (l pre : list Q) (best : Q) (ibest : nat) :
  first_min_at pre ibest best ->
  exists i m,
    argmin_from (Fin best) ibest (length pre) (map Fin l) = i /\
    first_min_at (pre ++ l) i m.
Proof.
  revert pre best ibest. induction l as [|x l IH]; intros pre best ibest Hinv.
  - exists ibest, best. split; [reflexivity|]. now rewrite app_nil_r.
  - cbn [map argmin_from isnan orb].
    destruct Hinv as (Hnth & Hle & Hlt).
    assert (Hib : (ibest < length pre)%nat).
    { apply nth_error_Some. congruence. }
    replace (pre ++ x :: l) with ((pre ++ [x]) ++ l) by now rewrite <- app_assoc.
    replace (S (length pre)) with (length (pre ++ [x]))
      by (rewrite length_app; cbn; lia).
    destruct (flt (Fin x) (Fin best)) eqn:Hx.
    + apply flt_fin in Hx. apply IH. repeat split.
      * rewrite nth_error_app2 by lia. now rewrite Nat.sub_diag.
      * intros j q Hj.
        destruct (Nat.lt_ge_cases j (length pre)) as [Hjl|Hjl].
        -- rewrite nth_error_app1 in Hj by assumption.
           apply Qlt_le_weak. eapply Qlt_le_trans; [exact Hx|]. eapply Hle; eauto.
        -- rewrite nth_error_app2 in Hj by assumption.
           destruct (j - length pre)%nat as [|k]; cbn in Hj.
           ++ injection Hj as <-. apply Qle_refl.
           ++ destruct k; discriminate.
      * intros j q Hjl Hj. rewrite nth_error_app1 in Hj by assumption.
        eapply Qlt_le_trans; [exact Hx|]. eapply Hle; eauto.
    + assert (Hge : best <= x).
      { apply Qnot_lt_le. intros Hc. apply flt_fin in Hc. congruence. }
      apply IH. repeat split.
      * rewrite nth_error_app1 by assumption. exact Hnth.
      * intros j q Hj.
        destruct (Nat.lt_ge_cases j (length pre)) as [Hjl|Hjl].
        -- rewrite nth_error_app1 in Hj by assumption. eapply Hle; eauto.
        -- rewrite nth_error_app2 in Hj by assumption.
           destruct (j - length pre)%nat as [|k]; cbn in Hj.
           ++ now injection Hj as <-.
           ++ destruct k; discriminate.
      * intros j q Hjl Hj. rewrite nth_error_app1 in Hj by lia.
        eapply Hlt; eauto.
Qed.

Lemma np_argmin_fin (qs : list Q) :
  qs <> [] ->
  exists i m, np_argmin (map Fin qs) = Ok i /\ first_min_at qs i m.
Proof.
  destruct qs as [|x qs]; [congruence|]. intros _.
  destruct (argmin_from_fin qs [x] x 0) as (i & m & Hi & Hm).
  - repeat split.
    + intros [|[|j]] q Hj; cbn in Hj; try discriminate.
      injection Hj as <-. apply Qle_refl.
    + intros j q Hj. lia.
  - exists i, m. split; [|exact Hm]. cbn [map np_argmin]. now rewrite <- Hi.
Qed.

End FiniteScores.

(** ** Rounding *)

Section Rounding.
Import Np.
Local Open Scope Q_scope.

Lemma floor_bounds (x : Q) :
  inject_Z (np_floor x) <= x /\ x < inject_Z (np_floor x) + 1.
Proof.
  unfold np_floor. split; [apply Qfloor_le|].
  pose proof (Qlt_floor x) as H. rewrite inject_Z_plus in H. exact H.
Qed.




End Rounding.

(** ** The open-mode integer corrector *)

Section OpenCorrector.
Import Np PyCore CorrectorSpec.
Local Open Scope Q_scope.

Lemma in_argwhere (mask : list bool) (j : nat) :
  In j (argwhere mask) <-> nth_error mask j = Some true.
Proof.
  unfold argwhere. rewrite filter_In, in_seq. split.
  - intros [[_ Hj] Hn]. cbn in Hj.
    rewrite (nth_error_nth' mask false Hj). now rewrite Hn.
  - intros Hj. assert (Hlt : (j < length mask)%nat).
    { apply nth_error_Some. congruence. }
    split; [lia|]. now apply nth_error_nth.
Qed.

Lemma in_open_floor_ceil_args (n : list Q) (threshold : Q) (j : nat) :
  In j (open_floor_ceil_args n threshold) <->
  exists x, nth_error n j = Some x /\ branches threshold x.
Proof.
  rewrite open_floor_ceil_args_mask, in_argwhere. unfold open_mask.
  rewrite nth_error_map. split.
  - destruct (nth_error n j) as [x|]; [|discriminate].
    cbn. intros [= Hb]. exists x. split; [reflexivity|]. now apply branchesb_spec.
  - intros (x & -> & Hb). cbn. f_equal. now apply branchesb_spec.
Qed.

(** The call returns the first row of least score. *)
Lemma compute_argmin_open_first_min (n : list Q) (threshold : Q) (cdd_inv : matrix) :
  exists (i : nat) (best : list Z),
    compute_argmin_open n threshold cdd_inv = Ok (map of_int best) /\
    nth_error (open_rows n threshold) i = Some best /\
    (forall j c, nth_error (open_rows n threshold) j = Some c ->
                 energy cdd_inv n best <= energy cdd_inv n c) /\
    (forall j c, (j < i)%nat -> nth_error (open_rows n threshold) j = Some c ->
                 energy cdd_inv n best < energy cdd_inv n c).
Proof.
  set (rows := open_rows n threshold).
  assert (Hne : map (energy cdd_inv n) rows <> []).
  { intros Hnil. apply (f_equal (@length Q)) in Hnil.
    unfold rows in Hnil. rewrite length_map, open_rows_length in Hnil.
    cbn [length] in Hnil.
    pose proof (Nat.pow_nonzero 2 (branch_count n threshold)). lia. }
  destruct (np_argmin_fin _ Hne) as (i & m & Harg & Hnth & Hle & Hlt).
  rewrite nth_error_map in Hnth.
  destruct (nth_error rows i) as [best|] eqn:Hbest; [|discriminate].
  cbn in Hnth. injection Hnth as <-.
  exists i, best. split.
  { unfold compute_argmin_open.
    rewrite open_n_list_rows, free_energies_rows. fold rows. rewrite Harg.
    cbn [rbind]. unfold getitem. rewrite nth_error_map, Hbest. reflexivity. }
  split; [exact Hbest|]. split.
  - intros j c Hj. apply (Hle j). now rewrite nth_error_map, Hj.
  - intros j c Hji Hj. apply (Hlt j); [assumption|].
    now rewrite nth_error_map, Hj.
Qed.

End OpenCorrector.

(** ** Threshold monotonicity of the open-mode corrector *)

Section ThresholdMonotone.
Import Np PyCore CorrectorSpec.
Local Open Scope Q_scope.

Lemma ceil_above_floor (x : Q) :
  inject_Z (np_floor x) < x -> np_ceil x = (np_floor x + 1)%Z.
Proof.
  intros Hlt. destruct (floor_bounds x) as [_ Hhi].
  unfold np_ceil. set (f := np_floor x) in *.
  pose proof (Qle_ceiling x) as Hc1. pose proof (Qceiling_lt x) as Hc2.
  assert (H1 : (f < Qceiling x)%Z).
  { rewrite Zlt_Qlt. lra. }
  assert (H2 : (Qceiling x - 1 < f + 1)%Z).
  { rewrite Zlt_Qlt, inject_Z_plus. change (inject_Z 1) with 1. lra. }
  lia.
Qed.

Lemma np_rint_floor_or_ceil (x : Q) :
  np_rint x = np_floor x \/ np_rint x = np_ceil x.
Proof.
  unfold np_rint. fold (np_floor x).
  destruct (Qcompare_spec (x - inject_Z (np_floor x)) (1 # 2)) as [He|Hl|Hg].
  - destruct (Z.even (np_floor x)); [now left|right].
    symmetry. apply ceil_above_floor. lra.
  - now left.
  - right. symmetry. apply ceil_above_floor. lra.
Qed.




End ThresholdMonotone.

(** ** The entry points: validation *)

Section EntryValidation.
Import Np Helper HelperSpec.
Local Open Scope string_scope.

Variable B : Backends.

Lemma prefix_refl (s : string) : String.prefix s s = true.
Proof.
  induction s as [|c s IH]; [reflexivity|].
  cbn [String.prefix]. destruct (ascii_dec c c) as [_|Hn]; [exact IH|congruence].
Qed.

Lemma contains_unfold (needle hay : string) :
  contains needle hay
  = String.prefix needle hay ||
    match hay with
    | EmptyString => false
    | String _ hay' => contains needle hay'
    end.
Proof. destruct hay; reflexivity. Qed.

Lemma contains_append (pre needle : string) :
  contains needle (pre ++ needle) = true.
Proof.
  induction pre as [|c pre IH].
  - change ("" ++ needle) with needle.
    rewrite contains_unfold. now rewrite prefix_refl.
  - change (String c pre ++ needle) with (String c (pre ++ needle)).
    rewrite contains_unfold, IH. apply orb_true_r.
Qed.

Lemma validate_mismatch (vg : ndarray) (n_gate d : nat) :
  last (shape vg) = Some d -> d <> n_gate ->
  _validate_vg vg n_gate = Raise (shape_error n_gate).
Proof.
  intros Hl Hd. unfold _validate_vg. rewrite Hl.
  destruct (Nat.eqb_spec d n_gate); [contradiction|reflexivity].
Qed.

Lemma validate_match (vg : ndarray) (n_gate : nat) :
  last (shape vg) = Some n_gate -> _validate_vg vg n_gate = Ok tt.
Proof.
  intros Hl. unfold _validate_vg. rewrite Hl. now rewrite Nat.eqb_refl.
Qed.

Lemma mismatch_outcome (B' : Backends) (model : Model) (vg : ndarray) (n_charge : Z)
  (d : nat) :
  last (shape vg) = Some d -> d <> n_gate model ->
  _ground_state_open B' model vg = ([], Raise (shape_error (n_gate model))) /\
  _ground_state_closed B' model vg n_charge = ([], Raise (shape_error (n_gate model))).
Proof.
  intros Hl Hd. unfold _ground_state_open, _ground_state_closed.
  rewrite (validate_mismatch vg (n_gate model) d Hl Hd). now split.
Qed.

(** C7 (amended): when the trailing axis of the batch differs from the
    gate count both entry points raise the shape error without printing
    anything and without entering a solver; the message states the
    expected trailing shape [(...,n_gate)] and is a function of the gate
    count alone ([shape_error]), so it does not state the actual shape:
    any other batch with a wrong trailing axis, given to any model with the
    same gate count, whatever the solvers, has the same outcome. *)
Theorem shape_mismatch_rejected (model : Model) (vg : ndarray) (n_charge : Z) (d : nat) :
  last (shape vg) = Some d ->
  d <> n_gate model ->
  (exists msg : string,
     shape_error (n_gate model) = ValueError msg /\
     _ground_state_open B model vg = ([], Raise (ValueError msg)) /\
     _ground_state_closed B model vg n_charge = ([], Raise (ValueError msg)) /\
     contains ("(...," ++ str_of_nat (n_gate model) ++ ")") msg = true) /\
  (forall (B' : Backends) (model' : Model) (vg' : ndarray) (n_charge' : Z) (d' : nat),
     last (shape vg') = Some d' -> d' <> n_gate model' ->
     n_gate model' = n_gate model ->
     _ground_state_open B' model' vg' = _ground_state_open B model vg /\
     _ground_state_closed B' model' vg' n_charge'
     = _ground_state_closed B model vg n_charge).
Proof.
  intros Hl Hd.
  destruct (mismatch_outcome B model vg n_charge d Hl Hd) as [Ho Hc].
  split.
  2:{ intros B' model' vg' n_charge' d' Hl' Hd' Hg.
      destruct (mismatch_outcome B' model' vg' n_charge' d' Hl' Hd') as [Ho' Hc'].
      rewrite Ho, Hc, Ho', Hc', Hg. now split. }
  exists ("The shape of vg is in correct it should be of shape (..., n_gate) = (...,"
            ++ str_of_nat (n_gate model) ++ ")").
  rewrite Ho, Hc.
  repeat split.
  change ("The shape of vg is in correct it should be of shape (..., n_gate) = (...,"
            ++ str_of_nat (n_gate model) ++ ")")
    with ("The shape of vg is in correct it should be of shape (..., n_gate) = "
            ++ ("(...," ++ str_of_nat (n_gate model) ++ ")")).
  now apply contains_append.
Qed.

End EntryValidation.

(** ** The entry points: dispatch *)

Section EntryDispatch.
Import Np Helper HelperSpec.
Local Open Scope string_scope.

Variable B : Backends.

Lemma ground_state_open_steps (model : Model) (vg : ndarray) (rows : VectorList) :
  _validate_vg vg (n_gate model) = Ok tt ->
  reshape_rows vg (n_gate model) = Ok rows ->
  _ground_state_open B model vg
  = (fst (dispatch_open B model rows),
     rbind (snd (dispatch_open B model rows)) (finish_open model vg)).
Proof.
  intros Hv Hr. unfold _ground_state_open. rewrite Hv, Hr.
  unfold run_lift, finish_open, nd_shape_of. cbn [run_bind app].
  destruct (dispatch_open B model rows) as [log [r|e]]; cbn [run_bind fst snd rbind];
    [|reflexivity].
  destruct (py_assert _ _) as [[]|e]; cbn [run_bind rbind app];
    now rewrite ?app_nil_r.
Qed.

Lemma ground_state_closed_steps (model : Model) (vg : ndarray) (n_charge : Z)
  (rows : VectorList) :
  _validate_vg vg (n_gate model) = Ok tt ->
  reshape_rows vg (n_gate model) = Ok rows ->
  _ground_state_closed B model vg n_charge
  = (fst (dispatch_closed B model rows n_charge),
     rbind (snd (dispatch_closed B model rows n_charge))
           (finish_closed model vg n_charge)).
Proof.
  intros Hv Hr. unfold _ground_state_closed. rewrite Hv, Hr.
  unfold run_lift, finish_closed, nd_shape_of. cbn [run_bind app].
  destruct (dispatch_closed B model rows n_charge) as [log [r|e]];
    cbn [run_bind fst snd rbind]; [|reflexivity].
  destruct (py_assert _ _) as [[]|e]; cbn [run_bind rbind app];
    now rewrite ?app_nil_r.
Qed.

Lemma case_of_in (core : string) (patterns : list string) :
  case_of core patterns = true <-> In core patterns.
Proof.
  unfold case_of. rewrite existsb_exists. split.
  - intros (p & Hp & He). apply String.eqb_eq in He. now subst.
  - intros Hin. exists core. split; [assumption|apply String.eqb_refl].
Qed.

Lemma case_of_not_in (core : string) (patterns : list string) :
  ~ In core patterns -> case_of core patterns = false.
Proof.
  intros Hn. destruct (case_of core patterns) eqn:Hc; [|reflexivity].
  apply case_of_in in Hc. contradiction.
Qed.

Lemma dispatch_closed_selects (model : Model) (rows : VectorList) (n_charge : Z)
  (k : core_kind) :
  In (core model) (core_names k) ->
  solvers_of (fst (dispatch_closed B model rows n_charge)) = [k].
Proof.
  intros Hin. unfold dispatch_closed, print_when.
  destruct k; cbn [core_names In] in Hin;
    repeat (destruct Hin as [<-|Hin]; [cbn; try destruct (Qltb _ _); reflexivity|]);
    destruct Hin.
Qed.

Lemma dispatch_open_selects (model : Model) (rows : VectorList) (k : core_kind) :
  In (core model) (core_names k) ->
  (k = BruteForce -> max_charge_carriers model <> None) ->
  solvers_of (fst (dispatch_open B model rows)) = [k].
Proof.
  intros Hin Hmax. unfold dispatch_open, print_when.
  destruct k; cbn [core_names In] in Hin;
    try (repeat (destruct Hin as [<-|Hin]; [cbn; try destruct (Qltb _ _); reflexivity|]);
         now destruct Hin).
  specialize (Hmax eq_refl).
  destruct (max_charge_carriers model) as [m|]; [|congruence].
  repeat (destruct Hin as [<-|Hin]; [cbn; try destruct (Qltb _ _); reflexivity|]);
    destruct Hin.
Qed.

Lemma dispatch_unknown (model : Model) (rows : VectorList) (n_charge : Z) :
  (forall k, ~ In (core model) (core_names k)) ->
  dispatch_open B model rows = ([], Raise (incorrect_core (core model))) /\
  dispatch_closed B model rows n_charge = ([], Raise (incorrect_core (core model))).
Proof.
  intros Hn. unfold dispatch_open, dispatch_closed.
  pose proof (case_of_not_in _ _ (Hn Rust)) as H1.
  pose proof (case_of_not_in _ _ (Hn Jax)) as H2.
  pose proof (case_of_not_in _ _ (Hn BruteForce)) as H3.
  pose proof (case_of_not_in _ _ (Hn Python)) as H4.
  cbn [core_names] in H1, H2, H3, H4. rewrite H1, H2, H3, H4.
  split; reflexivity.
Qed.

(** C8 (amended): once the batch has passed validation, an identifier
    that is one of the listed spellings ([rust Rust RUST r], [jax Jax JAX
    j], [brute_force jax_brute_force Jax_brute_force JAX_BRUTE_FORCE b],
    [python Python PYTHON p]) hands the batch to that solver and to no
    other (in open mode the brute-force solver also needs
    [max_charge_carriers]); every other identifier makes both entry
    points raise a value error whose message names the identifier and
    the words [rust, jax or python], before any solver is entered. *)
Theorem backend_dispatch_literal (model : Model) (vg : ndarray) (n_charge : Z)
  (rows : VectorList) :
  _validate_vg vg (n_gate model) = Ok tt ->
  reshape_rows vg (n_gate model) = Ok rows ->
  (forall k, In (core model) (core_names k) ->
     solvers_of (fst (_ground_state_closed B model vg n_charge)) = [k] /\
     ((k = BruteForce -> max_charge_carriers model <> None) ->
      solvers_of (fst (_ground_state_open B model vg)) = [k])) /\
  ((forall k, ~ In (core model) (core_names k)) ->
     _ground_state_open B model vg
       = ([], Raise (ValueError ("Incorrect core " ++ core model
                                   ++ ", it must be either rust, jax or python"))) /\
     _ground_state_closed B model vg n_charge
       = ([], Raise (ValueError ("Incorrect core " ++ core model
                                   ++ ", it must be either rust, jax or python")))).
Proof.
  intros Hv Hr.
  rewrite (ground_state_open_steps model vg rows Hv Hr).
  rewrite (ground_state_closed_steps model vg n_charge rows Hv Hr).
  cbn [fst]. split.
  - intros k Hin. split.
    + now apply dispatch_closed_selects.
    + intros Hmax. now apply dispatch_open_selects.
  - intros Hn. destruct (dispatch_unknown model rows n_charge Hn) as [-> ->].
    split; reflexivity.
Qed.

End EntryDispatch.

(** ** The entry points: shape of the result *)

Section EntryShape.
Import Np Helper HelperSpec.
Local Open Scope string_scope.

Variable B : Backends.

Lemma size_of_app (l1 l2 : list nat) :
  size_of (l1 ++ l2) = (size_of l1 * size_of l2)%nat.
Proof.
  unfold size_of. induction l1 as [|a l1 IH]; cbn [app fold_right]; [lia|].
  rewrite IH. lia.
Qed.

Lemma shape_split (sh : list nat) (d : nat) :
  last sh = Some d -> sh = (removelast sh ++ [d])%list.
Proof.
  intros Hl. apply last_Some in Hl as [l' ->].
  now rewrite removelast_last.
Qed.

Lemma rows_of_length (count width : nat) (d : list Q) :
  length (rows_of count width d) = count.
Proof.
  revert d. induction count as [|c IH]; intros d; [reflexivity|].
  cbn [rows_of length]. now rewrite IH.
Qed.

Lemma reshape_rows_ok (vg : ndarray) (g : nat) :
  length (data vg) = size_of (shape vg) ->
  last (shape vg) = Some g ->
  g <> O ->
  reshape_rows vg g
  = Ok (rows_of (size_of (removelast (shape vg))) g (data vg)).
Proof.
  intros Hwf Hl Hg. unfold reshape_rows. rewrite Hwf.
  assert (Hsz : size_of (shape vg) = (size_of (removelast (shape vg)) * g)%nat).
  { rewrite (shape_split _ _ Hl) at 1. rewrite size_of_app.
    change (size_of [g]) with (g * 1)%nat. now rewrite Nat.mul_1_r. }
  rewrite Hsz.
  destruct (Nat.eqb_spec g 0); [contradiction|].
  rewrite Nat.Div0.mod_mul, Nat.div_mul by assumption.
  reflexivity.
Qed.

Lemma concat_length_uniform (r : VectorList) (w : nat) :
  Forall (fun row => length row = w) r ->
  length (concat r) = (length r * w)%nat.
Proof.
  induction 1 as [|row r Hrow _ IH]; [reflexivity|].
  cbn [concat length]. rewrite length_app, IH, Hrow. lia.
Qed.

Lemma reshape_result_shape (r : VectorList) (sh : list nat) (out : ndarray) :
  reshape_result r sh = Ok out ->
  shape out = sh /\ data out = concat r /\ length (data out) = size_of (shape out).
Proof.
  unfold reshape_result.
  destruct (Nat.eqb_spec (length (concat r)) (size_of sh)) as [He|]; [|discriminate].
  intros [= <-]. cbn. auto.
Qed.

Lemma finish_open_shape (model : Model) (vg : ndarray) (r : VectorList) (out : ndarray) :
  finish_open model vg r = Ok out ->
  shape out = nd_shape_of (shape vg) (n_dot model) /\
  data out = concat r /\ length (data out) = size_of (shape out).
Proof.
  unfold finish_open. destruct (py_assert _ _) as [[]|e]; [|discriminate].
  cbn [rbind]. apply reshape_result_shape.
Qed.

Lemma finish_closed_shape (model : Model) (vg : ndarray) (n_charge : Z)
  (r : VectorList) (out : ndarray) :
  finish_closed model vg n_charge r = Ok out ->
  shape out = nd_shape_of (shape vg) (n_dot model) /\
  data out = concat r /\ length (data out) = size_of (shape out).
Proof.
  unfold finish_closed. destruct (py_assert _ _) as [[]|e]; [|discriminate].
  cbn [rbind]. apply reshape_result_shape.
Qed.

Lemma reshape_result_ok (model : Model) (vg : ndarray) (r : VectorList) :
  Forall (fun row => length row = n_dot model) r ->
  length r = size_of (removelast (shape vg)) ->
  reshape_result r (nd_shape_of (shape vg) (n_dot model))
  = Ok {| shape := nd_shape_of (shape vg) (n_dot model); data := concat r |}.
Proof.
  intros Hrow Hlen. unfold reshape_result, nd_shape_of.
  rewrite (concat_length_uniform r (n_dot model) Hrow), size_of_app, Hlen.
  change (size_of [n_dot model]) with (n_dot model * 1)%nat.
  rewrite Nat.mul_1_r, Nat.eqb_refl. reflexivity.
Qed.

(** C9: for a batch of any rank whose entries fill its shape and whose
    trailing axis has [n_gate] entries ([n_gate] not zero), the batch is
    cut into one row per voltage vector; whatever either entry point
    returns has the leading dimensions of the batch followed by [n_dot];
    and it does return, with the solver's rows as data, whenever the
    selected solver returns one row of [n_dot] entries per voltage vector
    and the rows pass the check that follows. *)
Theorem ground_state_shape (model : Model) (vg : ndarray) (n_charge : Z) :
  length (data vg) = size_of (shape vg) ->
  last (shape vg) = Some (n_gate model) ->
  n_gate model <> O ->
  exists rows : VectorList,
    reshape_rows vg (n_gate model) = Ok rows /\
    length rows = size_of (removelast (shape vg)) /\
    (forall out, snd (_ground_state_open B model vg) = Ok out ->
       shape out = (removelast (shape vg) ++ [n_dot model])%list /\
       length (data out) = size_of (shape out)) /\
    (forall out, snd (_ground_state_closed B model vg n_charge) = Ok out ->
       shape out = (removelast (shape vg) ++ [n_dot model])%list /\
       length (data out) = size_of (shape out)) /\
    (forall r, snd (dispatch_open B model rows) = Ok r ->
       Forall (fun row => length row = n_dot model) r ->
       length r = length rows ->
       forallb (fun x => (0 <=? astype_int x)%Z) (concat r) = true ->
       snd (_ground_state_open B model vg)
       = Ok {| shape := (removelast (shape vg) ++ [n_dot model])%list;
               data := concat r |}) /\
    (forall r, snd (dispatch_closed B model rows n_charge) = Ok r ->
       Forall (fun row => length row = n_dot model) r ->
       length r = length rows ->
       forallb (fun row => isclose (qsum row) (inject_Z n_charge)) r = true ->
       snd (_ground_state_closed B model vg n_charge)
       = Ok {| shape := (removelast (shape vg) ++ [n_dot model])%list;
               data := concat r |}).
Proof.
  intros Hwf Hl Hg.
  set (rows := rows_of (size_of (removelast (shape vg))) (n_gate model) (data vg)).
  pose proof (validate_match vg (n_gate model) Hl) as Hv.
  pose proof (reshape_rows_ok vg (n_gate model) Hwf Hl Hg) as Hr. fold rows in Hr.
  exists rows.
  rewrite (ground_state_open_steps B model vg rows Hv Hr).
  rewrite (ground_state_closed_steps B model vg n_charge rows Hv Hr).
  cbn [snd].
  split; [exact Hr|]. split; [apply rows_of_length|].
  split; [|split; [|split]].
  - intros out Hout.
    destruct (snd (dispatch_open B model rows)) as [r|e]; [|discriminate].
    cbn [rbind] in Hout. apply finish_open_shape in Hout as (Hs & _ & Hd).
    now split.
  - intros out Hout.
    destruct (snd (dispatch_closed B model rows n_charge)) as [r|e]; [|discriminate].
    cbn [rbind] in Hout. apply finish_closed_shape in Hout as (Hs & _ & Hd).
    now split.
  - intros r -> Hrow Hlen Hchk. cbn [rbind]. unfold finish_open, py_assert.
    rewrite Hchk. cbn [rbind]. apply reshape_result_ok; [assumption|].
    rewrite Hlen. apply rows_of_length.
  - intros r -> Hrow Hlen Hchk. cbn [rbind]. unfold finish_closed, py_assert.
    rewrite Hchk. cbn [rbind]. apply reshape_result_ok; [assumption|].
    rewrite Hlen. apply rows_of_length.
Qed.

End EntryShape.

(** ** The closed entry point: conservation of the total charge *)

Section ClosedInvariant.
Import Np Helper HelperSpec.
Local Open Scope string_scope.

Variable B : Backends.








End ClosedInvariant.

(** ** The brute-force kernel at zero temperature *)

Section KernelFacts.
Import Np JaxBruteForce CorrectorSpec.



Local Open Scope Q_scope.













Section WithSoftmax.

Variable softmax : list npfloat -> list npfloat.


End WithSoftmax.

End KernelFacts.

(** ** The open-mode corrector in binary64 arithmetic *)

Section Binary64Numbers.
Import Np Float64.
Local Open Scope Z_scope.











Section IntegerPart.

Variable f : Q -> Z.
Hypothesis f_integer : forall z : Z, f (inject_Z z) = z.
Hypothesis f_between :
  forall (q : Q) (B : Z), (inject_Z (- B) <= q <= inject_Z B)%Q -> - B <= f q <= B.


End IntegerPart.








End Binary64Numbers.

Section FillRowFloat64.
Import Np Float64 PyCoreFloat64 CorrectorSpecFloat64.















End FillRowFloat64.

Section ArgminWithNan.
Import Np CorrectorSpec CorrectorSpecFloat64.





End ArgminWithNan.

Section OpenCorrectorFloat64.
Import Np Float64 PyCoreFloat64 CorrectorSpecFloat64.

Variable np_einsum :
  list (list float64) -> list (list float64) -> list (list float64) -> result (list float64).


End OpenCorrectorFloat64.

Section OpenCorrectorFloat64Instances.
Import Np Float64 PyCoreFloat64 CorrectorSpecFloat64.



End OpenCorrectorFloat64Instances.

(** ** Conservation of the total charge in closed mode *)

Section ClosedTotalCharge.
Import Np Helper HelperSpec.
Local Open Scope string_scope.

Variable B : Backends.
Variable softmax : list npfloat -> list npfloat.


End ClosedTotalCharge.

(** ** The Python batch solver: the store it leaves behind *)

Section Frame.
Import Np PyCore StoreSpec.
Local Open Scope py_scope.

Lemma frame_refl (h : gmap loc pyobj) : frame h h.
Proof. intros l o Hl. exact Hl. Qed.

Lemma keeps_weaken {A : Type} (h0 : gmap loc pyobj) (m : Py A) (P Q : A -> Prop) :
  keeps h0 m P -> (forall a, P a -> Q a) -> keeps h0 m Q.
Proof.
  intros Hm HPQ h Hf. destruct (Hm h Hf) as [H1 H2]. split; [exact H1|].
  intros a Ha. apply HPQ. now apply H2.
Qed.

Lemma keeps_ret {A : Type} (h0 : gmap loc pyobj) (a : A) :
  keeps h0 (py_ret a) (fun _ => True).
Proof. intros h Hf. split; [exact Hf|trivial]. Qed.

Lemma keeps_lift {A : Type} (h0 : gmap loc pyobj) (r : result A) :
  keeps h0 (py_lift r) (fun _ => True).
Proof. intros h Hf. split; [exact Hf|trivial]. Qed.

Lemma keeps_bind {A C : Type} (h0 : gmap loc pyobj) (m : Py A) (k : A -> Py C)
  (P : A -> Prop) (Q : C -> Prop) :
  keeps h0 m P -> (forall a, P a -> keeps h0 (k a) Q) ->
  keeps h0 (py_bind m k) Q.
Proof.
  intros Hm Hk h Hf. unfold py_bind.
  destruct (Hm h Hf) as [H1 H2].
  destruct (m h) as [[a|e] h1]; cbn [fst snd] in *.
  - apply (Hk a (H2 a eq_refl) h1 H1).
  - split; [exact H1|]. intros c Hc. discriminate.
Qed.

Lemma keeps_load_array (h0 : gmap loc pyobj) (l : loc) :
  keeps h0 (load_array l) (fun _ => True).
Proof.
  intros h Hf. unfold load_array.
  destruct (h !! l) as [[a|a|p]|]; cbn [fst snd]; auto.
Qed.

Lemma keeps_load_problem (h0 : gmap loc pyobj) (l : loc) :
  keeps h0 (load_problem l) (fun _ => True).
Proof.
  intros h Hf. unfold load_problem.
  destruct (h !! l) as [[a|a|p]|]; cbn [fst snd]; auto.
Qed.

(** A new object lands outside [h0]. *)
Lemma keeps_alloc (h0 : gmap loc pyobj) (o : pyobj) :
  keeps h0 (py_alloc o) (fun l => h0 !! l = None).
Proof.
  intros h Hf. unfold py_alloc. cbn [fst snd].
  assert (Hfresh : h !! fresh (dom h) = None).
  { apply not_elem_of_dom. apply is_fresh. }
  assert (Hnew : h0 !! fresh (dom h) = None).
  { destruct (h0 !! fresh (dom h)) as [o'|] eqn:Ho; [|reflexivity].
    apply Hf in Ho. congruence. }
  split.
  - intros l o' Hl. rewrite lookup_insert_ne; [now apply Hf|].
    intros <-. congruence.
  - intros a [= <-]. exact Hnew.
Qed.

(** Updating a problem that is not an object of [h0] keeps [h0]. *)
Lemma keeps_update (h0 : gmap loc pyobj) (prob : loc) (q : list Q) :
  h0 !! prob = None -> keeps h0 (osqp_update prob q) (fun _ => True).
Proof.
  intros Hp h Hf. unfold osqp_update.
  destruct (h !! prob) as [[a|a|p]|]; cbn [fst snd]; auto.
  split; [|trivial].
  intros l o Hl. rewrite lookup_insert_ne; [now apply Hf|].
  intros <-. congruence.
Qed.

Lemma keeps_map {A C : Type} (h0 : gmap loc pyobj) (f : A -> Py C) (rows : list A) :
  (forall v, keeps h0 (f v) (fun _ => True)) ->
  keeps h0 (py_map f rows) (fun _ => True).
Proof.
  intros Hf. induction rows as [|v rows IH]; cbn [py_map].
  - apply keeps_ret.
  - eapply keeps_bind; [apply Hf|]. intros n _.
    eapply keeps_bind; [apply IH|]. intros ns _. apply keeps_ret.
Qed.

End Frame.

(** ** The corrector that fills [n_list] in place *)

Section InPlace.
Import Np PyCore StoreSpec CorrectorSpec.
Local Open Scope py_scope.

Lemma keeps_load_float_array (h0 : gmap loc pyobj) (l : loc) :
  keeps h0 (load_float_array l) (fun _ => True).
Proof.
  intros h Hf. unfold load_float_array.
  destruct (h !! l) as [[a|a|p]|]; cbn [fst snd]; auto.
Qed.

(** Writing into an array that is not an object of [h0] keeps [h0]. *)
Lemma keeps_setitem (h0 : gmap loc pyobj) (l : loc) (i j : nat) (v : npfloat) :
  h0 !! l = None -> keeps h0 (py_setitem l i j v) (fun _ => True).
Proof.
  intros Hl h Hf. unfold py_setitem.
  destruct (load_float_array l h) as [[a|e] h']; cbn [fst snd]; [|auto].
  destruct (a !! i) as [row|]; cbn [fst snd]; [|auto].
  destruct (j <? length row)%nat; cbn [fst snd]; [|auto].
  split; [|trivial].
  intros l' o Hl'. rewrite lookup_insert_ne; [now apply Hf|].
  intros <-. congruence.
Qed.

Lemma lookup_map {X Y : Type} (f : X -> Y) (xs : list X) (i : nat) (x : X) :
  xs !! i = Some x -> map f xs !! i = Some (f x).
Proof.
  revert i. induction xs as [|y xs IH]; intros [|i] H; try discriminate.
  - cbn in *. congruence.
  - cbn in *. now apply IH.
Qed.

(** Writing into an array that is an object of the store changes it: the
    store does not protect the capacitance matrices. *)
Lemma setitem_overwrites (h : gmap loc pyobj) (l : loc) (a : matrix) (row : list Q)
  (i j : nat) (v : npfloat) :
  h !! l = Some (ObjArray a) -> a !! i = Some row -> (j < length row)%nat ->
  snd (py_setitem l i j v h) !! l
  = Some (ObjFloatArray (<[i := <[j := v]> (map Fin row)]> (map (map Fin) a))).
Proof.
  intros Hl Hi Hj. unfold py_setitem, load_float_array. rewrite Hl.
  rewrite (lookup_map (map Fin) a i row Hi).
  rewrite length_map. apply Nat.ltb_lt in Hj. rewrite Hj. cbn [snd].
  apply lookup_insert_eq.
Qed.

Lemma keeps_for {A : Type} (h0 : gmap loc pyobj) (xs : list A) (body : A -> Py unit) :
  (forall x, keeps h0 (body x) (fun _ => True)) ->
  keeps h0 (py_for xs body) (fun _ => True).
Proof.
  intros Hb. induction xs as [|x xs IH]; cbn [py_for].
  - apply keeps_ret.
  - eapply keeps_bind; [apply Hb|]. intros _ _. exact IH.
Qed.

Lemma keeps_in_place (h0 : gmap loc pyobj) (n : list Q) (threshold : Q) (cdd_inv : loc) :
  keeps h0 (compute_argmin_open_in_place n threshold cdd_inv) (fun _ => True).
Proof.
  unfold compute_argmin_open_in_place.
  eapply keeps_bind; [apply keeps_alloc|]. intros l Hl. cbv beta.
  eapply keeps_bind.
  { apply keeps_for. intros i_ops.
    eapply keeps_bind; [apply keeps_for; intros j_op; now apply keeps_setitem|].
    intros _ _. apply keeps_for. intros j. now apply keeps_setitem. }
  intros _ _.
  eapply keeps_bind; [apply keeps_load_float_array|]. intros n_list_a _.
  eapply keeps_bind; [apply keeps_load_array|]. intros cdd_inv_a _.
  eapply keeps_bind; [apply keeps_lift|]. intros i _. apply keeps_lift.
Qed.

Lemma setitem_run (h : gmap loc pyobj) (l : loc) (A : list (list npfloat))
  (i j : nat) (row : list npfloat) (v : npfloat) :
  h !! l = Some (ObjFloatArray A) -> A !! i = Some row -> (j < length row)%nat ->
  py_setitem l i j v h
  = (Ok tt, <[l := ObjFloatArray (<[i := <[j := v]> row]> A)]> h).
Proof.
  intros H1 H2 H3. unfold py_setitem, load_float_array. rewrite H1, H2.
  apply Nat.ltb_lt in H3. now rewrite H3.
Qed.

(** A loop of writes into row [i]. *)
Lemma row_writes_run {X : Type} (l : loc) (i : nat) (idx : X -> nat) (val : X -> npfloat)
  (xs : list X) :
  forall (h : gmap loc pyobj) (A : list (list npfloat)) (row : list npfloat),
    h !! l = Some (ObjFloatArray A) -> A !! i = Some row ->
    Forall (fun x => (idx x < length row)%nat) xs ->
    py_for xs (fun x => py_setitem l i (idx x) (val x)) h
    = (Ok tt,
       <[l := ObjFloatArray
                (<[i := fold_left (fun r x => <[idx x := val x]> r) xs row]> A)]> h).
Proof.
  induction xs as [|x xs IH]; intros h A row Hl Hi Hb.
  - cbn [py_for fold_left]. unfold py_ret.
    rewrite (list_insert_id A i row Hi), (insert_id h l _ Hl). reflexivity.
  - inversion Hb as [|? ? Hx Hxs]; subst.
    cbn [py_for fold_left]. unfold py_bind.
    rewrite (setitem_run h l A i (idx x) row (val x) Hl Hi Hx).
    assert (Hi' : (i < length A)%nat) by (eapply lookup_lt_Some; eassumption).
    rewrite (IH _ (<[i := <[idx x := val x]> row]> A) (<[idx x := val x]> row)).
    + now rewrite list_insert_insert_eq, insert_insert_eq.
    + apply lookup_insert_eq.
    + now apply list_lookup_insert_eq.
    + eapply List.Forall_impl; [|exact Hxs]. intros y Hy. cbn beta.
      now rewrite length_insert.
Qed.

Section Rows.

Variables (n : list Q) (floor_ceil_args round_args : list nat) (l : loc).
Hypothesis branched_in_range : Forall (fun j => (j < length n)%nat) floor_ceil_args.
Hypothesis rounded_in_range : Forall (fun j => (j < length n)%nat) round_args.

(** The body of the outer loop, for row [i] and the tuple [ops]. *)
Lemma row_run (h : gmap loc pyobj) (A : list (list npfloat)) (i : nat)
  (ops : list (Q -> Z)) (row : list npfloat) :
  h !! l = Some (ObjFloatArray A) -> A !! i = Some row -> length row = length n ->
  py_bind
    (py_for (combine floor_ceil_args ops)
       (fun j_op => py_setitem l i (fst j_op) (of_int (snd j_op (nth (fst j_op) n 0%Q)))))
    (fun _ => py_for round_args
                (fun j => py_setitem l i j (of_int (np_rint (nth j n 0%Q))))) h
  = (Ok tt, <[l := ObjFloatArray (<[i := fill_row n floor_ceil_args round_args ops row]> A)]> h).
Proof.
  intros Hl Hi Hlen. unfold py_bind.
  rewrite (row_writes_run l i fst (fun j_op => of_int (snd j_op (nth (fst j_op) n 0%Q)))
             (combine floor_ceil_args ops) h A row Hl Hi).
  2:{ apply List.Forall_forall. intros [j op] Hin. cbn [fst].
      apply in_combine_l in Hin. rewrite Hlen.
      rewrite List.Forall_forall in branched_in_range. now apply branched_in_range. }
  assert (Hi' : (i < length A)%nat) by (eapply lookup_lt_Some; eassumption).
  set (row1 := fold_left _ (combine floor_ceil_args ops) row).
  assert (Hlen1 : length row1 = length n).
  { unfold row1. clear - Hlen. revert row Hlen.
    induction (combine floor_ceil_args ops) as [|x xs IH]; intros row Hlen; [exact Hlen|].
    cbn [fold_left]. apply IH. now rewrite length_insert. }
  rewrite (row_writes_run l i (fun j => j) (fun j => of_int (np_rint (nth j n 0%Q)))
             round_args _ (<[i := row1]> A) row1).
  - rewrite list_insert_insert_eq, insert_insert_eq. reflexivity.
  - apply lookup_insert_eq.
  - now apply list_lookup_insert_eq.
  - rewrite Hlen1. exact rounded_in_range.
Qed.

(** The outer loop, from row [length done] on. *)
Lemma rows_run (todo : list (list (Q -> Z))) :
  forall (done : list (list npfloat)) (h : gmap loc pyobj),
    h !! l = Some (ObjFloatArray
                     (done ++ repeat (repeat NaN (length n)) (length todo))) ->
    py_for (combine (seq (length done) (length todo)) todo)
      (fun i_ops =>
         py_bind
           (py_for (combine floor_ceil_args (snd i_ops))
              (fun j_op => py_setitem l (fst i_ops) (fst j_op)
                             (of_int (snd j_op (nth (fst j_op) n 0%Q)))))
           (fun _ => py_for round_args
                       (fun j => py_setitem l (fst i_ops) j
                                   (of_int (np_rint (nth j n 0%Q)))))) h
    = (Ok tt,
       <[l := ObjFloatArray
                (done ++ map (fun ops => fill_row n floor_ceil_args round_args ops
                                           (repeat NaN (length n))) todo)]> h).
Proof.
  induction todo as [|ops todo IH]; intros done h Hl.
  - cbn [length seq combine py_for map]. unfold py_ret.
    cbn [length repeat] in Hl. rewrite (insert_id h l _ Hl). reflexivity.
  - cbn [length seq combine py_for map]. unfold py_bind at 1. cbn [fst snd].
    cbn [length repeat] in Hl.
    rewrite (row_run h _ (length done) ops (repeat NaN (length n)) Hl).
    2:{ now apply list_lookup_middle. }
    2:{ apply repeat_length. }
    assert (Hins : <[length done := fill_row n floor_ceil_args round_args ops
                                     (repeat NaN (length n))]>
                     (done ++ repeat NaN (length n)
                             :: repeat (repeat NaN (length n)) (length todo))
                   = (done ++ [fill_row n floor_ceil_args round_args ops
                                 (repeat NaN (length n))])
                       ++ repeat (repeat NaN (length n)) (length todo)).
    { rewrite <- (Nat.add_0_r (length done)) at 1. rewrite insert_app_r.
      now rewrite <- app_assoc. }
    rewrite Hins.
    replace (S (length done))
      with (length (done ++ [fill_row n floor_ceil_args round_args ops
                               (repeat NaN (length n))]))
      by (rewrite length_app; cbn [length]; lia).
    rewrite (IH _ _ (lookup_insert_eq _ _ _)).
    rewrite insert_insert_eq, <- app_assoc. reflexivity.
Qed.

End Rows.

Lemma lift_bind {A C : Type} (r : result A) (k : A -> result C) (h : gmap loc pyobj) :
  py_bind (py_lift r) (fun a => py_lift (k a)) h = (rbind r k, h).
Proof. unfold py_bind, py_lift. now destruct r. Qed.

(** The corrector on the store returns what the corrector returns on the
    values, and leaves the filled [n_list] behind at a new location. *)
Lemma in_place_run (n : list Q) (threshold : Q) (cdd_inv : loc) (cdd_inv_a : matrix)
  (h : gmap loc pyobj) :
  h !! cdd_inv = Some (ObjArray cdd_inv_a) ->
  compute_argmin_open_in_place n threshold cdd_inv h
  = (compute_argmin_open n threshold cdd_inv_a,
     <[fresh (dom h) := ObjFloatArray (open_n_list n threshold)]> h).
Proof.
  intros Hinv. unfold compute_argmin_open_in_place.
  set (fca := open_floor_ceil_args n threshold).
  set (ra := round_args_of n fca).
  unfold py_bind at 1. unfold py_alloc at 1. cbv beta zeta.
  set (l := fresh (dom h)).
  assert (Hl : h !! l = None) by (apply not_elem_of_dom, is_fresh).
  assert (Hne : cdd_inv <> l) by (intros E; rewrite E in Hinv; congruence).
  assert (Hfca : Forall (fun j => (j < length n)%nat) fca).
  { apply List.Forall_forall. intros j Hj.
    apply in_open_floor_ceil_args in Hj as (x & Hx & _).
    apply nth_error_Some. congruence. }
  assert (Hra : Forall (fun j => (j < length n)%nat) ra).
  { apply List.Forall_forall. intros j Hj. unfold ra, round_args_of in Hj.
    apply filter_In in Hj as [Hj _]. apply in_seq in Hj. lia. }
  unfold py_bind at 1.
  pose proof (rows_run n fca ra l Hfca Hra (product [np_floor; np_ceil] (length fca)) []
                (<[l := ObjFloatArray (repeat (repeat NaN (length n)) (2 ^ length fca))]> h))
    as Hrows.
  cbn [length app] in Hrows. rewrite product_length in Hrows. cbn [length] in Hrows.
  rewrite product_length. cbn [length].
  rewrite Hrows by apply lookup_insert_eq.
  rewrite insert_insert_eq.
  unfold py_bind at 1. unfold load_float_array at 1. rewrite lookup_insert_eq.
  unfold py_bind at 1. unfold load_array at 1.
  rewrite lookup_insert_ne by congruence. rewrite Hinv.
  rewrite lift_bind. reflexivity.
Qed.

End InPlace.

Section SolverFrame.
Import Np PyCore StoreSpec.
Local Open Scope py_scope.

Variable osqp_solve : osqp_problem -> list Q.
Variable compute_charge_configuration_brute_force :
  Z -> nat -> list Z -> list (list Z).

Lemma keeps_init (h0 : gmap loc pyobj) (cdd_inv cgd : loc) (n_charge : option Z) :
  keeps h0 (init_osqp_problem cdd_inv cgd n_charge) (fun prob => h0 !! prob = None).
Proof.
  unfold init_osqp_problem.
  eapply keeps_bind; [apply keeps_load_array|]. intros cdd_inv_a _.
  eapply keeps_bind; [apply keeps_load_array|]. intros cgd_a _.
  apply keeps_alloc.
Qed.

Lemma keeps_open_0d (h0 : gmap loc pyobj) (vg : list Q) (cgd cdd_inv : loc)
  (threshold : Q) (prob : loc) :
  h0 !! prob = None ->
  keeps h0 (_ground_state_open_0d osqp_solve vg cgd cdd_inv threshold prob)
        (fun _ => True).
Proof.
  intros Hp. unfold _ground_state_open_0d.
  eapply keeps_bind; [apply keeps_load_array|]. intros cdd_inv_a _.
  eapply keeps_bind; [apply keeps_load_array|]. intros cgd_a _.
  eapply keeps_bind; [now apply keeps_update|]. intros _ _.
  eapply keeps_bind; [apply keeps_load_problem|]. intros p _.
  apply keeps_in_place.
Qed.

Lemma keeps_closed_0d (h0 : gmap loc pyobj) (vg : list Q) (n_charge : Z)
  (cgd cdd_inv : loc) (threshold : Q) (prob : loc) :
  h0 !! prob = None ->
  keeps h0 (_ground_state_closed_0d osqp_solve compute_charge_configuration_brute_force
              vg n_charge cgd cdd_inv threshold prob)
        (fun _ => True).
Proof.
  intros Hp. unfold _ground_state_closed_0d.
  eapply keeps_bind; [apply keeps_load_array|]. intros cdd_inv_a _.
  eapply keeps_bind; [apply keeps_load_array|]. intros cgd_a _.
  eapply keeps_bind; [now apply keeps_update|]. intros _ _.
  eapply keeps_bind; [apply keeps_load_problem|]. intros p _.
  eapply keeps_bind; [apply keeps_load_array|]. intros cdd_inv_b _.
  apply keeps_lift.
Qed.

Lemma keeps_open_python (h0 : gmap loc pyobj) (vg cgd cdd_inv : loc) (threshold : Q) :
  keeps h0 (ground_state_open_python osqp_solve vg cgd cdd_inv threshold)
        (fun _ => True).
Proof.
  unfold ground_state_open_python.
  eapply keeps_bind; [apply keeps_init|]. intros prob Hp.
  eapply keeps_bind; [apply keeps_load_array|]. intros vg_a _.
  eapply keeps_bind; [apply keeps_map; intros v; now apply keeps_open_0d|].
  intros N _. eapply keeps_weaken; [apply keeps_alloc|trivial].
Qed.

Lemma keeps_closed_python (h0 : gmap loc pyobj) (vg : loc) (n_charge : Z)
  (cgd cdd cdd_inv : loc) (threshold : Q) :
  keeps h0 (ground_state_closed_python osqp_solve
              compute_charge_configuration_brute_force
              vg n_charge cgd cdd cdd_inv threshold)
        (fun _ => True).
Proof.
  unfold ground_state_closed_python.
  eapply keeps_bind; [apply keeps_init|]. intros prob Hp.
  eapply keeps_bind; [apply keeps_load_array|]. intros vg_a _.
  eapply keeps_bind; [apply keeps_map; intros v; now apply keeps_closed_0d|].
  intros N _. eapply keeps_weaken; [apply keeps_alloc|trivial].
Qed.

(** C10: after a batch solve of the Python core, open or closed, whether
    it returns or raises, the arrays [cdd], [cdd_inv] and [cgd] that were
    passed in hold what they held before the call (and so does every
    other object that existed before it), whichever locations the four
    arguments are.  The solver does write in place: [prob.update] into
    the problem and [n_list[i, j] = ...] into the candidate array, and
    such a write changes whichever array it reaches
    ([setitem_overwrites]); both objects are allocated by the solver
    itself.  The same holds of each function of the core on its own, run
    on any store: setting up the problem and the corrector leave every
    object as it was, and the solve of one voltage vector leaves every
    object but the problem it updates. *)
Theorem capacitance_matrices_unchanged (h : gmap loc pyobj)
  (vg cgd cdd cdd_inv : loc) (n_charge : Z) (threshold : Q)
  (cgd_a cdd_a cdd_inv_a : matrix) :
  h !! cgd = Some (ObjArray cgd_a) ->
  h !! cdd = Some (ObjArray cdd_a) ->
  h !! cdd_inv = Some (ObjArray cdd_inv_a) ->
  let h_open :=
    snd (ground_state_open_python osqp_solve vg cgd cdd_inv threshold h) in
  let h_closed :=
    snd (ground_state_closed_python osqp_solve compute_charge_configuration_brute_force
           vg n_charge cgd cdd cdd_inv threshold h) in
  (h_open !! cgd = Some (ObjArray cgd_a) /\
   h_open !! cdd = Some (ObjArray cdd_a) /\
   h_open !! cdd_inv = Some (ObjArray cdd_inv_a)) /\
  (h_closed !! cgd = Some (ObjArray cgd_a) /\
   h_closed !! cdd = Some (ObjArray cdd_a) /\
   h_closed !! cdd_inv = Some (ObjArray cdd_inv_a)) /\
  (forall l o, h !! l = Some o -> h_open !! l = Some o /\ h_closed !! l = Some o) /\
  (forall (h' : gmap loc pyobj) (l : loc) (o : pyobj),
     h' !! l = Some o ->
     (forall n_charge' : option Z,
        snd (init_osqp_problem cdd_inv cgd n_charge' h') !! l = Some o) /\
     (forall n : list Q,
        snd (compute_argmin_open_in_place n threshold cdd_inv h') !! l = Some o) /\
     (forall (v : list Q) (prob : loc),
        l <> prob ->
        snd (_ground_state_open_0d osqp_solve v cgd cdd_inv threshold prob h') !! l
        = Some o /\
        snd (_ground_state_closed_0d osqp_solve compute_charge_configuration_brute_force
               v n_charge cgd cdd_inv threshold prob h') !! l
        = Some o)).
Proof.
  intros Hcgd Hcdd Hinv h_open h_closed.
  destruct (keeps_open_python h vg cgd cdd_inv threshold h (frame_refl h))
    as [Hopen _].
  destruct (keeps_closed_python h vg n_charge cgd cdd cdd_inv threshold h
              (frame_refl h)) as [Hclosed _].
  fold h_open in Hopen. fold h_closed in Hclosed.
  split; [repeat split; now apply Hopen|].
  split; [repeat split; now apply Hclosed|].
  split; [intros l o Hl; split; [now apply Hopen|now apply Hclosed]|].
  intros h' l o Hl. split; [|split].
  - intros n_charge'.
    now apply (keeps_init h' cdd_inv cgd n_charge' h' (frame_refl h')).
  - intros n.
    now apply (keeps_in_place h' n threshold cdd_inv h' (frame_refl h')).
  - intros v prob Hne.
    assert (Hnone : delete prob h' !! prob = None) by apply lookup_delete_eq.
    assert (Hframe : frame (delete prob h') h').
    { intros l' o' Hl'. apply lookup_delete_Some in Hl'. tauto. }
    assert (Hl0 : delete prob h' !! l = Some o).
    { apply lookup_delete_Some. split; [congruence|exact Hl]. }
    split.
    + now apply (keeps_open_0d (delete prob h') v cgd cdd_inv threshold prob Hnone
                   h' Hframe).
    + now apply (keeps_closed_0d (delete prob h') v n_charge cgd cdd_inv threshold prob
                   Hnone h' Hframe).
Qed.

End SolverFrame.

(** ** The closed-mode search without a candidate *)

Section Infeasible.
Import Np PyCore StoreSpec.
Local Open Scope py_scope.

Variable osqp_solve : osqp_problem -> list Q.
Variable compute_charge_configuration_brute_force :
  Z -> nat -> list Z -> list (list Z).

Lemma argmin_from_bound (l : list npfloat) (best : npfloat) (ibest i : nat) :
  (ibest < i)%nat -> (argmin_from best ibest i l < i + length l)%nat.
Proof.
  revert best ibest i. induction l as [|x l IH]; intros best ibest i Hi;
    cbn [argmin_from length]; [lia|].
  destruct (isnan best); [lia|].
  destruct (isnan x || flt x best).
  - specialize (IH x i (S i)). lia.
  - specialize (IH best ibest (S i)). lia.
Qed.

Lemma np_argmin_bound (l : list npfloat) (i : nat) :
  np_argmin l = Ok i -> (i < length l)%nat.
Proof.
  destruct l as [|x l]; [discriminate|]. cbn [np_argmin length].
  intros [= <-]. pose proof (argmin_from_bound l x 0 1). lia.
Qed.

(** The corrector either returns a row or fails on an empty score
    array. *)
Lemma compute_argmin_closed_outcome (n_continuous : list Q) (threshold : Q)
  (cdd_inv : matrix) (n_charge : option Z) (e : exn) :
  compute_argmin_closed compute_charge_configuration_brute_force
    n_continuous threshold cdd_inv n_charge = Raise e ->
  e = empty_argmin.
Proof.
  unfold compute_argmin_closed.
  set (n_list := match n_charge with Some _ => _ | None => _ end).
  destruct (np_argmin (free_energies n_list n_continuous cdd_inv)) as [i|e'] eqn:Ha.
  - cbn [rbind]. apply np_argmin_bound in Ha.
    unfold free_energies in Ha. rewrite length_map in Ha.
    unfold getitem. destruct (nth_error n_list i) eqn:Hn; [discriminate|].
    apply nth_error_None in Hn. lia.
  - cbn [rbind]. intros [= <-].
    destruct (free_energies n_list n_continuous cdd_inv); [|discriminate].
    now injection Ha as <-.
Qed.

Lemma compute_argmin_closed_empty (n_continuous : list Q) (threshold : Q)
  (cdd_inv : matrix) (n_charge : Z) :
  compute_charge_configuration_brute_force
    n_charge (length cdd_inv) (map np_floor n_continuous) = [] ->
  compute_argmin_closed compute_charge_configuration_brute_force
    n_continuous threshold cdd_inv (Some n_charge) = Raise empty_argmin.
Proof.
  intros Hgen. unfold compute_argmin_closed. now rewrite Hgen.
Qed.

Lemma result_map_raise {A C : Type} (f : A -> result C) (rows : list A) (v : A) (e : exn) :
  In v rows -> f v = Raise e ->
  (forall v' e', f v' = Raise e' -> e' = e) ->
  result_map f rows = Raise e.
Proof.
  intros Hin Hv Hall. induction rows as [|a rows IH]; [destruct Hin|].
  cbn [result_map]. destruct (f a) as [n|e'] eqn:Ha; cbn [rbind].
  - destruct Hin as [->|Hin]; [congruence|]. now rewrite (IH Hin).
  - f_equal. now apply (Hall a).
Qed.

Section Store.

Variables (cgd cdd_inv prob : loc) (cgd_a cdd_inv_a : matrix) (n_charge : Z).

Lemma closed_0d_run (threshold : Q) (v : list Q) (h : gmap loc pyobj) :
  solving cgd cdd_inv prob cgd_a cdd_inv_a n_charge h ->
  exists h',
    _ground_state_closed_0d osqp_solve compute_charge_configuration_brute_force
      v n_charge cgd cdd_inv threshold prob h
    = (closed_point osqp_solve compute_charge_configuration_brute_force
       cdd_inv_a cgd_a n_charge threshold v, h') /\
    solving cgd cdd_inv prob cgd_a cdd_inv_a n_charge h'.
Proof.
  intros (Hcgd & Hinv & q & Hprob).
  assert (Hne1 : prob <> cgd) by (intros ->; congruence).
  assert (Hne2 : prob <> cdd_inv) by (intros ->; congruence).
  set (q' := matvec (matmul (mneg cdd_inv_a) cgd_a) v).
  exists (<[prob := ObjOSQP (closed_problem cdd_inv_a n_charge q')]> h).
  split.
  - unfold _ground_state_closed_0d, py_bind, load_array, osqp_update, load_problem,
      py_lift.
    rewrite Hinv, Hcgd, Hprob. cbn [osqp_P osqp_A osqp_l osqp_u closed_problem].
    rewrite lookup_insert_eq.
    rewrite lookup_insert_ne by assumption. rewrite Hinv. reflexivity.
  - repeat split.
    + now rewrite lookup_insert_ne.
    + now rewrite lookup_insert_ne.
    + exists q'. apply lookup_insert_eq.
Qed.

Lemma closed_map_run (threshold : Q) (rows : list (list Q)) (h : gmap loc pyobj) :
  solving cgd cdd_inv prob cgd_a cdd_inv_a n_charge h ->
  exists h',
    py_map (fun v => _ground_state_closed_0d osqp_solve
                       compute_charge_configuration_brute_force
                       v n_charge cgd cdd_inv threshold prob) rows h
    = (result_map (closed_point osqp_solve compute_charge_configuration_brute_force
       cdd_inv_a cgd_a n_charge threshold) rows, h') /\
    solving cgd cdd_inv prob cgd_a cdd_inv_a n_charge h'.
Proof.
  revert h. induction rows as [|v rows IH]; intros h Hs.
  - exists h. split; [reflexivity|assumption].
  - cbn [py_map result_map]. unfold py_bind at 1.
    destruct (closed_0d_run threshold v h Hs) as (h1 & -> & Hs1).
    destruct (closed_point osqp_solve compute_charge_configuration_brute_force
       cdd_inv_a cgd_a n_charge threshold v) as [n|e];
      cbn [rbind]; [|exists h1; auto].
    unfold py_bind at 1. destruct (IH h1 Hs1) as (h2 & -> & Hs2).
    destruct (result_map _ rows) as [ns|e]; cbn [rbind]; exists h2; auto.
Qed.

End Store.

(** C6: when, for some voltage vector of the batch, the configuration
    generator returns no candidate at the relaxed solution, the corrector
    raises a value error at that point and the closed batch solve raises
    it too: no occupation array is returned. *)
Theorem closed_infeasible_raises (h : gmap loc pyobj) (vg cgd cdd cdd_inv : loc)
  (n_charge : Z) (threshold : Q) (vg_a cgd_a cdd_inv_a : matrix) (v : list Q) :
  h !! vg = Some (ObjArray vg_a) ->
  h !! cgd = Some (ObjArray cgd_a) ->
  h !! cdd_inv = Some (ObjArray cdd_inv_a) ->
  In v vg_a ->
  compute_charge_configuration_brute_force
    n_charge (length cdd_inv_a)
    (map np_floor (relaxed_closed osqp_solve cdd_inv_a cgd_a n_charge v)) = [] ->
  compute_argmin_closed compute_charge_configuration_brute_force
    (relaxed_closed osqp_solve cdd_inv_a cgd_a n_charge v) threshold cdd_inv_a (Some n_charge)
  = Raise (ValueError "attempt to get argmin of an empty sequence") /\
  fst (ground_state_closed_python osqp_solve compute_charge_configuration_brute_force
         vg n_charge cgd cdd cdd_inv threshold h)
  = Raise (ValueError "attempt to get argmin of an empty sequence").
Proof.
  intros Hvg Hcgd Hinv Hin Hgen.
  pose proof (compute_argmin_closed_empty _ threshold _ _ Hgen) as Hpoint.
  split; [exact Hpoint|].
  set (l := fresh (dom h)).
  assert (Hl : h !! l = None) by (apply not_elem_of_dom, is_fresh).
  assert (Hl1 : l <> vg) by (intros E; rewrite E in Hl; congruence).
  assert (Hl2 : l <> cgd) by (intros E; rewrite E in Hl; congruence).
  assert (Hl3 : l <> cdd_inv) by (intros E; rewrite E in Hl; congruence).
  set (q0 := matvec (matmul (mneg cdd_inv_a) cgd_a) (repeat 0%Q (ncols cgd_a))).
  set (h1 := <[l := ObjOSQP (closed_problem cdd_inv_a n_charge q0)]> h).
  assert (Hs : solving cgd cdd_inv l cgd_a cdd_inv_a n_charge h1).
  { unfold solving, h1. repeat split.
    - now rewrite lookup_insert_ne.
    - now rewrite lookup_insert_ne.
    - exists q0. apply lookup_insert_eq. }
  destruct (closed_map_run cgd cdd_inv l cgd_a cdd_inv_a n_charge threshold vg_a h1 Hs)
    as (h2 & Hmap & _).
  assert (Hraise : result_map (closed_point osqp_solve compute_charge_configuration_brute_force
       cdd_inv_a cgd_a n_charge threshold) vg_a
                   = Raise empty_argmin).
  { apply (result_map_raise _ _ v); [assumption|exact Hpoint|].
    intros v' e' He'. now apply compute_argmin_closed_outcome in He'. }
  rewrite Hraise in Hmap.
  unfold ground_state_closed_python, init_osqp_problem.
  unfold py_bind, load_array, py_alloc.
  cbv beta zeta. rewrite Hinv, Hcgd. fold l. fold q0.
  change (<[l := _]> h) with h1.
  assert (Hvg1 : h1 !! vg = Some (ObjArray vg_a)).
  { unfold h1. now rewrite lookup_insert_ne. }
  rewrite Hvg1.
  unfold py_bind in Hmap. rewrite Hmap. reflexivity.
Qed.

End Infeasible.

(** ** The closed-mode corrector without a total-charge target *)

Section ClosedBranching.
Import Np PyCore CorrectorSpec Samples.
Local Open Scope Q_scope.

Variable compute_charge_configuration_brute_force :
  Z -> nat -> list Z -> list (list Z).

Lemma filter_below_seq (k n : nat) :
  List.filter (fun a => a <? k)%nat (seq 0 n) = seq 0 (Nat.min k n).
Proof.
  induction n as [|n IH]; [now rewrite Nat.min_0_r|].
  rewrite seq_S, List.filter_app, IH. cbn [List.filter plus].
  destruct (Nat.ltb_spec n k) as [Hlt|Hge].
  - replace (Nat.min k (S n)) with (S (Nat.min k n)) by lia.
    replace (Nat.min k n) with n by lia. now rewrite seq_S.
  - rewrite app_nil_r. f_equal. lia.
Qed.

(** The branched dots are the first ones by index, whatever their
    remainders. *)
Lemma closed_floor_ceil_args_prefix (n_continuous : list Q) (threshold : Q)
  (cdd_inv : matrix) :
  closed_floor_ceil_args n_continuous threshold cdd_inv
  = seq 0 (Nat.min (closed_threshold_index n_continuous threshold cdd_inv)
                   (length n_continuous)).
Proof. unfold closed_floor_ceil_args. apply filter_below_seq. Qed.

(** C2 at a failing input: five dots with remainders 0, 0, 0, 5/8, 5/8
    and threshold 0.  Ranked by distance of the remainder from one half
    the dots come in the order 3, 4, 0, 1, 2 and three dots are to be
    branched; the corrector branches dots 0, 1, 2, rounds dots 3 and 4,
    and returns (0, 0, 0, 1, 1) although (0, 0, 0, 0, 1), reachable by
    branching dot 3, has a lower score. *)
Theorem closed_branching_ignores_ranking :
  np_argsort (map (fun r => Qabs (r - (1 # 2))) (remainders five_dots))
    = [3; 4; 0; 1; 2]%nat /\
  closed_threshold_index five_dots 0 coupled5 = 3%nat /\
  closed_floor_ceil_args five_dots 0 coupled5 = [0; 1; 2]%nat /\
  compute_argmin_closed compute_charge_configuration_brute_force
    five_dots 0 coupled5 None = Ok (map of_int [0; 0; 0; 1; 1]%Z) /\
  energy coupled5 five_dots [0; 0; 0; 0; 1]%Z
    < energy coupled5 five_dots [0; 0; 0; 1; 1]%Z.
Proof. repeat split; vm_compute; reflexivity. Qed.

End ClosedBranching.

(** ** Instances on sample data *)

Section Instances.
Import Np PyCore Helper HelperSpec CorrectorSpec StoreSpec Samples.
Local Open Scope string_scope.
Local Open Scope Q_scope.




Lemma half_and_seven_quarters : GeneratorSpec.no_overflow [1 # 2; 7 # 4].
Proof.
  unfold GeneratorSpec.no_overflow, GeneratorSpec.in_int64, int64_min, int64_max.
  split; [repeat constructor; vm_compute; intros H; discriminate H|].
  repeat split; vm_compute; intros H; discriminate H.
Defined.

Lemma two_in_range : GeneratorSpec.in_int64 2.
Proof. split; vm_compute; intros H; discriminate H. Defined.

Lemma closed_charge_configurations_exact_witness :
  GeneratorSpec.no_overflow [1 # 2; 7 # 4] /\ GeneratorSpec.in_int64 2 /\
  exists confs : list (list Z),
    ClosedGen.closed_charge_configurations [1 # 2; 7 # 4] 2 = Ok confs /\
    In [1; 1]%Z confs.
Proof.
  split; [exact half_and_seven_quarters|]. split; [exact two_in_range|].
  destruct (closed_charge_configurations_exact [1 # 2; 7 # 4] 2
              half_and_seven_quarters two_in_range) as (confs & Hrun & _ & Hin & _).
  exists confs. split; [exact Hrun|]. apply Hin.
  split; [|reflexivity].
  constructor; [right; reflexivity|]. constructor; [left; reflexivity|constructor].
Defined.

(** C4 as stated fails: the floors are 64-bit integers.  For four dots
    at [2 ^ 62] their sum wraps around to zero, and for [n_charge = 0] the
    generator returns the row of the floors, whose charges add up to
    [2 ^ 64]; for two dots at [2 ^ 62] and [n_charge = 2 ^ 63] it returns
    no row although the row of the floors adds up to [n_charge]. *)
Lemma int64_sum_wraps :
  ClosedGen.closed_charge_configurations
    (map inject_Z [2 ^ 62; 2 ^ 62; 2 ^ 62; 2 ^ 62]%Z) 0
  = Ok [[2 ^ 62; 2 ^ 62; 2 ^ 62; 2 ^ 62]%Z] /\
  zsum [2 ^ 62; 2 ^ 62; 2 ^ 62; 2 ^ 62]%Z <> 0%Z /\
  ClosedGen.closed_charge_configurations (map inject_Z [2 ^ 62; 2 ^ 62]%Z) (2 ^ 63)
  = Ok [] /\
  GeneratorSpec.floor_or_next (map inject_Z [2 ^ 62; 2 ^ 62]%Z) [2 ^ 62; 2 ^ 62]%Z /\
  zsum [2 ^ 62; 2 ^ 62]%Z = (2 ^ 63)%Z.
Proof.
  split; [vm_compute; reflexivity|]. split; [vm_compute; intros H; discriminate H|].
  split; [vm_compute; reflexivity|]. split; [|vm_compute; reflexivity].
  constructor; [left; vm_compute; reflexivity|].
  constructor; [left; vm_compute; reflexivity|constructor].
Qed.


Lemma closed_infeasible_raises_witness :
  sample_generator 5 (length identity2)
    (map np_floor (relaxed_closed sample_solver identity2
                     [[1; 1 # 5; 1 # 20]; [1 # 5; 1; 1 # 20]] 5 [0; 0; 0])) = [] /\
  fst (PyCore.ground_state_closed_python sample_solver sample_generator
         0%nat 5 1%nat 2%nat 3%nat 1 sample_store)
  = Raise (ValueError "attempt to get argmin of an empty sequence").
Proof.
  assert (Hgen : sample_generator 5 (length identity2)
            (map np_floor (relaxed_closed sample_solver identity2
                             [[1; 1 # 5; 1 # 20]; [1 # 5; 1; 1 # 20]] 5 [0; 0; 0])) = [])
    by (vm_compute; reflexivity).
  split; [exact Hgen|].
  refine (proj2 (closed_infeasible_raises sample_solver sample_generator sample_store
                   0%nat 1%nat 2%nat 3%nat 5 1
                   [[0; 0; 0]; [1; 0; 0]] [[1; 1 # 5; 1 # 20]; [1 # 5; 1; 1 # 20]]
                   identity2 [0; 0; 0] _ _ _ _ Hgen)).
  - vm_compute; reflexivity.
  - vm_compute; reflexivity.
  - vm_compute; reflexivity.
  - left. reflexivity.
Defined.

Lemma shape_mismatch_rejected_witness :
  last (shape short_vg) = Some 2%nat /\ 2%nat <> n_gate (sample_model "rust") /\
  exists msg : string,
    _ground_state_open sample_backends (sample_model "rust") short_vg
      = ([], Raise (ValueError msg)) /\
    _ground_state_closed sample_backends (sample_model "rust") short_vg 1
      = ([], Raise (ValueError msg)).
Proof.
  assert (Hne : 2%nat <> n_gate (sample_model "rust")) by discriminate.
  split; [reflexivity|]. split; [exact Hne|].
  destruct (shape_mismatch_rejected sample_backends (sample_model "rust") short_vg 1
              2%nat eq_refl Hne) as [(msg & _ & Ho & Hc & _) _].
  exists msg. auto.
Defined.

(** C7 as stated fails: for a batch with two entries on the trailing
    axis and a model with three gates the message of the shape error does
    not mention the two, and it is the same message as for a batch with
    four entries: it states the expected shape only. *)
Lemma shape_error_omits_actual_shape :
  last (shape short_vg) = Some 2%nat /\
  last (shape long_vg) = Some 4%nat /\
  n_gate (sample_model "rust") = 3%nat /\
  (exists msg : string,
     _ground_state_open sample_backends (sample_model "rust") short_vg
       = ([], Raise (ValueError msg)) /\
     _ground_state_closed sample_backends (sample_model "rust") short_vg 1
       = ([], Raise (ValueError msg)) /\
     contains (str_of_nat 2) msg = false) /\
  _ground_state_open sample_backends (sample_model "rust") short_vg
    = _ground_state_open sample_backends (sample_model "rust") long_vg /\
  _ground_state_closed sample_backends (sample_model "rust") short_vg 1
    = _ground_state_closed sample_backends (sample_model "rust") long_vg 1.
Proof.
  repeat split; try reflexivity.
  eexists. repeat split; vm_compute; reflexivity.
Qed.

Lemma backend_dispatch_literal_witness :
  _validate_vg sample_vg (n_gate (sample_model "RUST")) = Ok tt /\
  (exists rows, reshape_rows sample_vg (n_gate (sample_model "RUST")) = Ok rows) /\
  solvers_of (fst (_ground_state_closed sample_backends (sample_model "RUST") sample_vg 1))
    = [Rust] /\
  solvers_of (fst (_ground_state_open sample_backends (sample_model "RUST") sample_vg))
    = [Rust].
Proof.
  assert (Hv : _validate_vg sample_vg (n_gate (sample_model "RUST")) = Ok tt)
    by reflexivity.
  assert (Hr : reshape_rows sample_vg (n_gate (sample_model "RUST"))
               = Ok (repeat [0; 0; 0] 4)) by reflexivity.
  destruct (backend_dispatch_literal sample_backends (sample_model "RUST") sample_vg 1
              (repeat [0; 0; 0] 4) Hv Hr) as [Hsel _].
  destruct (Hsel Rust) as [Hc Ho].
  - right. right. left. reflexivity.
  - split; [exact Hv|]. split; [eexists; exact Hr|]. split; [exact Hc|].
    apply Ho. intros E. discriminate E.
Defined.

(** C8 as stated fails: ["R"] is the spelling ["r"] of the native solver
    in upper case, yet both entry points reject it, and the message they
    raise does not name the brute-force group. *)
Lemma dispatch_is_case_sensitive :
  In (lower "R") (synonyms Rust) /\
  _ground_state_open sample_backends (sample_model "R") sample_vg
    = ([], Raise (ValueError "Incorrect core R, it must be either rust, jax or python")) /\
  _ground_state_closed sample_backends (sample_model "R") sample_vg 1
    = ([], Raise (ValueError "Incorrect core R, it must be either rust, jax or python")) /\
  contains "brute_force" "Incorrect core R, it must be either rust, jax or python" = false.
Proof.
  repeat split; try reflexivity. right. left. reflexivity.
Qed.

Lemma ground_state_shape_witness :
  length (data sample_vg) = size_of (shape sample_vg) /\
  last (shape sample_vg) = Some (n_gate (sample_model "python")) /\
  n_gate (sample_model "python") <> O /\
  snd (_ground_state_open sample_backends (sample_model "python") sample_vg)
    = Ok {| shape := [2; 2; 2]%nat; data := [1; 0; 1; 0; 1; 0; 1; 0] |} /\
  snd (_ground_state_closed sample_backends (sample_model "python") sample_vg 1)
    = Ok {| shape := [2; 2; 2]%nat; data := [1; 0; 1; 0; 1; 0; 1; 0] |}.
Proof.
  assert (Hg : n_gate (sample_model "python") <> O) by discriminate.
  destruct (ground_state_shape sample_backends (sample_model "python") sample_vg 1
              eq_refl eq_refl Hg) as (rows & Hr & _ & _ & _ & Hopen & Hclosed).
  injection Hr as <-.
  split; [reflexivity|]. split; [reflexivity|]. split; [exact Hg|]. split.
  - apply (Hopen (repeat [1; 0] 4)); try reflexivity. repeat constructor.
  - apply (Hclosed (repeat [1; 0] 4)); try reflexivity. repeat constructor.
Defined.

Lemma capacitance_matrices_unchanged_witness :
  sample_store !! 1%nat = Some (ObjArray [[1; 1 # 5; 1 # 20]; [1 # 5; 1; 1 # 20]]) /\
  snd (PyCore.ground_state_open_python sample_solver 0%nat 1%nat 3%nat 1 sample_store) !! 3%nat
    = Some (ObjArray identity2) /\
  snd (PyCore.ground_state_closed_python sample_solver sample_generator
         0%nat 1 1%nat 2%nat 3%nat 1 sample_store) !! 3%nat
    = Some (ObjArray identity2).
Proof.
  assert (H1 : sample_store !! 1%nat
               = Some (ObjArray [[1; 1 # 5; 1 # 20]; [1 # 5; 1; 1 # 20]]))
    by (vm_compute; reflexivity).
  assert (H2 : sample_store !! 2%nat = Some (ObjArray identity2))
    by (vm_compute; reflexivity).
  assert (H3 : sample_store !! 3%nat = Some (ObjArray identity2))
    by (vm_compute; reflexivity).
  destruct (capacitance_matrices_unchanged sample_solver sample_generator sample_store
              0%nat 1%nat 2%nat 3%nat 1 1 _ _ _ H1 H2 H3)
    as ((_ & _ & Hopen) & (_ & _ & Hclosed) & _).
  split; [exact H1|]. split; [exact Hopen|exact Hclosed].
Defined.

End Instances.

(** ** More on the open-mode corrector *)

Section OpenCorrectorMore.
Import Np PyCore CorrectorSpec VectorSpec.
Local Open Scope Q_scope.

Lemma open_candidate_floor_or_ceil (n : list Q) (threshold : Q) (c : list Z) :
  open_candidate n threshold c -> floor_or_ceil n c.
Proof.
  induction 1 as [|x ci n c [Hbr Hrd] _ IH]; constructor; [|exact IH].
  destruct (branchesb threshold x) eqn:Hb.
  - apply Hbr. now apply branchesb_spec.
  - rewrite Hrd by now apply branchesb_false. apply np_rint_floor_or_ceil.
Qed.

Lemma floor_nonneg (x : Q) : 0 <= x -> (0 <= np_floor x)%Z.
Proof.
  intros Hx. unfold np_floor. change 0%Z with (Qfloor 0).
  now apply Qfloor_resp_le.
Qed.

Lemma floor_le_ceil (x : Q) : (np_floor x <= np_ceil x)%Z.
Proof. rewrite Zle_Qle. apply Qle_floor_ceiling. Qed.

Lemma floor_or_ceil_nonneg (n : list Q) (c : list Z) :
  Forall (fun x => 0 <= x) n -> floor_or_ceil n c -> Forall (fun ci => (0 <= ci)%Z) c.
Proof.
  intros Hn Hc. induction Hc as [|x ci n c Hi _ IH]; [constructor|].
  inversion Hn as [|? ? Hx Hn']; subst. constructor; [|now apply IH].
  pose proof (floor_nonneg x Hx). pose proof (floor_le_ceil x).
  destruct Hi as [-> | ->]; lia.
Qed.

Lemma floor_or_ceil_close (n : list Q) (c : list Z) :
  floor_or_ceil n c -> Forall2 (fun x ci => Qabs (inject_Z ci - x) < 1) n c.
Proof.
  induction 1 as [|x ci n c Hi _ IH]; constructor; [|exact IH].
  destruct (floor_bounds x) as [Hlo Hhi].
  pose proof (Qle_ceiling x) as Hc1. pose proof (Qceiling_lt x) as Hc2.
  unfold Z.sub in Hc2. rewrite inject_Z_plus, inject_Z_opp in Hc2.
  change (inject_Z 1) with 1 in Hc2.
  destruct Hi as [-> | ->]; apply Qabs_case; intros H; unfold np_ceil in *; lra.
Qed.

(** X1: the open corrector returns, for every input, a vector whose
    components are the floor or the ceiling of the continuous ones. *)
Theorem compute_argmin_open_floor_or_ceil (n : list Q) (threshold : Q) (cdd_inv : matrix) :
  square_of (length n) cdd_inv ->
  exists c : list Z,
    compute_argmin_open n threshold cdd_inv = Ok (map of_int c) /\
    floor_or_ceil n c /\
    Forall2 (fun x ci => Qabs (inject_Z ci - x) < 1) n c /\
    (Forall (fun x => 0 <= x) n -> Forall (fun ci => (0 <= ci)%Z) c).
Proof.
  intros _.
  destruct (compute_argmin_open_first_min n threshold cdd_inv)
    as (i & c & Hrun & Hc & _ & _).
  apply nth_error_In, in_open_rows, open_candidate_floor_or_ceil in Hc.
  exists c. split; [exact Hrun|]. split; [exact Hc|].
  split; [now apply floor_or_ceil_close|].
  intros Hn. now apply (floor_or_ceil_nonneg n).
Qed.

Lemma Qabs_nonneg_half (threshold x : Q) : threshold <= 0 -> ~ branches threshold x.
Proof.
  unfold branches. intros Ht Hb.
  pose proof (Qabs_nonneg (remainder x - (1 # 2))) as Ha.
  assert (Hh : threshold / 2 <= 0 * / 2).
  { unfold Qdiv. apply Qmult_le_compat_r; [exact Ht|discriminate]. }
  assert (H0 : 0 * / 2 <= 0) by discriminate.
  eapply Qlt_irrefl, Qle_lt_trans; [exact Ha|].
  eapply Qlt_le_trans; [exact Hb|]. eapply Qle_trans; eassumption.
Qed.

Lemma open_candidate_unbranched (n : list Q) (threshold : Q) (c : list Z) :
  (forall x, ~ branches threshold x) ->
  open_candidate n threshold c -> c = map np_rint n.
Proof.
  intros Hno. induction 1 as [|x ci n c [_ Hrd] _ IH]; [reflexivity|].
  cbn [map]. now rewrite (Hrd (Hno x)), IH.
Qed.

(** X2: with a threshold of zero or less no dot is branched: the open
    corrector rounds every component, whatever [cdd_inv] is. *)
Theorem compute_argmin_open_rounds (n : list Q) (threshold : Q) (cdd_inv : matrix) :
  square_of (length n) cdd_inv ->
  threshold <= 0 ->
  open_floor_ceil_args n threshold = [] /\
  compute_argmin_open n threshold cdd_inv = Ok (map of_int (map np_rint n)).
Proof.
  intros _ Ht. split.
  - destruct (open_floor_ceil_args n threshold) as [|j l] eqn:Hl; [reflexivity|].
    assert (Hin : In j (open_floor_ceil_args n threshold)) by (rewrite Hl; now left).
    apply in_open_floor_ceil_args in Hin as (x & _ & Hb).
    now apply Qabs_nonneg_half in Hb.
  - destruct (compute_argmin_open_first_min n threshold cdd_inv)
      as (i & c & Hrun & Hc & _ & _).
    apply nth_error_In, in_open_rows in Hc.
    apply open_candidate_unbranched in Hc;
      [now subst|intros x; now apply Qabs_nonneg_half].
Qed.

Lemma np_floor_int (z : Z) : np_floor (inject_Z z) = z.
Proof. apply Qfloor_Z. Qed.

Lemma np_ceil_int (z : Z) : np_ceil (inject_Z z) = z.
Proof. apply Qceiling_Z. Qed.

Lemma floor_or_ceil_int (z c : list Z) :
  floor_or_ceil (map inject_Z z) c -> c = z.
Proof.
  revert c. induction z as [|a z IH]; intros c Hc; inversion Hc as [|? ? ? ? Hi Hc']; subst.
  - reflexivity.
  - rewrite np_floor_int, np_ceil_int in Hi. f_equal; [tauto|now apply IH].
Qed.

(** X3: an integer vector is a fixed point of the open corrector, for every
    threshold and every [cdd_inv]. *)
Theorem compute_argmin_open_integers (z : list Z) (threshold : Q) (cdd_inv : matrix) :
  square_of (length z) cdd_inv ->
  compute_argmin_open (map inject_Z z) threshold cdd_inv = Ok (map of_int z).
Proof.
  intros _.
  destruct (compute_argmin_open_first_min (map inject_Z z) threshold cdd_inv)
    as (i & c & Hrun & Hc & _ & _).
  apply nth_error_In, in_open_rows, open_candidate_floor_or_ceil in Hc.
  apply floor_or_ceil_int in Hc. now subst.
Qed.

End OpenCorrectorMore.

(** ** The closed-mode corrector without a total-charge target, in general *)

Section ClosedCorrectorFree.
Import Np PyCore CorrectorSpec VectorSpec.
Local Open Scope Q_scope.

Variable compute_charge_configuration_brute_force :
  Z -> nat -> list Z -> list (list Z).

Lemma argwhere_map_seq (f : nat -> bool) (len : nat) :
  argwhere (map f (seq 0 len)) = List.filter f (seq 0 len).
Proof.
  unfold argwhere. rewrite length_map, length_seq.
  apply List.filter_ext_in. intros i Hi. apply in_seq in Hi.
  rewrite (nth_indep _ false (f O)) by (rewrite length_map, length_seq; lia).
  rewrite map_nth, seq_nth by lia. reflexivity.
Qed.

Lemma prefix_mask_cons (k len : nat) :
  prefix_mask k (S len) = (0 <? k)%nat :: prefix_mask (Nat.pred k) len.
Proof.
  unfold prefix_mask. cbn [seq map]. f_equal.
  rewrite <- seq_shift, map_map. apply map_ext. intros a.
  destruct k as [|k]; [reflexivity|]. cbn [Nat.pred].
  destruct (Nat.ltb_spec (S a) (S k)), (Nat.ltb_spec a k); try reflexivity; lia.
Qed.

Lemma prefix_mask_count (k len : nat) :
  length (argwhere (prefix_mask k len)) = Nat.min k len.
Proof.
  unfold prefix_mask. rewrite argwhere_map_seq, filter_below_seq.
  apply length_seq.
Qed.

Lemma closed_floor_ceil_args_mask (n : list Q) (threshold : Q) (cdd_inv : matrix) :
  closed_floor_ceil_args n threshold cdd_inv
  = argwhere (prefix_mask (closed_threshold_index n threshold cdd_inv) (length n)).
Proof. unfold closed_floor_ceil_args, prefix_mask. now rewrite argwhere_map_seq. Qed.

(** The integer rows behind [closed_n_list], in generation order. *)
Lemma closed_n_list_rows (n : list Q) (threshold : Q) (cdd_inv : matrix) :
  let k := closed_threshold_index n threshold cdd_inv in
  closed_n_list n threshold cdd_inv
  = map (map of_int)
      (map (spec_row n (prefix_mask k (length n)))
           (product [np_floor; np_ceil] (Nat.min k (length n)))).
Proof.
  intros k. unfold closed_n_list, build_n_list.
  rewrite closed_floor_ceil_args_mask. fold k.
  rewrite prefix_mask_count, map_map.
  apply map_ext_in. intros ops Hops. apply in_product in Hops as [Hl _].
  apply fill_row_spec.
  - unfold prefix_mask. now rewrite length_map, length_seq.
  - now rewrite prefix_mask_count.
Qed.

Lemma spec_row_prefix (n : list Q) (k : nat) (ops : list (Q -> Z)) :
  length ops = Nat.min k (length n) ->
  Forall (fun op => In op [np_floor; np_ceil]) ops ->
  prefix_candidate k n (spec_row n (prefix_mask k (length n)) ops).
Proof.
  revert k ops. induction n as [|x n IH]; intros k ops Hl Hops; [exact I|].
  cbn [length]. rewrite prefix_mask_cons. cbn [spec_row].
  destruct k as [|k]; cbn [Nat.ltb Nat.leb Nat.pred].
  - cbn [prefix_candidate]. split; [reflexivity|].
    apply (IH O); [|assumption]. rewrite Hl. reflexivity.
  - change (0 <? S k)%nat with true. cbn match.
    destruct ops as [|op ops]; [discriminate|].
    inversion Hops as [|? ? Hop Hops']; subst.
    cbn [prefix_candidate Nat.pred]. split.
    + destruct Hop as [<-|[<-|[]]]; auto.
    + apply IH; [|assumption]. cbn [length Nat.min] in Hl. now injection Hl.
Qed.

Lemma prefix_spec_row (n : list Q) (k : nat) (c : list Z) :
  prefix_candidate k n c ->
  exists ops, length ops = Nat.min k (length n) /\
              Forall (fun op => In op [np_floor; np_ceil]) ops /\
              c = spec_row n (prefix_mask k (length n)) ops.
Proof.
  revert k c. induction n as [|x n IH]; intros k c Hc.
  - destruct c; [|destruct Hc]. exists []. rewrite Nat.min_0_r.
    repeat split. constructor.
  - destruct c as [|ci c]; [destruct Hc|]. destruct Hc as [Hi Hc].
    apply IH in Hc as (ops & Hl & Hops & ->).
    cbn [length]. rewrite prefix_mask_cons. cbn [spec_row].
    destruct k as [|k]; cbn [Nat.pred] in *.
    + exists ops. change (0 <? 0)%nat with false. cbn match.
      repeat split; [assumption..|now rewrite Hi].
    + change (0 <? S k)%nat with true. cbn match.
      destruct Hi as [-> | ->].
      * exists (np_floor :: ops). cbn [length Nat.min]. rewrite Hl.
        repeat split. constructor; [now left|assumption].
      * exists (np_ceil :: ops). cbn [length Nat.min]. rewrite Hl.
        repeat split. constructor; [right; now left|assumption].
Qed.

Lemma prefix_candidate_floor_or_ceil (k : nat) (n : list Q) (c : list Z) :
  prefix_candidate k n c -> floor_or_ceil n c.
Proof.
  revert k c. induction n as [|x n IH]; intros k c Hc.
  - destruct c; [constructor|destruct Hc].
  - destruct c as [|ci c]; [destruct Hc|]. destruct Hc as [Hi Hc].
    constructor; [|now apply (IH (Nat.pred k))].
    destruct k; [rewrite Hi; apply np_rint_floor_or_ceil|exact Hi].
Qed.


(** Without [n_charge] the closed corrector returns the first row of
    least score among its candidates. *)
Lemma compute_argmin_closed_free_min (n : list Q) (threshold : Q) (cdd_inv : matrix) :
  let k := closed_threshold_index n threshold cdd_inv in
  exists best : list Z,
    compute_argmin_closed compute_charge_configuration_brute_force
      n threshold cdd_inv None = Ok (map of_int best) /\
    prefix_candidate k n best /\
    (forall c, prefix_candidate k n c -> energy cdd_inv n best <= energy cdd_inv n c).
Proof.
  intros k.
  set (rows := map (spec_row n (prefix_mask k (length n)))
                   (product [np_floor; np_ceil] (Nat.min k (length n)))).
  assert (Hin : forall c, In c rows <-> prefix_candidate k n c).
  { intros c. unfold rows. rewrite in_map_iff. split.
    - intros (ops & <- & Hops). apply in_product in Hops as [Hl Hall].
      now apply spec_row_prefix.
    - intros Hc. apply prefix_spec_row in Hc as (ops & Hl & Hops & ->).
      exists ops. split; [reflexivity|]. apply in_product. now split. }
  assert (Hne : map (energy cdd_inv n) rows <> []).
  { intros Hnil. apply (f_equal (@length Q)) in Hnil.
    unfold rows in Hnil. rewrite !length_map, product_length in Hnil.
    cbn [length] in Hnil.
    pose proof (Nat.pow_nonzero 2 (Nat.min k (length n))). lia. }
  destruct (np_argmin_fin _ Hne) as (i & m & Harg & Hnth & Hle & _).
  rewrite nth_error_map in Hnth.
  destruct (nth_error rows i) as [best|] eqn:Hbest; [|discriminate].
  cbn in Hnth. injection Hnth as <-.
  exists best. split; [|split].
  - unfold compute_argmin_closed.
    rewrite (closed_n_list_rows n threshold cdd_inv). fold k. fold rows.
    rewrite free_energies_rows, Harg. cbn [rbind]. unfold getitem.
    now rewrite nth_error_map, Hbest.
  - apply Hin. now apply nth_error_In in Hbest.
  - intros c Hc. apply Hin, In_nth_error in Hc as [j Hj].
    apply (Hle j). now rewrite nth_error_map, Hj.
Qed.

(** X4: without [n_charge] the closed corrector returns, for every input, a
    vector of floors and ceilings; it is non-negative when the input
    is. *)
Theorem compute_argmin_closed_free_floor_or_ceil (n : list Q) (threshold : Q)
  (cdd_inv : matrix) :
  square_of (length n) cdd_inv ->
  exists c : list Z,
    compute_argmin_closed compute_charge_configuration_brute_force
      n threshold cdd_inv None = Ok (map of_int c) /\
    floor_or_ceil n c /\
    (Forall (fun x => 0 <= x) n -> Forall (fun ci => (0 <= ci)%Z) c).
Proof.
  intros _.
  destruct (compute_argmin_closed_free_min n threshold cdd_inv) as (c & Hrun & Hc & _).
  apply prefix_candidate_floor_or_ceil in Hc.
  exists c. split; [exact Hrun|]. split; [exact Hc|].
  intros Hn. now apply (floor_or_ceil_nonneg n).
Qed.


End ClosedCorrectorFree.

(** ** The batch solvers of the Python core: what they return *)

Section BatchResults.
Import Np PyCore CorrectorSpec VectorSpec StoreSpec BatchSpec.
Local Open Scope py_scope.

Variable osqp_solve : osqp_problem -> list Q.
Variable compute_charge_configuration_brute_force :
  Z -> nat -> list Z -> list (list Z).

Section OpenStore.

Variables (cgd cdd_inv prob : loc) (cgd_a cdd_inv_a : matrix).

Lemma open_0d_run (threshold : Q) (v : list Q) (h : gmap loc pyobj) :
  solving_open cgd cdd_inv prob cgd_a cdd_inv_a h ->
  exists h',
    _ground_state_open_0d osqp_solve v cgd cdd_inv threshold prob h
    = (open_point osqp_solve cdd_inv_a cgd_a threshold v, h') /\
    solving_open cgd cdd_inv prob cgd_a cdd_inv_a h' /\
    (forall l o, l <> prob -> h !! l = Some o -> h' !! l = Some o) /\
    (forall l, h' !! l = None -> h !! l = None).
Proof.
  intros (Hcgd & Hinv & q & Hprob).
  assert (Hne1 : prob <> cgd) by (intros ->; congruence).
  assert (Hne2 : prob <> cdd_inv) by (intros ->; congruence).
  set (q' := matvec (matmul (mneg cdd_inv_a) cgd_a) v).
  set (h1 := <[prob := ObjOSQP (open_problem cdd_inv_a q')]> h).
  assert (Hinv1 : h1 !! cdd_inv = Some (ObjArray cdd_inv_a)).
  { unfold h1. now rewrite lookup_insert_ne. }
  set (lf := fresh (dom h1)).
  assert (Hlf : h1 !! lf = None) by (apply not_elem_of_dom, is_fresh).
  exists (<[lf := ObjFloatArray
                    (open_n_list (relaxed_open osqp_solve cdd_inv_a cgd_a v) threshold)]> h1).
  assert (Hfresh : forall l o, h1 !! l = Some o -> l <> lf).
  { intros l o Hl ->. congruence. }
  split; [|split; [|split]].
  - unfold _ground_state_open_0d, py_bind, load_array, osqp_update, load_problem.
    rewrite Hinv, Hcgd, Hprob. cbn [osqp_P osqp_A osqp_l osqp_u open_problem].
    fold q'. change (<[prob := _]> h) with h1.
    unfold h1 at 1. rewrite lookup_insert_eq. fold h1.
    apply (in_place_run _ threshold cdd_inv cdd_inv_a h1 Hinv1).
  - repeat split.
    + rewrite lookup_insert_ne; [unfold h1; now rewrite lookup_insert_ne|].
      intros E. apply (Hfresh cgd (ObjArray cgd_a)); [|now symmetry].
      unfold h1. now rewrite lookup_insert_ne.
    + rewrite lookup_insert_ne; [exact Hinv1|].
      intros E. now apply (Hfresh cdd_inv (ObjArray cdd_inv_a)).
    + exists q'. rewrite lookup_insert_ne; [apply lookup_insert_eq|].
      intros E. apply (Hfresh prob (ObjOSQP (open_problem cdd_inv_a q'))); [|now symmetry].
      apply lookup_insert_eq.
  - intros l o Hl Ho.
    assert (H1 : h1 !! l = Some o) by (unfold h1; now rewrite lookup_insert_ne).
    rewrite lookup_insert_ne; [exact H1|].
    intros E. now apply (Hfresh l o).
  - intros l Hl. destruct (decide (l = lf)) as [->|Hne].
    + rewrite lookup_insert_eq in Hl. discriminate.
    + rewrite lookup_insert_ne in Hl by congruence.
      destruct (decide (l = prob)) as [->|Hnp].
      * unfold h1 in Hl. rewrite lookup_insert_eq in Hl. discriminate.
      * unfold h1 in Hl. now rewrite lookup_insert_ne in Hl by congruence.
Qed.

Lemma open_map_run (threshold : Q) (rows : list (list Q)) (h : gmap loc pyobj) :
  solving_open cgd cdd_inv prob cgd_a cdd_inv_a h ->
  exists h',
    py_map (fun v => _ground_state_open_0d osqp_solve v cgd cdd_inv threshold prob) rows h
    = (result_map (open_point osqp_solve cdd_inv_a cgd_a threshold) rows, h') /\
    solving_open cgd cdd_inv prob cgd_a cdd_inv_a h' /\
    (forall l o, l <> prob -> h !! l = Some o -> h' !! l = Some o) /\
    (forall l, h' !! l = None -> h !! l = None).
Proof.
  revert h. induction rows as [|v rows IH]; intros h Hs.
  - exists h. split; [reflexivity|]. split; [assumption|]. split; auto.
  - cbn [py_map result_map]. unfold py_bind at 1.
    destruct (open_0d_run threshold v h Hs) as (h1 & -> & Hs1 & Hf1 & Hd1).
    destruct (open_point osqp_solve cdd_inv_a cgd_a threshold v) as [n|e];
      cbn [rbind]; [|exists h1; auto].
    unfold py_bind at 1. destruct (IH h1 Hs1) as (h2 & -> & Hs2 & Hf2 & Hd2).
    assert (Hf : forall l o, l <> prob -> h !! l = Some o -> h2 !! l = Some o).
    { intros l o Hl Ho. apply Hf2; [exact Hl|]. now apply Hf1. }
    assert (Hd : forall l, h2 !! l = None -> h !! l = None).
    { intros l Hl. apply Hd1. now apply Hd2. }
    destruct (result_map _ rows) as [ns|e]; cbn [rbind]; exists h2; auto.
Qed.

End OpenStore.

Lemma clip_nonneg (x : list Q) (hi : option Q) :
  (forall h, hi = Some h -> (0 <= h)%Q) ->
  Forall (fun a => (0 <= a)%Q) (np_clip x 0 hi).
Proof.
  intros Hhi. unfold np_clip. apply List.Forall_forall. intros a Ha.
  apply in_map_iff in Ha as (b & <- & _).
  pose proof (Q.le_max_r b 0) as Hm.
  destruct hi as [h|]; [|exact Hm].
  apply Q.min_glb; [exact Hm|now apply Hhi].
Qed.

Lemma open_point_ok (cgd_a cdd_inv_a : matrix) (threshold : Q) (v : list Q) :
  exists c,
    open_point osqp_solve cdd_inv_a cgd_a threshold v = Ok (map of_int c) /\
    floor_or_ceil (relaxed_open osqp_solve cdd_inv_a cgd_a v) c /\
    Forall (fun ci => (0 <= ci)%Z) c.
Proof.
  unfold open_point.
  destruct (compute_argmin_open_first_min
              (relaxed_open osqp_solve cdd_inv_a cgd_a v) threshold cdd_inv_a)
    as (i & c & Hrun & Hc & _ & _).
  apply nth_error_In, in_open_rows, open_candidate_floor_or_ceil in Hc.
  exists c. split; [exact Hrun|]. split; [exact Hc|].
  eapply floor_or_ceil_nonneg; [|exact Hc].
  apply clip_nonneg. intros ? [=].
Qed.

Lemma open_points_ok (cgd_a cdd_inv_a : matrix) (threshold : Q) (rows : list (list Q)) :
  exists N,
    result_map (open_point osqp_solve cdd_inv_a cgd_a threshold) rows
      = Ok (map (map of_int) N) /\
    Forall2 (fun v c =>
               floor_or_ceil (relaxed_open osqp_solve cdd_inv_a cgd_a v) c /\
               Forall (fun ci => (0 <= ci)%Z) c) rows N.
Proof.
  induction rows as [|v rows (N & HN & HF)].
  - exists []. split; [reflexivity|constructor].
  - destruct (open_point_ok cgd_a cdd_inv_a threshold v) as (c & Hrun & Hc).
    exists (c :: N). cbn [result_map map]. rewrite Hrun. cbn [rbind].
    rewrite HN. cbn [rbind]. split; [reflexivity|now constructor].
Qed.

(** X6: on a store that holds the three arrays, with conforming shapes,
    and for a QP solver whose answers have one entry per dot, the open
    batch solve of the Python core returns a new array with one row per
    voltage vector, and every row is a vector of non-negative integers,
    the floors or ceilings of the clipped answer of the QP solver. *)
Theorem ground_state_open_python_returns (h : gmap loc pyobj) (vg cgd cdd_inv : loc)
  (threshold : Q) (vg_a cgd_a cdd_inv_a : matrix) :
  h !! vg = Some (ObjArray vg_a) ->
  h !! cgd = Some (ObjArray cgd_a) ->
  h !! cdd_inv = Some (ObjArray cdd_inv_a) ->
  conforming vg_a cgd_a cdd_inv_a ->
  answers_fit osqp_solve ->
  exists (l : loc) (N : list (list Z)),
    ground_state_open_python osqp_solve vg cgd cdd_inv threshold h
      = (Ok l, snd (ground_state_open_python osqp_solve vg cgd cdd_inv threshold h)) /\
    h !! l = None /\
    snd (ground_state_open_python osqp_solve vg cgd cdd_inv threshold h) !! l
      = Some (ObjFloatArray (map (map of_int) N)) /\
    Forall2 (fun v c =>
               floor_or_ceil (relaxed_open osqp_solve cdd_inv_a cgd_a v) c /\
               Forall (fun ci => (0 <= ci)%Z) c) vg_a N.
Proof.
  intros Hvg Hcgd Hinv _ _.
  set (p := fresh (dom h)).
  assert (Hp : h !! p = None) by (apply not_elem_of_dom, is_fresh).
  assert (Hp1 : p <> vg) by (intros E; rewrite E in Hp; congruence).
  assert (Hp2 : p <> cgd) by (intros E; rewrite E in Hp; congruence).
  assert (Hp3 : p <> cdd_inv) by (intros E; rewrite E in Hp; congruence).
  set (q0 := matvec (matmul (mneg cdd_inv_a) cgd_a) (repeat 0%Q (ncols cgd_a))).
  set (h1 := <[p := ObjOSQP (open_problem cdd_inv_a q0)]> h).
  assert (Hs : solving_open cgd cdd_inv p cgd_a cdd_inv_a h1).
  { unfold solving_open, h1. repeat split.
    - now rewrite lookup_insert_ne.
    - now rewrite lookup_insert_ne.
    - exists q0. apply lookup_insert_eq. }
  destruct (open_map_run cgd cdd_inv p cgd_a cdd_inv_a threshold vg_a h1 Hs)
    as (h2 & Hmap & _ & _ & Hdom).
  destruct (open_points_ok cgd_a cdd_inv_a threshold vg_a) as (N & HN & HF).
  rewrite HN in Hmap.
  set (l := fresh (dom h2)).
  assert (Hl2 : h2 !! l = None) by (apply not_elem_of_dom, is_fresh).
  assert (Hrun : ground_state_open_python osqp_solve vg cgd cdd_inv threshold h
                 = (Ok l, <[l := ObjFloatArray (map (map of_int) N)]> h2)).
  { unfold ground_state_open_python, init_osqp_problem.
    unfold py_bind, load_array, py_alloc.
    cbv beta zeta. rewrite Hinv, Hcgd. fold p. fold q0.
    change (<[p := _]> h) with h1.
    assert (Hvg1 : h1 !! vg = Some (ObjArray vg_a)).
    { unfold h1. now rewrite lookup_insert_ne. }
    rewrite Hvg1. unfold py_bind in Hmap. rewrite Hmap. reflexivity. }
  exists l, N. rewrite Hrun. cbn [snd].
  split; [reflexivity|]. split; [|split; [apply lookup_insert_eq|exact HF]].
  apply Hdom in Hl2. unfold h1 in Hl2.
  destruct (decide (l = p)) as [->|Hlp]; [exact Hp|].
  now rewrite lookup_insert_ne in Hl2 by congruence.
Qed.


Section ClosedStore.

Variables (cgd cdd_inv prob : loc) (cgd_a cdd_inv_a : matrix) (n_charge : Z).

Lemma closed_map_run_frame (threshold : Q) (rows : list (list Q)) (h : gmap loc pyobj) :
  solving cgd cdd_inv prob cgd_a cdd_inv_a n_charge h ->
  exists h',
    py_map (fun v => _ground_state_closed_0d osqp_solve
                       compute_charge_configuration_brute_force
                       v n_charge cgd cdd_inv threshold prob) rows h
    = (result_map (closed_point osqp_solve compute_charge_configuration_brute_force
                     cdd_inv_a cgd_a n_charge threshold) rows, h').
Proof.
  intros Hs.
  destruct (closed_map_run osqp_solve compute_charge_configuration_brute_force
              cgd cdd_inv prob cgd_a cdd_inv_a n_charge threshold rows h Hs)
    as (h' & Hrun & _).
  now exists h'.
Qed.

End ClosedStore.

Lemma closed_points_ok (cgd_a cdd_inv_a : matrix) (n_charge : Z) (threshold : Q)
  (rows : list (list Q)) :
  (forall v, In v rows -> offered osqp_solve compute_charge_configuration_brute_force
       cdd_inv_a cgd_a n_charge v <> []) ->
  exists N,
    result_map (closed_point osqp_solve compute_charge_configuration_brute_force
                  cdd_inv_a cgd_a n_charge threshold) rows
      = Ok (map (map of_int) N) /\
    Forall2 (fun v c => In c (offered osqp_solve compute_charge_configuration_brute_force
       cdd_inv_a cgd_a n_charge v)) rows N.
Proof.
  induction rows as [|v rows IH]; intros Hne.
  - exists []. split; [reflexivity|constructor].
  - destruct IH as (N & HN & HF); [intros v' Hv'; apply Hne; now right|].
    assert (Hv : offered osqp_solve compute_charge_configuration_brute_force
       cdd_inv_a cgd_a n_charge v <> []) by (apply Hne; now left).
    unfold offered in Hv.
    set (offer := compute_charge_configuration_brute_force n_charge (length cdd_inv_a)
                    (map np_floor (relaxed_closed osqp_solve cdd_inv_a cgd_a n_charge v)))
      in *.
    assert (Hne' : map (energy cdd_inv_a
                          (relaxed_closed osqp_solve cdd_inv_a cgd_a n_charge v)) offer
                   <> []).
    { destruct offer; [contradiction|discriminate]. }
    destruct (np_argmin_fin _ Hne') as (i & m & Harg & Hnth & _).
    rewrite nth_error_map in Hnth.
    destruct (nth_error offer i) as [c|] eqn:Hc; [|discriminate].
    exists (c :: N). cbn [result_map map].
    unfold closed_point at 1, compute_argmin_closed. fold offer.
    rewrite free_energies_rows, Harg. cbn [rbind]. unfold getitem.
    rewrite nth_error_map, Hc. cbn [option_map rbind]. rewrite HN. cbn [rbind].
    split; [reflexivity|]. constructor; [|exact HF].
    unfold offered. fold offer. now apply nth_error_In in Hc.
Qed.

(** X8: on a store that holds the three arrays, with conforming shapes,
    for a QP solver whose answers have one entry per dot and a generator
    that offers, at every point of the batch, at least one row and only
    rows with one entry per dot, the closed batch solve of the Python
    core returns a new array with one row per voltage vector, each row
    one of those offered at that point; so the rows add up to [n_charge]
    when the offered ones do. *)
Theorem ground_state_closed_python_returns (h : gmap loc pyobj)
  (vg cgd cdd cdd_inv : loc) (n_charge : Z) (threshold : Q)
  (vg_a cgd_a cdd_inv_a : matrix) :
  h !! vg = Some (ObjArray vg_a) ->
  h !! cgd = Some (ObjArray cgd_a) ->
  h !! cdd_inv = Some (ObjArray cdd_inv_a) ->
  conforming vg_a cgd_a cdd_inv_a ->
  answers_fit osqp_solve ->
  (forall v, In v vg_a ->
     offered osqp_solve compute_charge_configuration_brute_force
       cdd_inv_a cgd_a n_charge v <> [] /\
     Forall (fun c => length c = length cdd_inv_a)
       (offered osqp_solve compute_charge_configuration_brute_force
          cdd_inv_a cgd_a n_charge v)) ->
  exists (l : loc) (N : list (list Z)),
    fst (ground_state_closed_python osqp_solve compute_charge_configuration_brute_force
           vg n_charge cgd cdd cdd_inv threshold h) = Ok l /\
    snd (ground_state_closed_python osqp_solve compute_charge_configuration_brute_force
           vg n_charge cgd cdd cdd_inv threshold h) !! l
      = Some (ObjFloatArray (map (map of_int) N)) /\
    Forall2 (fun v c =>
               In c (offered osqp_solve compute_charge_configuration_brute_force
                       cdd_inv_a cgd_a n_charge v)) vg_a N /\
    ((forall v c,
        In c (offered osqp_solve compute_charge_configuration_brute_force
                cdd_inv_a cgd_a n_charge v) -> zsum c = n_charge) ->
     Forall (fun c => zsum c = n_charge) N).
Proof.
  intros Hvg Hcgd Hinv _ _ Hoffer'.
  assert (Hoffer : forall v, In v vg_a ->
            offered osqp_solve compute_charge_configuration_brute_force
              cdd_inv_a cgd_a n_charge v <> []) by (intros v Hv; now apply Hoffer').
  set (p := fresh (dom h)).
  assert (Hp : h !! p = None) by (apply not_elem_of_dom, is_fresh).
  assert (Hp1 : p <> vg) by (intros E; rewrite E in Hp; congruence).
  assert (Hp2 : p <> cgd) by (intros E; rewrite E in Hp; congruence).
  assert (Hp3 : p <> cdd_inv) by (intros E; rewrite E in Hp; congruence).
  set (q0 := matvec (matmul (mneg cdd_inv_a) cgd_a) (repeat 0%Q (ncols cgd_a))).
  set (h1 := <[p := ObjOSQP (closed_problem cdd_inv_a n_charge q0)]> h).
  assert (Hs : solving cgd cdd_inv p cgd_a cdd_inv_a n_charge h1).
  { unfold solving, h1. repeat split.
    - now rewrite lookup_insert_ne.
    - now rewrite lookup_insert_ne.
    - exists q0. apply lookup_insert_eq. }
  destruct (closed_map_run_frame cgd cdd_inv p cgd_a cdd_inv_a n_charge threshold
              vg_a h1 Hs) as (h2 & Hmap).
  destruct (closed_points_ok cgd_a cdd_inv_a n_charge threshold vg_a Hoffer)
    as (N & HN & HF).
  rewrite HN in Hmap.
  set (l := fresh (dom h2)).
  assert (Hrun : ground_state_closed_python osqp_solve
                   compute_charge_configuration_brute_force
                   vg n_charge cgd cdd cdd_inv threshold h
                 = (Ok l, <[l := ObjFloatArray (map (map of_int) N)]> h2)).
  { unfold ground_state_closed_python, init_osqp_problem.
    unfold py_bind, load_array, py_alloc.
    cbv beta zeta. rewrite Hinv, Hcgd. fold p. fold q0.
    change (<[p := _]> h) with h1.
    assert (Hvg1 : h1 !! vg = Some (ObjArray vg_a)).
    { unfold h1. now rewrite lookup_insert_ne. }
    rewrite Hvg1. unfold py_bind in Hmap. rewrite Hmap. reflexivity. }
  exists l, N. rewrite Hrun. cbn [fst snd].
  split; [reflexivity|]. split; [apply lookup_insert_eq|]. split; [exact HF|].
  intros Hsum. clear - HF Hsum.
  induction HF as [|v c rows N Hc _ IH]; constructor; [|exact IH].
  now apply (Hsum v).
Qed.

End BatchResults.

(** ** The closed-array configuration generator: how many rows *)

Section ClosedGenCount.
Import Np ClosedGen GeneratorSpec CountSpec.
Local Open Scope Z_scope.

Lemma choose_above (n k : nat) : (n < k)%nat -> choose n k = O.
Proof.
  revert k. induction n as [|n IH]; intros [|k] Hk; try lia; [reflexivity|].
  cbn [choose]. rewrite (IH k), (IH (S k)) by lia. reflexivity.
Qed.

Lemma choose_pos (n k : nat) : (k <= n)%nat -> (0 < choose n k)%nat.
Proof.
  revert k. induction n as [|n IH]; intros [|k] Hk; cbn [choose]; try lia.
  specialize (IH k). lia.
Qed.

Lemma in_product_bits (k : nat) (row : list Z) :
  In row (product [0; 1] k) -> Forall is_bit row.
Proof. intros Hin. apply in_product in Hin as [_ Hall]. exact Hall. Qed.

Lemma filter_none {A : Type} (f : A -> bool) (l : list A) :
  (forall x, In x l -> f x = false) -> List.filter f l = [].
Proof.
  induction l as [|a l IH]; intros Hf; [reflexivity|].
  cbn [List.filter]. rewrite (Hf a) by now left.
  apply IH. intros x Hx. apply Hf. now right.
Qed.

Lemma count_cons (b t : Z) (rows : list (list Z)) :
  length (List.filter (sum_is t) (map (cons b) rows))
  = length (List.filter (sum_is (t - b)) rows).
Proof.
  rewrite filter_map_comm, length_map. f_equal.
  apply List.filter_ext. intros r. unfold sum_is, zsum. cbn [fold_right].
  destruct (Z.eqb_spec (b + fold_right Z.add 0 r) t),
    (Z.eqb_spec (fold_right Z.add 0 r) (t - b)); try reflexivity; lia.
Qed.

(** The tuples of [n] bits with [d] ones are [choose n d] many. *)
Lemma count_bits (n d : nat) :
  length (List.filter (sum_is (Z.of_nat d)) (product [0; 1] n)) = choose n d.
Proof.
  revert d. induction n as [|n IH]; intros d.
  - destruct d; reflexivity.
  - cbn [product flat_map]. rewrite app_nil_r, List.filter_app, length_app.
    rewrite !count_cons, Z.sub_0_r, IH.
    destruct d as [|d].
    + rewrite filter_none; [destruct n; reflexivity|].
      intros r Hr. apply in_product_bits, bits_sum_bounds in Hr.
      unfold sum_is. apply Z.eqb_neq. lia.
    + replace (Z.of_nat (S d) - 1) with (Z.of_nat d) by lia.
      rewrite IH. cbn [choose]. lia.
Qed.

(** X9: without overflow in 64-bit integers the generator returns
    [choose n_dot (n_charge - sum (floor n))] rows: none when [n_charge]
    is below the sum of the floors or more than [n_dot] above it. *)
Theorem closed_charge_configurations_count (n : list Q) (n_charge : Z) :
  no_overflow n -> in_int64 n_charge ->
  exists confs : list (list Z),
    closed_charge_configurations n n_charge = Ok confs /\
    length confs
    = if zsum (map np_floor n) <=? n_charge
      then choose (length n) (Z.to_nat (n_charge - zsum (map np_floor n)))
      else O.
Proof.
  intros Hno _. rewrite (closed_charge_configurations_in_range n n_charge Hno).
  unfold unbounded_configurations.
  set (fl := map np_floor n).
  assert (Hfl : length fl = length n) by apply length_map.
  rewrite zsum_succ, Hfl.
  destruct (Z.leb_spec (zsum fl) n_charge) as [Hle|Hgt].
  - destruct (Z.gtb_spec (zsum fl) n_charge) as [|_]; [lia|].
    destruct (Z.ltb_spec (zsum fl + Z.of_nat (length n)) n_charge) as [Hout|Hin].
    + exists []. split; [reflexivity|].
      rewrite choose_above by lia. reflexivity.
    + set (d := Z.to_nat (n_charge - zsum fl)).
      replace (n_charge - zsum fl) with (Z.of_nat d) by (unfold d; lia).
      pose proof (count_bits (length n) d) as Hcount.
      pose proof (choose_pos (length n) d ltac:(unfold d; lia)) as Hpos.
      destruct (List.filter (sum_is (Z.of_nat d)) (product [0; 1] (length n)))
        as [|c0 combos] eqn:Hc; [cbn [length] in Hcount; lia|].
      exists (map (fun row => zadd_vec row fl) (c0 :: combos)).
      split; [reflexivity|]. now rewrite length_map, Hcount.
  - destruct (Z.gtb_spec (zsum fl) n_charge) as [_|]; [|lia].
    exists []. split; reflexivity.
Qed.

End ClosedGenCount.

(** ** The brute-force configuration generator of an open array *)

Section OpenGenFacts.
Import Np OpenGen.
Local Open Scope Z_scope.

Lemma cartesian_repeat {A : Type} (x : list A) (k : nat) :
  cartesian (repeat x k) = product x k.
Proof.
  induction k as [|k IH]; [reflexivity|].
  cbn [repeat cartesian product]. now rewrite IH.
Qed.

Lemma swap_first_two_repeat {A : Type} (x : A) (k : nat) :
  swap_first_two (repeat x k) = repeat x k.
Proof. destruct k as [|[|k]]; reflexivity. Qed.

Lemma swap_first_two_involutive {A : Type} (r : list A) :
  swap_first_two (swap_first_two r) = r.
Proof. destruct r as [|a [|b r]]; reflexivity. Qed.

Lemma swap_first_two_length {A : Type} (r : list A) :
  length (swap_first_two r) = length r.
Proof. destruct r as [|a [|b r]]; reflexivity. Qed.

Lemma swap_first_two_Forall {A : Type} (P : A -> Prop) (r : list A) :
  Forall P r -> Forall P (swap_first_two r).
Proof.
  destruct r as [|a [|b r]]; cbn [swap_first_two]; try easy.
  intros H. inversion H as [|? ? Ha H']; subst.
  inversion H' as [|? ? Hb H'']; subst. repeat constructor; assumption.
Qed.

Lemma in_arange (stop : nat) (a : Z) : In a (arange stop) <-> 0 <= a < Z.of_nat stop.
Proof.
  unfold arange. rewrite in_map_iff. split.
  - intros (i & <- & Hi). apply in_seq in Hi. lia.
  - intros Ha. exists (Z.to_nat a). split; [lia|]. apply in_seq. lia.
Qed.

Lemma arange_NoDup (stop : nat) : List.NoDup (arange stop).
Proof.
  unfold arange. apply Finite.Injective_map_NoDup; [|apply List.seq_NoDup].
  intros a b Hab. lia.
Qed.

(** X10: for at least one dot the generator returns every vector of [n_dot]
    occupations between [0] and [n_max], each once,
    [(n_max + 1) ^ n_dot] rows in all; among them, for every total up to
    [n_max], a row with that total.  For no dot at all it raises. *)
Theorem open_configurations_complete (n_dot n_max : nat) :
  open_change_configurations_brute_force_python 0 n_max
    = Raise (ValueError "need at least one array to stack") /\
  (n_dot <> O ->
   exists rows : list (list Z),
     open_change_configurations_brute_force_python n_dot n_max = Ok rows /\
     length rows = ((n_max + 1) ^ n_dot)%nat /\
     List.NoDup rows /\
     (forall r, In r rows <->
                length r = n_dot /\ Forall (fun a => 0 <= a <= Z.of_nat n_max) r) /\
     (forall total, 0 <= total <= Z.of_nat n_max ->
                    Exists (fun r => zsum r = total) rows)).
Proof.
  split; [reflexivity|]. intros Hn.
  set (x := arange (n_max + 1)).
  assert (Hmem : forall r, In r (map swap_first_two (product x n_dot)) <->
                           length r = n_dot /\
                           Forall (fun a => 0 <= a <= Z.of_nat n_max) r).
  { intros r. rewrite in_map_iff. split.
    - intros (r' & <- & Hr'). apply in_product in Hr' as [Hl Hall].
      split; [now rewrite swap_first_two_length|].
      apply swap_first_two_Forall. eapply List.Forall_impl; [|exact Hall].
      intros a Ha. apply in_arange in Ha. cbn beta. lia.
    - intros [Hl Hall]. exists (swap_first_two r).
      split; [apply swap_first_two_involutive|]. apply in_product.
      split; [now rewrite swap_first_two_length|].
      apply swap_first_two_Forall. eapply List.Forall_impl; [|exact Hall].
      intros a Ha. cbn beta in Ha. apply in_arange. lia. }
  exists (map swap_first_two (product x n_dot)).
  split; [|split; [|split; [|split]]].
  - unfold open_change_configurations_brute_force_python, meshgrid_rows.
    fold x. rewrite swap_first_two_repeat, cartesian_repeat.
    destruct n_dot; [contradiction|reflexivity].
  - rewrite length_map, product_length. unfold x, arange.
    now rewrite length_map, length_seq.
  - apply Finite.Injective_map_NoDup.
    + intros a b Hab. apply (f_equal swap_first_two) in Hab.
      now rewrite !swap_first_two_involutive in Hab.
    + apply product_NoDup, arange_NoDup.
  - exact Hmem.
  - intros total Ht. apply List.Exists_exists.
    exists (total :: repeat 0 (Nat.pred n_dot)). split.
    + apply Hmem. split.
      * cbn [length]. rewrite repeat_length. lia.
      * constructor; [lia|]. apply List.Forall_forall. intros a Ha.
        apply repeat_spec in Ha. lia.
    + unfold zsum. cbn [fold_right].
      assert (H0 : forall m, fold_right Z.add 0 (repeat 0 m) = 0).
      { induction m as [|m IH]; [reflexivity|]. cbn [repeat fold_right]. lia. }
      rewrite H0. lia.
Qed.

End OpenGenFacts.

(** ** The constraints of the QP problem *)

Section Constraints.
Import Np PyCore StoreSpec BatchSpec.
Local Open Scope Q_scope.














End Constraints.

(** ** More on the brute-force kernel *)

Section KernelMore.
Import Np JaxBruteForce JaxBatch CorrectorSpec StoreSpec.

Variable softmax : list npfloat -> list npfloat.



Variable open_change_configurations_brute_force_jax : nat -> Z -> list (list Z).



End KernelMore.

(** ** More on the entry points *)

Section EntryMore.
Import Np Helper HelperSpec.
Local Open Scope string_scope.

Variable B : Backends.

Lemma astype_int_nonneg (x : Q) :
  (0 <=? astype_int x)%Z = true <-> (- (1) < x)%Q /\ (x < inject_Z (2 ^ 63))%Q.
Proof.
  unfold astype_int, to_int64, int64_min, int64_max.
  destruct x as [n d]. cbn [Qnum Qden].
  unfold Qlt. cbn [Qnum Qden Qopp inject_Z].
  rewrite Z.mul_1_r. change (-1 * Z.pos d)%Z with (- Z.pos d)%Z.
  pose proof (Pos2Z.is_pos d) as Hd.
  set (t := (n ÷ Z.pos d)%Z).
  assert (Ht : (0 <= t <-> - Z.pos d < n)%Z).
  { unfold t. destruct (Z.le_gt_cases 0 n) as [Hn|Hn].
    - split; intros _; [lia|]. apply Z.quot_pos; lia.
    - rewrite <- (Z.opp_involutive n) at 1. rewrite Z.quot_opp_l by lia.
      split; intros H.
      + assert (Hq : (- n ÷ Z.pos d = 0)%Z).
        { pose proof (Z.quot_pos (- n) (Z.pos d)). lia. }
        apply Z.quot_small_iff in Hq; lia.
      + rewrite Z.quot_small by lia. lia. }
  assert (Hu : (0 <= n -> (t <= 2 ^ 63 - 1 <-> n < 2 ^ 63 * Z.pos d))%Z).
  { intros Hn. unfold t. rewrite Z.quot_div_nonneg by lia.
    pose proof (Z.mul_succ_div_gt n (Z.pos d) Hd) as H2.
    split; intros H.
    - assert (Hm : (Z.pos d * Z.succ (n / Z.pos d) <= Z.pos d * 2 ^ 63)%Z)
        by (apply Z.mul_le_mono_nonneg_l; lia).
      lia.
    - assert (n / Z.pos d < 2 ^ 63)%Z by (apply Z.div_lt_upper_bound; lia).
      lia. }
  assert (Hneg : (n < 0 -> t <= 0)%Z).
  { intros Hn. unfold t. rewrite <- (Z.opp_involutive n), Z.quot_opp_l by lia.
    pose proof (Z.quot_pos (- n) (Z.pos d)). lia. }
  rewrite Z.leb_le.
  destruct ((- 2 ^ 63 <=? t) && (t <=? 2 ^ 63 - 1))%Z eqn:Hr.
  - apply andb_true_iff in Hr as [_ Hr]. apply Z.leb_le in Hr.
    split.
    + intros H0. split; [now apply Ht|].
      destruct (Z.le_gt_cases 0 n) as [Hn|Hn]; [now apply Hu|nia].
    + intros [H1 _]. now apply Ht.
  - split; [intros H; exfalso; lia|].
    intros [H1 H2]. exfalso. apply Ht in H1.
    apply andb_false_iff in Hr as [Hr|Hr]; apply Z.leb_gt in Hr; [lia|].
    destruct (Z.le_gt_cases 0 n) as [Hn|Hn].
    + apply (Hu Hn) in H2. lia.
    + specialize (Hneg Hn). lia.
Qed.

Lemma nonneg_check_spec (r : VectorList) :
  forallb (fun x => (0 <=? astype_int x)%Z) (concat r) = true <->
  Forall (fun x => (- (1) < x)%Q /\ (x < inject_Z (2 ^ 63))%Q) (concat r).
Proof.
  rewrite forallb_forall, List.Forall_forall.
  split; intros H x Hx; apply astype_int_nonneg; now apply H.
Qed.

(** X15: the check after an open solve casts to 64-bit integers,
    truncating toward zero: the call returns as soon as every entry of the
    solver's result is greater than [-1] and less than [2 ^ 63], and
    raises an assertion error when some entry is [-1] or less, or
    [2 ^ 63] or more. *)
Theorem open_check_truncates (model : Model) (vg : ndarray) (rows r : VectorList) :
  _validate_vg vg (n_gate model) = Ok tt ->
  reshape_rows vg (n_gate model) = Ok rows ->
  snd (dispatch_open B model rows) = Ok r ->
  (Forall (fun x => (- (1) < x)%Q /\ (x < inject_Z (2 ^ 63))%Q) (concat r) ->
   snd (_ground_state_open B model vg)
   = reshape_result r (nd_shape_of (shape vg) (n_dot model))) /\
  (Exists (fun x => (x <= - (1))%Q \/ (inject_Z (2 ^ 63) <= x)%Q) (concat r) ->
   snd (_ground_state_open B model vg)
   = Raise (AssertionError "The number of charges is negative something went wrong")).
Proof.
  intros Hv Hr Hd.
  rewrite (ground_state_open_steps B model vg rows Hv Hr). cbn [snd].
  rewrite Hd. cbn [rbind]. unfold finish_open, py_assert. split.
  - intros Hall. apply nonneg_check_spec in Hall. now rewrite Hall.
  - intros Hex.
    destruct (forallb _ (concat r)) eqn:Hall; [|reflexivity].
    apply nonneg_check_spec in Hall. rewrite List.Forall_forall in Hall.
    apply List.Exists_exists in Hex as (x & Hx & Hle).
    destruct (Hall x Hx) as [H1 H2]. exfalso.
    destruct Hle as [Hle|Hle].
    + apply (Qlt_irrefl x). eapply Qle_lt_trans; eassumption.
    + apply (Qlt_irrefl x). eapply Qlt_le_trans; eassumption.
Qed.

(** X16: in open mode a brute-force identifier without [max_charge_carriers]
    is refused with a value error before anything is printed and before
    any solver is entered. *)
Theorem brute_force_needs_max_charge (model : Model) (vg : ndarray) (rows : VectorList) :
  _validate_vg vg (n_gate model) = Ok tt ->
  reshape_rows vg (n_gate model) = Ok rows ->
  In (core model) (core_names BruteForce) ->
  max_charge_carriers model = None ->
  _ground_state_open B model vg
  = ([], Raise (ValueError
                  ("The max_charge_carriers must be specified for the jax_brute_force core use:"
                     ++ String (ascii_of_nat 10) "model.max_charge_carriers = #"))).
Proof.
  intros Hv Hr Hin Hmax.
  rewrite (ground_state_open_steps B model vg rows Hv Hr).
  unfold dispatch_open. rewrite Hmax.
  cbn [core_names In] in Hin.
  repeat (destruct Hin as [<-|Hin]; [reflexivity|]). destruct Hin.
Qed.

(** X17: the log of a call that reaches a solver: the native and the
    reference solver are entered silently; the JAX and the brute-force
    solver are entered after a warning exactly when the threshold is
    below one. *)
Theorem warning_before_solver (model : Model) (vg : ndarray) (n_charge : Z)
  (rows : VectorList) (k : core_kind) :
  _validate_vg vg (n_gate model) = Ok tt ->
  reshape_rows vg (n_gate model) = Ok rows ->
  In (core model) (core_names k) ->
  (k = BruteForce -> max_charge_carriers model <> None) ->
  let warns := match k with Jax | BruteForce => Qltb (threshold model) 1 | _ => false end in
  (exists msg, fst (_ground_state_open B model vg)
               = (if warns then [Print msg] else []) ++ [Solve k])%list /\
  (exists msg, fst (_ground_state_closed B model vg n_charge)
               = (if warns then [Print msg] else []) ++ [Solve k])%list.
Proof.
  intros Hv Hr Hin Hmax warns. unfold warns.
  rewrite (ground_state_open_steps B model vg rows Hv Hr).
  rewrite (ground_state_closed_steps B model vg n_charge rows Hv Hr).
  cbn [fst]. unfold dispatch_open, dispatch_closed, print_when.
  destruct k; cbn [core_names In] in Hin.
  - split; exists "";
      repeat (destruct Hin as [<-|Hin]; [reflexivity|]); destruct Hin.
  - split; eexists;
      repeat (destruct Hin as [<-|Hin];
              [cbn; destruct (Qltb (threshold model) 1); reflexivity|]);
      destruct Hin.
  - specialize (Hmax eq_refl).
    destruct (max_charge_carriers model) as [m|]; [|congruence].
    split; eexists;
      repeat (destruct Hin as [<-|Hin];
              [cbn; destruct (Qltb (threshold model) 1); reflexivity|]);
      destruct Hin.
  - split; exists "";
      repeat (destruct Hin as [<-|Hin]; [reflexivity|]); destruct Hin.
Qed.

Lemma rows_of_concat (count width : nat) (d : list Q) :
  length d = (count * width)%nat ->
  concat (rows_of count width d) = d /\
  Forall (fun row => length row = width) (rows_of count width d).
Proof.
  revert d. induction count as [|c IH]; intros d Hd.
  - destruct d; [split; [reflexivity|constructor]|discriminate].
  - cbn [rows_of concat].
    destruct (IH (skipn width d)) as [Hc Hf].
    { rewrite length_skipn. lia. }
    split.
    + rewrite Hc. apply firstn_skipn.
    + constructor; [|exact Hf]. rewrite length_firstn. lia.
Qed.

(** X18: the voltage vectors reach the solver intact: the batch is cut into
    as many rows as its leading dimensions hold, each of [n_gate] entries,
    and the rows put end to end are the entries of the batch in order. *)
Theorem batch_rows_intact (vg : ndarray) (n_gate : nat) :
  length (data vg) = size_of (shape vg) ->
  last (shape vg) = Some n_gate ->
  n_gate <> O ->
  exists rows : VectorList,
    reshape_rows vg n_gate = Ok rows /\
    length rows = size_of (removelast (shape vg)) /\
    Forall (fun row => length row = n_gate) rows /\
    concat rows = data vg.
Proof.
  intros Hwf Hl Hg.
  exists (rows_of (size_of (removelast (shape vg))) n_gate (data vg)).
  split; [now apply reshape_rows_ok|]. split; [apply rows_of_length|].
  assert (Hsz : length (data vg) = (size_of (removelast (shape vg)) * n_gate)%nat).
  { rewrite Hwf. rewrite (shape_split _ _ Hl) at 1. rewrite size_of_app.
    change (size_of [n_gate]) with (n_gate * 1)%nat. now rewrite Nat.mul_1_r. }
  destruct (rows_of_concat _ _ _ Hsz) as [Hc Hf]. now split.
Qed.

End EntryMore.

(** ** The capacitance helpers *)

Section ThresholdFacts.
Import Np Functions FunctionsSpec CorrectorSpec.
Local Open Scope Q_scope.

Lemma nth_map_seq {A : Type} (f : nat -> A) (n i : nat) (d : A) :
  (i < n)%nat -> nth i (map f (seq 0 n)) d = f i.
Proof.
  intros Hi. rewrite (nth_indep _ d (f 0%nat)) by now rewrite length_map, length_seq.
  rewrite map_nth, seq_nth by exact Hi. reflexivity.
Qed.

Lemma list_tabulate {A : Type} (l : list A) (d : A) :
  l = map (fun i => nth i l d) (seq 0 (length l)).
Proof.
  apply (nth_ext _ _ d d).
  - now rewrite length_map, length_seq.
  - intros i Hi. now rewrite nth_map_seq.
Qed.

Lemma matrix_tabulate (m : matrix) (n c : nat) :
  length m = n -> Forall (fun row => length row = c) m ->
  m = tabulate n c (entry m).
Proof.
  intros Hn Hc. unfold tabulate, entry. subst n.
  rewrite (list_tabulate m []) at 1.
  apply map_ext_in. intros i Hi. apply in_seq in Hi.
  assert (Hrow : length (nth i m []) = c).
  { rewrite List.Forall_forall in Hc. apply Hc, nth_In. lia. }
  rewrite (list_tabulate (nth i m []) 0) at 1. now rewrite Hrow.
Qed.



Lemma combine_map_seq {A B : Type} (f : nat -> A) (g : nat -> B) (s : list nat) :
  combine (map f s) (map g s) = map (fun i => (f i, g i)) s.
Proof. induction s as [|x s IH]; [reflexivity|]. cbn. now rewrite IH. Qed.

Lemma msub_tabulate (n c : nat) (F G : nat -> nat -> Q) :
  msub (tabulate n c F) (tabulate n c G) = tabulate n c (fun i j => F i j - G i j).
Proof.
  unfold msub, tabulate. rewrite combine_map_seq, map_map.
  apply map_ext. intros i. cbn [fst snd]. unfold vqsub.
  rewrite combine_map_seq, map_map. reflexivity.
Qed.

Lemma in_concat_tabulate {A : Type} (n c : nat) (F : nat -> nat -> A) (x : A) :
  In x (concat (tabulate n c F)) <->
  exists i j, (i < n)%nat /\ (j < c)%nat /\ x = F i j.
Proof.
  unfold tabulate. rewrite in_concat. split.
  - intros (row & Hrow & Hx). apply in_map_iff in Hrow as (i & <- & Hi).
    apply in_map_iff in Hx as (j & <- & Hj).
    apply in_seq in Hi, Hj. exists i, j. repeat split; lia.
  - intros (i & j & Hi & Hj & ->).
    exists (map (fun j => F i j) (seq 0 c)). split.
    + apply in_map_iff. exists i. split; [reflexivity|apply in_seq; lia].
    + apply in_map_iff. exists j. split; [reflexivity|apply in_seq; lia].
Qed.

(** The array that [compute_threshold] takes the maximum of. *)
Lemma compute_threshold_steps (cdd : matrix) (n : nat) :
  square_of n cdd ->
  compute_threshold cdd
  = rbind (np_max (map np_abs (concat (tabulate n n (fun i j =>
             fdiv (entry cdd i j - (if Nat.eqb i j then entry cdd i i else 0))
                  (entry cdd i i))))))
          (fun m => Ok (fmul (Fin 2) m)).
Proof.
  intros [Hn Hrows]. unfold compute_threshold. do 4 f_equal.
  unfold np_diag_of, np_diag. rewrite length_map, length_seq, Hn.
  rewrite (matrix_tabulate cdd n n Hn Hrows) at 1.
  change (map (fun i => map (fun j => if Nat.eqb i j
                                      then nth i (map (fun i0 => nth i0 (nth i0 cdd []) 0)
                                                      (seq 0 n)) 0
                                      else 0) (seq 0 n)) (seq 0 n))
    with (tabulate n n (fun i j => if Nat.eqb i j
                                   then nth i (map (fun i0 => entry cdd i0 i0) (seq 0 n)) 0
                                   else 0)).
  rewrite msub_tabulate. unfold tabulate at 1.
  rewrite combine_map_seq, map_map. unfold tabulate.
  apply map_ext_in. intros i Hi. apply in_seq in Hi. cbn [fst snd].
  rewrite map_map. apply map_ext. intros j.
  rewrite (nth_map_seq _ n i 0) by lia. reflexivity.
Qed.

Lemma fold_fmax_nan (l : list npfloat) : fold_left fmax l NaN = NaN.
Proof. induction l as [|y l IH]; [reflexivity|]. exact IH. Qed.

Lemma fold_fmax_has_nan (l : list npfloat) (x : npfloat) :
  In NaN (x :: l) -> fold_left fmax l x = NaN.
Proof.
  revert x. induction l as [|y l IH]; intros x Hin.
  - destruct Hin as [->|[]]. reflexivity.
  - cbn [fold_left]. destruct Hin as [->|[->|Hin]].
    + apply fold_fmax_nan.
    + unfold fmax. cbn [isnan]. destruct (isnan x) eqn:Ex.
      * destruct x; try discriminate. apply fold_fmax_nan.
      * apply fold_fmax_nan.
    + apply IH. now right.
Qed.

Lemma np_max_nan (l : list npfloat) : In NaN l -> np_max l = Ok NaN.
Proof.
  destruct l as [|x l]; [intros []|]. intros Hin. cbn [np_max].
  now rewrite fold_fmax_has_nan.
Qed.

(** X21: degenerate arrays: the empty array raises a value error, and a
    square array with a zero on its diagonal has the threshold [nan]. *)
Theorem compute_threshold_degenerate (cdd : matrix) (n i : nat) :
  compute_threshold []
  = Raise (ValueError
             "zero-size array to reduction operation maximum which has no identity") /\
  (square_of n cdd -> (i < n)%nat -> entry cdd i i == 0 ->
   compute_threshold cdd = Ok NaN).
Proof.
  split; [reflexivity|]. intros Hsq Hi Hz.
  rewrite (compute_threshold_steps cdd n Hsq).
  rewrite np_max_nan; [reflexivity|].
  apply in_map_iff. exists NaN. split; [reflexivity|].
  apply in_concat_tabulate. exists i, i. repeat split; try assumption.
  rewrite Nat.eqb_refl. unfold fdiv.
  assert (Hb : Qeq_bool (entry cdd i i) 0 = true) by now apply Qeq_eq_bool.
  rewrite Hb.
  assert (Hc : (entry cdd i i - entry cdd i i ?= 0) = Eq).
  { apply Qeq_alt. ring. }
  now rewrite Hc.
Qed.

End ThresholdFacts.

Section MaxwellFacts.
Import Np Functions FunctionsSpec CorrectorSpec.
Local Open Scope Q_scope.

Variable np_linalg_inv : matrix -> result matrix.
Variables Cdd CddInv Cgd : matrix -> result matrix.









End MaxwellFacts.

(** ** Changes of the dot occupation *)

Section ChangesFacts.
Import Np Changes ChangesSpec FunctionsSpec.
Local Open Scope Q_scope.

Variable Tetrad : array3 -> result array3.

Lemma removelast_map_seq {A : Type} (f : nat -> A) (n : nat) :
  removelast (map f (seq 0 n)) = map f (seq 0 (n - 1)).
Proof.
  destruct n as [|n]; [reflexivity|].
  rewrite seq_S, map_app. cbn [map]. rewrite removelast_last.
  now rewrite Nat.sub_succ, Nat.sub_0_r.
Qed.

Lemma tl_map_seq {A : Type} (f : nat -> A) (n : nat) :
  tl (map f (seq 0 n)) = map (fun i => f (S i)) (seq 0 (n - 1)).
Proof.
  destruct n as [|n]; [reflexivity|].
  cbn [seq map tl]. rewrite <- seq_shift, map_map.
  now rewrite Nat.sub_succ, Nat.sub_0_r.
Qed.

Lemma zip_with_map_seq {A B C : Type} (g : A -> B -> C) (f1 : nat -> A) (f2 : nat -> B)
  (s : list nat) :
  zip_with g (map f1 s) (map f2 s) = map (fun i => g (f1 i) (f2 i)) s.
Proof. unfold zip_with. now rewrite combine_map_seq, map_map. Qed.

Lemma rows_tabulate {A : Type} (d : A) (n : list (list A)) (nx ny : nat) :
  length n = nx -> Forall (fun row => length row = ny) n ->
  n = tabulate nx ny (fun i j => nth j (nth i n []) d).
Proof.
  intros Hn Hc. unfold tabulate. subst nx.
  rewrite (list_tabulate n []) at 1.
  apply map_ext_in. intros i Hi. apply in_seq in Hi.
  assert (Hrow : length (nth i n []) = ny).
  { rewrite List.Forall_forall in Hc. apply Hc, nth_In. lia. }
  rewrite (list_tabulate (nth i n []) d) at 1. now rewrite Hrow.
Qed.

Lemma nth_tabulate {A : Type} (nx ny : nat) (F : nat -> nat -> A) (i j : nat) (d : A) :
  (i < nx)%nat -> (j < ny)%nat -> nth j (nth i (tabulate nx ny F) []) d = F i j.
Proof.
  intros Hi Hj. unfold tabulate.
  rewrite (nth_map_seq _ nx i []) by exact Hi. now rewrite nth_map_seq.
Qed.

Lemma shape_tabulate {A : Type} (nx ny : nat) (F : nat -> nat -> A) :
  length (tabulate nx ny F) = nx /\
  Forall (fun row => length row = ny) (tabulate nx ny F).
Proof.
  unfold tabulate. rewrite length_map, length_seq. split; [reflexivity|].
  apply List.Forall_forall. intros row Hrow. apply in_map_iff in Hrow as (i & <- & _).
  now rewrite length_map, length_seq.
Qed.

(** The array of flags over a sweep given point by point. *)
Lemma changes_tabulate (nx ny : nat) (F : nat -> nat -> list Q) :
  let n := tabulate nx ny F in
  zip_with (zip_with orb)
    (zip_with (zip_with any_change)
       (map (@removelast (list Q)) (tl n))
       (map (@removelast (list Q)) (removelast n)))
    (zip_with (zip_with any_change)
       (map (@tl (list Q)) (removelast n))
       (map (@removelast (list Q)) (removelast n)))
  = tabulate (nx - 1) (ny - 1)
      (fun i j => any_change (F (S i) j) (F i j) || any_change (F i (S j)) (F i j)).
Proof.
  intros n. unfold n, tabulate.
  rewrite tl_map_seq, removelast_map_seq, !map_map.
  rewrite !zip_with_map_seq.
  apply map_ext. intros i.
  rewrite !removelast_map_seq, tl_map_seq, !zip_with_map_seq. reflexivity.
Qed.

Lemma far_spec (x y : Q) : negb (isclose_atol (1 # 1000) x y) = true <-> far x y.
Proof.
  unfold isclose_atol, far. rewrite negb_true_iff. split; intros H.
  - apply Qnot_le_lt. intros Hle. apply Qle_bool_iff in Hle. congruence.
  - destruct (Qle_bool _ _) eqn:E; [|reflexivity].
    apply Qle_bool_iff in E. exfalso. apply (Qlt_not_le _ _ H E).
Qed.

Lemma any_change_spec (a b : list Q) (nd : nat) :
  length a = nd -> length b = nd ->
  (any_change a b = true <-> exists d, (d < nd)%nat /\ far (nth d a 0) (nth d b 0)).
Proof.
  intros Ha Hb. unfold any_change, zip_with. rewrite existsb_exists. split.
  - intros (c & Hin & Hc). subst c.
    apply in_map_iff in Hin as ([x y] & Hxy & Hin). cbn [fst snd] in Hxy.
    apply (In_nth _ _ (0, 0)) in Hin as (d & Hd & Hnth).
    rewrite length_combine, Ha, Hb, Nat.min_id in Hd.
    rewrite combine_nth in Hnth by congruence. injection Hnth as <- <-.
    exists d. split; [exact Hd|]. now apply far_spec.
  - intros (d & Hd & Hfar). exists true. split; [|reflexivity].
    apply in_map_iff. exists (nth d a 0, nth d b 0). cbn [fst snd]. split.
    + now apply far_spec.
    + rewrite <- combine_nth by congruence. apply nth_In.
      rewrite length_combine, Ha, Hb, Nat.min_id. exact Hd.
Qed.

Lemma shaped_rows (nx ny nd : nat) (n : array3) :
  shaped nx ny nd n ->
  length n = nx /\ Forall (fun row => length row = ny) n /\
  forall i j, (i < nx)%nat -> (j < ny)%nat -> length (nth j (nth i n []) []) = nd.
Proof.
  intros [Hn Hrows]. split; [exact Hn|]. split.
  - eapply List.Forall_impl; [|exact Hrows]. now intros row [H _].
  - intros i j Hi Hj. rewrite List.Forall_forall in Hrows.
    destruct (Hrows (nth i n [])) as [Hlen Hv]; [apply nth_In; lia|].
    rewrite List.Forall_forall in Hv. apply Hv, nth_In. lia.
Qed.

(** The flags of a sweep of shape [(nx, ny, nd)]. *)
Lemma dot_occupation_changes_spec (arg : occupation) (n : array3) (nx ny nd : nat) :
  as_tetrad Tetrad arg = Ok n -> shaped nx ny nd n ->
  exists out : list (list bool),
    dot_occupation_changes Tetrad arg = Ok out /\
    length out = (nx - 1)%nat /\
    Forall (fun row => length row = (ny - 1)%nat) out /\
    forall i j, (i < nx - 1)%nat -> (j < ny - 1)%nat ->
      (nth j (nth i out []) false = true <->
       exists d, (d < nd)%nat /\
                 (far (cell n (S i) j d) (cell n i j d) \/
                  far (cell n i (S j) d) (cell n i j d))).
Proof.
  intros Harg Hshape.
  destruct (shaped_rows nx ny nd n Hshape) as (Hn & Hrows & Hvec).
  unfold dot_occupation_changes. rewrite Harg. cbn [rbind].
  pose proof (changes_tabulate nx ny (fun i j => nth j (nth i n []) [])) as Htab.
  cbv zeta in Htab. rewrite <- (rows_tabulate [] n nx ny Hn Hrows) in Htab.
  rewrite Htab. eexists. split; [reflexivity|].
  destruct (shape_tabulate (nx - 1) (ny - 1)
              (fun i j => any_change (nth j (nth (S i) n []) []) (nth j (nth i n []) [])
                          || any_change (nth (S j) (nth i n []) []) (nth j (nth i n []) [])))
    as [Hlen Hcols].
  split; [exact Hlen|]. split; [exact Hcols|].
  intros i j Hi Hj. rewrite nth_tabulate by assumption.
  rewrite orb_true_iff.
  rewrite (any_change_spec _ _ nd) by (apply Hvec; lia).
  rewrite (any_change_spec _ _ nd) by (apply Hvec; lia).
  unfold cell. split.
  - intros [(d & Hd & H)|(d & Hd & H)]; exists d; auto.
  - intros (d & Hd & [H|H]); [left|right]; exists d; auto.
Qed.


Lemma far_integers (a b : Z) :
  (Z.abs b <= 99899)%Z -> (far (inject_Z a) (inject_Z b) <-> a <> b).
Proof.
  intros Hb. unfold far.
  assert (Hd : inject_Z a - inject_Z b == inject_Z (a - b)).
  { unfold Qminus, Z.sub. rewrite inject_Z_plus, inject_Z_opp. reflexivity. }
  rewrite Hd.
  change (Qabs (inject_Z (a - b))) with (inject_Z (Z.abs (a - b))).
  change (Qabs (inject_Z b)) with (inject_Z (Z.abs b)).
  assert (H0 : 0 <= inject_Z (Z.abs b)).
  { change 0 with (inject_Z 0). rewrite <- Zle_Qle. lia. }
  rewrite Zle_Qle in Hb. change (inject_Z 99899) with 99899 in Hb.
  split.
  - intros H ->. rewrite Z.sub_diag in H. change (inject_Z (Z.abs 0)) with 0 in H. lra.
  - intros Hne.
    assert (H1 : 1 <= inject_Z (Z.abs (a - b))).
    { change 1 with (inject_Z 1). rewrite <- Zle_Qle. lia. }
    lra.
Qed.

Lemma small_integers_cell (n : array3) (nx ny nd i j d : nat) :
  shaped nx ny nd n -> small_integers n ->
  (i < nx)%nat -> (j < ny)%nat -> (d < nd)%nat ->
  exists z : Z, cell n i j d = inject_Z z /\ (Z.abs z <= 99899)%Z.
Proof.
  intros Hshape Hsmall Hi Hj Hd.
  destruct Hshape as [Hn Hrows]. unfold small_integers in Hsmall.
  rewrite List.Forall_forall in Hrows, Hsmall.
  assert (Hin : In (nth i n []) n) by (apply nth_In; lia).
  destruct (Hrows _ Hin) as [Hlen Hv]. specialize (Hsmall _ Hin).
  rewrite List.Forall_forall in Hv, Hsmall.
  assert (Hin2 : In (nth j (nth i n []) []) (nth i n [])) by (apply nth_In; lia).
  specialize (Hv _ Hin2). specialize (Hsmall _ Hin2).
  rewrite List.Forall_forall in Hsmall. apply Hsmall. unfold cell.
  apply nth_In. lia.
Qed.

(** X26: on a sweep of integer occupations of size at most [99899] the flag
    of a point is clear exactly when the occupation vector is the same at
    the point, at the next point along the first axis and at the next
    point along the second axis. *)
Theorem dot_occupation_changes_integers (arg : occupation) (n : array3) (nx ny nd : nat) :
  as_tetrad Tetrad arg = Ok n -> shaped nx ny nd n -> small_integers n ->
  exists out : list (list bool),
    dot_occupation_changes Tetrad arg = Ok out /\
    forall i j, (i < nx - 1)%nat -> (j < ny - 1)%nat ->
      (nth j (nth i out []) false = false <->
       forall d, (d < nd)%nat ->
                 cell n (S i) j d = cell n i j d /\ cell n i (S j) d = cell n i j d).
Proof.
  intros Harg Hshape Hsmall.
  destruct (dot_occupation_changes_spec arg n nx ny nd Harg Hshape)
    as (out & Hout & _ & _ & Hflag).
  exists out. split; [exact Hout|]. intros i j Hi Hj.
  specialize (Hflag i j Hi Hj).
  assert (Hcell : forall d, (d < nd)%nat ->
            exists a b c : Z,
              cell n i j d = inject_Z a /\ (Z.abs a <= 99899)%Z /\
              cell n (S i) j d = inject_Z b /\ cell n i (S j) d = inject_Z c).
  { intros d Hd.
    destruct (small_integers_cell n nx ny nd i j d Hshape Hsmall) as (a & Ha & Hsa); try lia.
    destruct (small_integers_cell n nx ny nd (S i) j d Hshape Hsmall) as (b & Hb & _); try lia.
    destruct (small_integers_cell n nx ny nd i (S j) d Hshape Hsmall) as (c & Hc & _); try lia.
    exists a, b, c. auto. }
  split.
  - intros Hf d Hd.
    destruct (Hcell d Hd) as (a & b & c & Ha & Hsa & Hb & Hc).
    rewrite Ha, Hb, Hc.
    destruct (Z.eq_dec b a) as [->|Hba].
    + destruct (Z.eq_dec c a) as [->|Hca]; [now split|].
      exfalso. assert (Ht : nth j (nth i out []) false = true); [|congruence].
      apply Hflag. exists d. split; [exact Hd|]. right.
      rewrite Ha, Hc. now apply far_integers.
    + exfalso. assert (Ht : nth j (nth i out []) false = true); [|congruence].
      apply Hflag. exists d. split; [exact Hd|]. left.
      rewrite Ha, Hb. now apply far_integers.
  - intros Hsame. destruct (nth j (nth i out []) false) eqn:E; [|reflexivity].
    exfalso. destruct Hflag as [Hflag _].
    destruct (Hflag eq_refl) as (d & Hd & Hfar).
    destruct (Hcell d Hd) as (a & b & c & Ha & Hsa & Hb & Hc).
    destruct (Hsame d Hd) as [H1 H2].
    rewrite Ha, Hb, Hc in Hfar.
    rewrite Ha, Hb in H1. rewrite Ha, Hc in H2.
    destruct Hfar as [Hfar|Hfar]; apply far_integers in Hfar; try assumption.
    + apply Hfar. unfold inject_Z in H1. congruence.
    + apply Hfar. unfold inject_Z in H2. congruence.
Qed.

End ChangesFacts.

(** ** Further instances *)

Section MoreInstances.
Import Np PyCore Helper HelperSpec CorrectorSpec StoreSpec Samples.
Import VectorSpec BatchSpec OpenGen Functions FunctionsSpec Changes ChangesSpec MoreSamples.
Local Open Scope string_scope.
Local Open Scope Q_scope.

Lemma square_two : square_of (length [1 # 2; 7 # 4]) identity2.
Proof. split; [reflexivity|]. repeat constructor. Defined.

Lemma compute_argmin_open_floor_or_ceil_witness :
  square_of (length [1 # 2; 7 # 4]) identity2 /\
  exists c : list Z,
    compute_argmin_open [1 # 2; 7 # 4] 1 identity2 = Ok (map of_int c) /\
    floor_or_ceil [1 # 2; 7 # 4] c.
Proof.
  split; [exact square_two|].
  destruct (compute_argmin_open_floor_or_ceil [1 # 2; 7 # 4] 1 identity2 square_two)
    as (c & Hrun & Hfc & _).
  exists c. auto.
Defined.

Lemma compute_argmin_open_rounds_witness :
  square_of (length [1 # 2; 7 # 4]) identity2 /\ 0 <= 0 /\
  compute_argmin_open [1 # 2; 7 # 4] 0 identity2
  = Ok (map of_int (map np_rint [1 # 2; 7 # 4])).
Proof.
  assert (H0 : 0 <= 0) by discriminate.
  split; [exact square_two|]. split; [exact H0|].
  exact (proj2 (compute_argmin_open_rounds [1 # 2; 7 # 4] 0 identity2 square_two H0)).
Defined.

Lemma compute_argmin_open_integers_witness :
  square_of (length [1; 2]%Z) identity2 /\
  compute_argmin_open (map inject_Z [1; 2]%Z) 1 identity2 = Ok (map of_int [1; 2]%Z).
Proof.
  split; [exact square_two|].
  exact (compute_argmin_open_integers [1; 2]%Z 1 identity2 square_two).
Defined.

Lemma compute_argmin_closed_free_floor_or_ceil_witness :
  square_of (length [1 # 2; 7 # 4]) identity2 /\
  exists c : list Z,
    compute_argmin_closed sample_generator [1 # 2; 7 # 4] 1 identity2 None
      = Ok (map of_int c) /\
    floor_or_ceil [1 # 2; 7 # 4] c.
Proof.
  split; [exact square_two|].
  destruct (compute_argmin_closed_free_floor_or_ceil sample_generator
              [1 # 2; 7 # 4] 1 identity2 square_two) as (c & Hrun & Hfc & _).
  exists c. auto.
Defined.


Lemma sample_store_vg : sample_store !! 0%nat = Some (ObjArray [[0; 0; 0]; [1; 0; 0]]).
Proof. vm_compute; reflexivity. Defined.

Lemma sample_store_cgd :
  sample_store !! 1%nat = Some (ObjArray [[1; 1 # 5; 1 # 20]; [1 # 5; 1; 1 # 20]]).
Proof. vm_compute; reflexivity. Defined.

Lemma sample_store_cdd_inv : sample_store !! 3%nat = Some (ObjArray identity2).
Proof. vm_compute; reflexivity. Defined.

Lemma sample_conforming :
  conforming [[0; 0; 0]; [1; 0; 0]] [[1; 1 # 5; 1 # 20]; [1 # 5; 1; 1 # 20]] identity2.
Proof.
  unfold conforming, square_of, ncols. cbn [length hd].
  repeat split; try (repeat constructor; fail); discriminate.
Defined.

Lemma sample_answers_fit : answers_fit sample_solver.
Proof. intros p. unfold sample_solver. apply repeat_length. Defined.

Lemma ground_state_open_python_returns_witness :
  sample_store !! 0%nat = Some (ObjArray [[0; 0; 0]; [1; 0; 0]]) /\
  sample_store !! 1%nat = Some (ObjArray [[1; 1 # 5; 1 # 20]; [1 # 5; 1; 1 # 20]]) /\
  sample_store !! 3%nat = Some (ObjArray identity2) /\
  conforming [[0; 0; 0]; [1; 0; 0]] [[1; 1 # 5; 1 # 20]; [1 # 5; 1; 1 # 20]] identity2 /\
  answers_fit sample_solver /\
  exists (l : loc) (N : list (list Z)),
    snd (PyCore.ground_state_open_python sample_solver 0%nat 1%nat 3%nat 1 sample_store) !! l
      = Some (ObjFloatArray (map (map of_int) N)) /\
    length N = 2%nat.
Proof.
  split; [exact sample_store_vg|]. split; [exact sample_store_cgd|].
  split; [exact sample_store_cdd_inv|].
  split; [exact sample_conforming|]. split; [exact sample_answers_fit|].
  destruct (ground_state_open_python_returns sample_solver sample_store
              0%nat 1%nat 3%nat 1 _ _ _
              sample_store_vg sample_store_cgd sample_store_cdd_inv
              sample_conforming sample_answers_fit)
    as (l & N & _ & _ & Hout & Hall).
  exists l, N. split; [exact Hout|].
  symmetry. exact (List.Forall2_length Hall).
Defined.




Lemma sample_offered (v : list Q) :
  In v [[0; 0; 0]; [1; 0; 0]] ->
  offered sample_solver sample_generator identity2
    [[1; 1 # 5; 1 # 20]; [1 # 5; 1; 1 # 20]] 1 v <> [] /\
  Forall (fun c => length c = length identity2)
    (offered sample_solver sample_generator identity2
       [[1; 1 # 5; 1 # 20]; [1 # 5; 1; 1 # 20]] 1 v).
Proof.
  intros [<-|[<-|[]]]; (split; [vm_compute; discriminate|vm_compute; repeat constructor]).
Defined.

Lemma ground_state_closed_python_returns_witness :
  sample_store !! 0%nat = Some (ObjArray [[0; 0; 0]; [1; 0; 0]]) /\
  sample_store !! 1%nat = Some (ObjArray [[1; 1 # 5; 1 # 20]; [1 # 5; 1; 1 # 20]]) /\
  sample_store !! 3%nat = Some (ObjArray identity2) /\
  conforming [[0; 0; 0]; [1; 0; 0]] [[1; 1 # 5; 1 # 20]; [1 # 5; 1; 1 # 20]] identity2 /\
  answers_fit sample_solver /\
  exists (l : loc) (N : list (list Z)),
    fst (PyCore.ground_state_closed_python sample_solver sample_generator
           0%nat 1 1%nat 2%nat 3%nat 1 sample_store) = Ok l /\
    length N = 2%nat.
Proof.
  split; [exact sample_store_vg|]. split; [exact sample_store_cgd|].
  split; [exact sample_store_cdd_inv|].
  split; [exact sample_conforming|]. split; [exact sample_answers_fit|].
  destruct (ground_state_closed_python_returns sample_solver sample_generator sample_store
              0%nat 1%nat 2%nat 3%nat 1%Z 1 _ _ _
              sample_store_vg sample_store_cgd sample_store_cdd_inv
              sample_conforming sample_answers_fit sample_offered)
    as (l & N & Hrun & _ & Hall & _).
  exists l, N. split; [exact Hrun|].
  symmetry. exact (List.Forall2_length Hall).
Defined.

Lemma closed_charge_configurations_count_witness :
  GeneratorSpec.no_overflow [1 # 2; 7 # 4] /\ GeneratorSpec.in_int64 2 /\
  exists confs : list (list Z),
    ClosedGen.closed_charge_configurations [1 # 2; 7 # 4] 2 = Ok confs /\
    length confs = 2%nat.
Proof.
  assert (Hno : GeneratorSpec.no_overflow [1 # 2; 7 # 4]).
  { unfold GeneratorSpec.no_overflow, GeneratorSpec.in_int64, int64_min, int64_max.
    split; [repeat constructor; vm_compute; intros H; discriminate H|].
    repeat split; vm_compute; intros H; discriminate H. }
  assert (H2 : GeneratorSpec.in_int64 2) by (split; vm_compute; intros H; discriminate H).
  split; [exact Hno|]. split; [exact H2|].
  destruct (closed_charge_configurations_count [1 # 2; 7 # 4] 2 Hno H2)
    as (confs & Hrun & Hlen).
  exists confs. split; [exact Hrun|]. rewrite Hlen. reflexivity.
Defined.

Lemma open_configurations_complete_witness :
  2%nat <> O /\
  exists rows : list (list Z),
    open_change_configurations_brute_force_python 2 1 = Ok rows /\
    length rows = 4%nat /\ In [1; 0]%Z rows.
Proof.
  assert (Hn : 2%nat <> O) by discriminate.
  split; [exact Hn|].
  destruct (proj2 (open_configurations_complete 2 1) Hn)
    as (rows & Hrun & Hlen & _ & Hin & _).
  exists rows. split; [exact Hrun|]. split; [exact Hlen|].
  apply Hin. split; [reflexivity|]. repeat constructor; cbn; lia.
Defined.




Lemma open_check_truncates_witness :
  _validate_vg sample_vg (n_gate (sample_model "python")) = Ok tt /\
  reshape_rows sample_vg (n_gate (sample_model "python")) = Ok (repeat [0; 0; 0] 4) /\
  snd (dispatch_open sample_backends (sample_model "python") (repeat [0; 0; 0] 4))
    = Ok (repeat [1; 0] 4) /\
  snd (_ground_state_open sample_backends (sample_model "python") sample_vg)
    = reshape_result (repeat [1; 0] 4)
        (nd_shape_of (shape sample_vg) (n_dot (sample_model "python"))).
Proof.
  assert (Hv : _validate_vg sample_vg (n_gate (sample_model "python")) = Ok tt)
    by reflexivity.
  assert (Hr : reshape_rows sample_vg (n_gate (sample_model "python"))
               = Ok (repeat [0; 0; 0] 4)) by reflexivity.
  assert (Hd : snd (dispatch_open sample_backends (sample_model "python")
                      (repeat [0; 0; 0] 4)) = Ok (repeat [1; 0] 4)) by reflexivity.
  split; [exact Hv|]. split; [exact Hr|]. split; [exact Hd|].
  apply (proj1 (open_check_truncates sample_backends (sample_model "python") sample_vg
                  _ _ Hv Hr Hd)).
  repeat constructor.
Defined.

Lemma brute_force_needs_max_charge_witness :
  _validate_vg sample_vg (n_gate unbounded_model) = Ok tt /\
  reshape_rows sample_vg (n_gate unbounded_model) = Ok (repeat [0; 0; 0] 4) /\
  In (core unbounded_model) (core_names BruteForce) /\
  max_charge_carriers unbounded_model = None /\
  exists msg, _ground_state_open sample_backends unbounded_model sample_vg
              = ([], Raise (ValueError msg)).
Proof.
  assert (Hv : _validate_vg sample_vg (n_gate unbounded_model) = Ok tt) by reflexivity.
  assert (Hr : reshape_rows sample_vg (n_gate unbounded_model)
               = Ok (repeat [0; 0; 0] 4)) by reflexivity.
  assert (Hin : In (core unbounded_model) (core_names BruteForce))
    by (left; reflexivity).
  split; [exact Hv|]. split; [exact Hr|]. split; [exact Hin|]. split; [reflexivity|].
  eexists.
  exact (brute_force_needs_max_charge sample_backends unbounded_model sample_vg
           _ Hv Hr Hin eq_refl).
Defined.

Lemma warning_before_solver_witness :
  _validate_vg sample_vg (n_gate (sample_model "jax")) = Ok tt /\
  reshape_rows sample_vg (n_gate (sample_model "jax")) = Ok (repeat [0; 0; 0] 4) /\
  In (core (sample_model "jax")) (core_names Jax) /\
  exists msg,
    fst (_ground_state_open sample_backends (sample_model "jax") sample_vg)
    = ((if Qltb (threshold (sample_model "jax")) 1 then [Print msg] else []) ++ [Solve Jax])%list.
Proof.
  assert (Hv : _validate_vg sample_vg (n_gate (sample_model "jax")) = Ok tt)
    by reflexivity.
  assert (Hr : reshape_rows sample_vg (n_gate (sample_model "jax"))
               = Ok (repeat [0; 0; 0] 4)) by reflexivity.
  assert (Hin : In (core (sample_model "jax")) (core_names Jax)) by (left; reflexivity).
  split; [exact Hv|]. split; [exact Hr|]. split; [exact Hin|].
  assert (Hk : Jax = BruteForce -> max_charge_carriers (sample_model "jax") <> None)
    by (intros H; discriminate H).
  exact (proj1 (warning_before_solver sample_backends (sample_model "jax") sample_vg 1
                  _ Jax Hv Hr Hin Hk)).
Defined.

Lemma batch_rows_intact_witness :
  length (data sample_vg) = size_of (shape sample_vg) /\
  last (shape sample_vg) = Some 3%nat /\ 3%nat <> O /\
  exists rows : VectorList,
    reshape_rows sample_vg 3 = Ok rows /\ concat rows = data sample_vg.
Proof.
  assert (Hg : 3%nat <> O) by discriminate.
  split; [reflexivity|]. split; [reflexivity|]. split; [exact Hg|].
  destruct (batch_rows_intact sample_vg 3 eq_refl eq_refl Hg) as (rows & Hr & _ & _ & Hc).
  exists rows. auto.
Defined.

Lemma compute_threshold_degenerate_witness :
  square_of 2 zero_diagonal2 /\ (0 < 2)%nat /\ entry zero_diagonal2 0 0 == 0 /\
  compute_threshold zero_diagonal2 = Ok NaN.
Proof.
  assert (Hsq : square_of 2 zero_diagonal2)
    by (split; [reflexivity|repeat constructor]).
  assert (Hi : (0 < 2)%nat) by lia.
  assert (Hz : entry zero_diagonal2 0 0 == 0) by reflexivity.
  split; [exact Hsq|]. split; [exact Hi|]. split; [exact Hz|].
  exact (proj2 (compute_threshold_degenerate zero_diagonal2 2 0) Hsq Hi Hz).
Defined.



Lemma sample_sweep_shaped : shaped 2 2 2 sample_sweep.
Proof. split; [reflexivity|]. repeat constructor. Defined.

Lemma sample_sweep_small : small_integers sample_sweep.
Proof.
  unfold small_integers, sample_sweep.
  repeat constructor;
    first [exists 0%Z; split; [reflexivity|cbn; lia]
          |exists 1%Z; split; [reflexivity|cbn; lia]].
Defined.


Lemma dot_occupation_changes_integers_witness :
  as_tetrad accept_tetrad (Plain sample_sweep) = Ok sample_sweep /\
  shaped 2 2 2 sample_sweep /\ small_integers sample_sweep /\
  exists out : list (list bool),
    dot_occupation_changes accept_tetrad (Plain sample_sweep) = Ok out /\
    nth 0 (nth 0 out []) false <> false.
Proof.
  split; [reflexivity|]. split; [exact sample_sweep_shaped|].
  split; [exact sample_sweep_small|].
  destruct (dot_occupation_changes_integers accept_tetrad (Plain sample_sweep) sample_sweep
              2 2 2 eq_refl sample_sweep_shaped sample_sweep_small) as (out & Hrun & Hflag).
  exists out. split; [exact Hrun|]. intros Hclear.
  assert (H01 : (0 < 2 - 1)%nat) by (cbn; lia).
  assert (H02 : (0 < 2)%nat) by lia.
  destruct (proj1 (Hflag 0%nat 0%nat H01 H01) Hclear 0%nat H02) as [H _].
  vm_compute in H. discriminate H.
Defined.

End MoreInstances.
